(** * ModelPilot [router.py]: a shallow embedding and its verified properties

    The script manages auto-routers of a LiteLLM gateway through its HTTP
    admin API.  This development embeds

    - the Python values the script manipulates (text, JSON values), together
      with the parts of the Python runtime the script calls: [json.dumps],
      [json.loads] (the [_json] accelerator's grammar), [bytes.decode("utf-8")],
      [len], [dict.get];
    - the effects of the script (connections, requests, printed lines,
      exceptions, [try]/[except]/[finally]) in a state-and-exception monad;
    - the script itself: [PRESETS], [create_connection], [api_request],
      [create_router], [list_models], [delete_model] and the dispatch of [main].

    Modelling limits, stated once: a Python [float] is represented by the
    shortest decimal digits and decimal-point position that [repr] prints for
    it (the output of the runtime's [dtoa]); rounding to binary64 is outside
    the model.  Interpreter resource limits (recursion depth, the integer
    digit limit) are not modelled.  [argparse] is taken as given: [main] starts
    from the parsed namespace. *)

From Stdlib Require Import String Ascii.
From Stdlib.Strings Require Import Byte.
From Stdlib Require Import NArith ZArith QArith Lia Bool List.
From Stdlib Require DecimalN DecimalZ DecimalFacts.
Import ListNotations.

Set Implicit Arguments.
Set Warnings "-register-all".

(* ------------------------------------------------------------------------- *)
(** ** Python text *)
(* ------------------------------------------------------------------------- *)

Module Py.

Local Open Scope N_scope.

(** A Python [str] is a sequence of code points. *)
Definition char := N.
Definition pystr := list char.

Definition ord (a : ascii) : char := N_of_ascii a.
Arguments ord a%_char.

(** An ASCII literal of the source as a [pystr]. *)
Definition py (s : string) : pystr := map ord (list_ascii_of_string s).
Arguments py s%_string.

Definition QUOTE : char := 34.
Definition BACKSLASH : char := 92.

(** A literal of the source that contains double quotes, written here with
    single quotes. *)
Definition pyq (s : string) : pystr :=
  map (fun c => if c =? 39 then QUOTE else c) (py s).
Arguments pyq s%_string.

Fixpoint str_eqb (a b : pystr) : bool :=
  match a, b with
  | [], [] => true
  | x :: a', y :: b' => (x =? y) && str_eqb a' b'
  | _, _ => false
  end.

(** [s.startswith(p)], returning the rest of [s] after the prefix. *)
Fixpoint strip_prefix (p s : pystr) : option pystr :=
  match p, s with
  | [], _ => Some s
  | x :: p', y :: s' => if x =? y then strip_prefix p' s' else None
  | _ :: _, [] => None
  end.

(** [sep.join(parts)] *)
Fixpoint join (sep : pystr) (parts : list pystr) : pystr :=
  match parts with
  | [] => []
  | [p] => p
  | p :: rest => p ++ sep ++ join sep rest
  end.

(** [c * n] for a one-character string [c] *)
Definition str_mul (c : pystr) (n : nat) : pystr := concat (repeat c n).

(** *** Decimal digits *)

Definition is_digit (c : char) : bool := (48 <=? c) && (c <=? 57).

Fixpoint chars_of_uint (u : Decimal.uint) : pystr :=
  match u with
  | Decimal.Nil => []
  | Decimal.D0 u' => 48 :: chars_of_uint u'
  | Decimal.D1 u' => 49 :: chars_of_uint u'
  | Decimal.D2 u' => 50 :: chars_of_uint u'
  | Decimal.D3 u' => 51 :: chars_of_uint u'
  | Decimal.D4 u' => 52 :: chars_of_uint u'
  | Decimal.D5 u' => 53 :: chars_of_uint u'
  | Decimal.D6 u' => 54 :: chars_of_uint u'
  | Decimal.D7 u' => 55 :: chars_of_uint u'
  | Decimal.D8 u' => 56 :: chars_of_uint u'
  | Decimal.D9 u' => 57 :: chars_of_uint u'
  end.

(** The digits of a string of ASCII digits; a character that is not a digit
    counts as [0] (callers pass digits only). *)
Fixpoint uint_of_chars (s : pystr) : Decimal.uint :=
  match s with
  | [] => Decimal.Nil
  | c :: s' =>
      let u := uint_of_chars s' in
      match c with
      | 49 => Decimal.D1 u | 50 => Decimal.D2 u | 51 => Decimal.D3 u
      | 52 => Decimal.D4 u | 53 => Decimal.D5 u | 54 => Decimal.D6 u
      | 55 => Decimal.D7 u | 56 => Decimal.D8 u | 57 => Decimal.D9 u
      | _ => Decimal.D0 u
      end
  end.

(** [int.__repr__] *)
Definition int_repr (z : Z) : pystr :=
  match Z.to_int z with
  | Decimal.Pos u => chars_of_uint u
  | Decimal.Neg u => ord "-" :: chars_of_uint u
  end.

(** [int(s)] for [s] a string of ASCII digits (leading zeros allowed). *)
Definition int_of_digits (s : pystr) : Z := Z.of_N (N.of_uint (uint_of_chars s)).

(** *** Hexadecimal escapes *)

Definition hexdigit (d : N) : char := if d <? 10 then 48 + d else 87 + d.

(** ['{0:04x}'.format(n)] for [n < 0x10000], the only use in the encoder. *)
Definition format_04x (n : N) : pystr :=
  [ hexdigit (N.land (N.shiftr n 12) 15); hexdigit (N.land (N.shiftr n 8) 15);
    hexdigit (N.land (N.shiftr n 4) 15); hexdigit (N.land n 15) ].

Definition hexval (c : char) : option N :=
  if is_digit c then Some (c - 48)
  else if (97 <=? c) && (c <=? 102) then Some (c - 87)
  else if (65 <=? c) && (c <=? 70) then Some (c - 55)
  else None.

(** Four hexadecimal digits, most significant first: [c = (c << 4) | digit]. *)
Definition decode_uXXXX (h1 h2 h3 h4 : char) : option N :=
  match hexval h1, hexval h2, hexval h3, hexval h4 with
  | Some a, Some b, Some c, Some d =>
      Some (N.lor (N.shiftl (N.lor (N.shiftl (N.lor (N.shiftl a 4) b) 4) c) 4) d)
  | _, _, _, _ => None
  end.

Definition is_high_surrogate (c : N) : bool := (0xd800 <=? c) && (c <=? 0xdbff).
Definition is_low_surrogate (c : N) : bool := (0xdc00 <=? c) && (c <=? 0xdfff).

Definition join_surrogates (uni uni2 : N) : N :=
  0x10000 + N.lor (N.shiftl (uni - 0xd800) 10) (uni2 - 0xdc00).

(** *** Notions used in the proofs *)

Definition is_ascii (c : char) : bool := c <? 128.

(** Checking a predicate on an interval of [N] by enumeration. *)
Fixpoint all_from (k : nat) (i : N) (f : N -> bool) : bool :=
  match k with
  | O => true
  | S k' => if f i then all_from k' (N.succ i) f else false
  end.

Definition hex_round_trip (n : N) : bool :=
  match decode_uXXXX (hexdigit (N.land (N.shiftr n 12) 15))
                     (hexdigit (N.land (N.shiftr n 8) 15))
                     (hexdigit (N.land (N.shiftr n 4) 15))
                     (hexdigit (N.land n 15)) with
  | Some m => m =? n
  | None => false
  end.

(** The two escapes the encoder emits for a code point beyond the BMP. *)
Definition high_surrogate_of (c : N) : N :=
  N.lor 0xd800 (N.land (N.shiftr (c - 0x10000) 10) 0x3ff).
Definition low_surrogate_of (c : N) : N :=
  N.lor 0xdc00 (N.land (c - 0x10000) 0x3ff).

End Py.

(* ------------------------------------------------------------------------- *)
(** ** JSON text: strings *)
(* ------------------------------------------------------------------------- *)

Module JsonString.
Import Py.
Local Open Scope N_scope.

(** The replacement the encoder makes for one character
    ([ESCAPE_ASCII], [ESCAPE_DCT] and [replace] of [py_encode_basestring_ascii]). *)
Definition escape_char (c : char) : pystr :=
  if (32 <=? c) && (c <=? 126) && negb (c =? BACKSLASH) && negb (c =? QUOTE)
  then [c]
  else if c =? BACKSLASH then [BACKSLASH; BACKSLASH]
  else if c =? QUOTE then [BACKSLASH; QUOTE]
  else if c =? 8 then [BACKSLASH; ord "b"]
  else if c =? 12 then [BACKSLASH; ord "f"]
  else if c =? 10 then [BACKSLASH; ord "n"]
  else if c =? 13 then [BACKSLASH; ord "r"]
  else if c =? 9 then [BACKSLASH; ord "t"]
  else if c <? 0x10000 then BACKSLASH :: ord "u" :: format_04x c
  else BACKSLASH :: ord "u" :: format_04x (high_surrogate_of c)
       ++ BACKSLASH :: ord "u" :: format_04x (low_surrogate_of c).

Definition encode_basestring_ascii (s : pystr) : pystr :=
  QUOTE :: flat_map escape_char s ++ [QUOTE].

(** The table [BACKSLASH] of the decoder. *)
Definition unescape (esc : char) : option char :=
  if esc =? QUOTE then Some QUOTE
  else if esc =? BACKSLASH then Some BACKSLASH
  else if esc =? ord "/" then Some (ord "/")
  else if esc =? ord "b" then Some 8
  else if esc =? ord "f" then Some 12
  else if esc =? ord "n" then Some 10
  else if esc =? ord "r" then Some 13
  else if esc =? ord "t" then Some 9
  else None.

(** What follows a [\uXXXX] escape that decoded to a high surrogate [uni]:
    when the text goes on with [\u], a second escape is decoded, and joined
    with the first when it is a low surrogate. *)
Definition after_high_surrogate {A} (uni : N) (r2 : pystr)
    (lone : A) (paired : N -> pystr -> A) (invalid : A) : A :=
  match r2 with
  | b :: u :: r3 =>
      if (b =? BACKSLASH) && (u =? ord "u") then
        match r3 with
        | g1 :: g2 :: g3 :: g4 :: r4 =>
            match decode_uXXXX g1 g2 g3 g4 with
            | Some uni2 =>
                if is_low_surrogate uni2
                then paired (join_surrogates uni uni2) r4
                else lone
            | None => invalid
            end
        | _ => invalid
        end
      else lone
  | _ => lone
  end.

(** [scanstring(s, end)] in strict mode, [s] being the text after the opening
    quote; [chunks] holds the decoded characters, last first.  Returns the
    string and the text after the closing quote. *)
Fixpoint scanstring (s : pystr) (chunks : pystr) : option (pystr * pystr) :=
  match s with
  | [] => None
  | c :: r =>
      if c =? QUOTE then Some (rev chunks, r)
      else if c =? BACKSLASH then
        match r with
        | [] => None
        | esc :: r1 =>
            if esc =? ord "u" then
              match r1 with
              | h1 :: h2 :: h3 :: h4 :: r2 =>
                  match decode_uXXXX h1 h2 h3 h4 with
                  | Some uni =>
                      if is_high_surrogate uni then
                        after_high_surrogate uni r2
                          (scanstring r2 (uni :: chunks))
                          (fun c' r4 => scanstring r4 (c' :: chunks))
                          None
                      else scanstring r2 (uni :: chunks)
                  | None => None
                  end
              | _ => None
              end
            else
              match unescape esc with
              | Some c' => scanstring r1 (c' :: chunks)
              | None => None
              end
        end
      else if c <=? 0x1f then None
      else scanstring r (c :: chunks)
  end.

(** Strings as the decoder produces them: code points of Unicode, and no high
    surrogate immediately followed by a low one (the decoder joins such a pair
    and the text it reads is decoded UTF-8, which has no surrogates). *)
Fixpoint wf_str (s : pystr) : bool :=
  match s with
  | [] => true
  | c :: s' =>
      (c <? 0x110000)
      && negb (is_high_surrogate c &&
               match s' with c2 :: _ => is_low_surrogate c2 | [] => false end)
      && wf_str s'
  end.

(** *** Well-formed text *)

(** A Unicode scalar value: a code point that is not a surrogate.  Text
    decoded from UTF-8 holds nothing else. *)
Definition scalar_value (c : char) : bool :=
  (c <? 0x110000) && negb ((0xd800 <=? c) && (c <=? 0xdfff)).

Definition text_ok (s : pystr) : bool := forallb scalar_value s.

(** [wf_str] read from the last character. *)
Fixpoint wf_rev (chunks : pystr) : bool :=
  match chunks with
  | [] => true
  | c :: rest =>
      (c <? 0x110000)
      && negb (is_low_surrogate c &&
               match rest with h :: _ => is_high_surrogate h | [] => false end)
      && wf_rev rest
  end.

(** After a lone high surrogate, the text does not go on with the escape of a
    low surrogate: the scanner would have joined the two. *)
Definition boundary (chunks s : pystr) : Prop :=
  match chunks with
  | h :: _ =>
      is_high_surrogate h = true ->
      after_high_surrogate h s True (fun _ _ => False) True
  | [] => True
  end.

End JsonString.

(* ------------------------------------------------------------------------- *)
(** ** JSON values and numbers *)
(* ------------------------------------------------------------------------- *)

Module JsonValue.
Import Py.

(** A [float]: not-a-number, an infinity, or a finite value given by its sign,
    the shortest digit string that identifies it and the position of the
    decimal point ([0.DIGITS * 10^decpt]), as [dtoa] returns them; zero has
    digits ["0"] and [decpt = 1]. *)
Inductive pyfloat :=
| FNaN
| FInf (neg : bool)
| FDec (neg : bool) (digits : pystr) (decpt : Z).

(** The values [json.loads] returns and [json.dumps] accepts in this program.
    A [dict] keeps its insertion order. *)
Inductive json :=
| JNull
| JBool (b : bool)
| JInt (z : Z)
| JFloat (f : pyfloat)
| JStr (s : pystr)
| JList (l : list json)
| JDict (d : list (pystr * json)).

Definition ZERO : char := 48%N.

Definition zeros (n : nat) : pystr := repeat ZERO n.

Fixpoint lstrip0 (s : pystr) : pystr :=
  match s with
  | c :: s' => if (c =? ZERO)%N then lstrip0 s' else s
  | [] => []
  end.

Definition rstrip0 (s : pystr) : pystr := rev (lstrip0 (rev s)).

(** ["%+.02d" % e]: the exponent with its sign and at least two digits. *)
Definition pad2 (ds : pystr) : pystr :=
  match ds with [_] => ZERO :: ds | _ => ds end.

Definition format_exp (e : Z) : pystr :=
  (if (e <? 0)%Z then ord "-" else ord "+")
    :: pad2 (chars_of_uint (N.to_uint (Z.abs_N e))).

(** The digits, decimal point and exponent that [format_float_short] writes
    for format code ['r']: exponent notation when [decpt <= -4] or
    [decpt > 16], and [.0] added to an integral value otherwise. *)
Definition format_float_short (digits : pystr) (decpt : Z) : pystr :=
  if ((decpt <=? -4) || (16 <? decpt))%Z then
    match digits with
    | [] => []
    | [d] => d :: ord "e" :: format_exp (decpt - 1)
    | d :: ds => d :: ord "." :: ds ++ ord "e" :: format_exp (decpt - 1)
    end
  else if (decpt <=? 0)%Z then
    ZERO :: ord "." :: zeros (Z.to_nat (- decpt)) ++ digits
  else if (decpt <? Z.of_nat (length digits))%Z then
    firstn (Z.to_nat decpt) digits ++ ord "." :: skipn (Z.to_nat decpt) digits
  else
    digits ++ zeros (Z.to_nat decpt - length digits) ++ [ord "."; ZERO].

(** [float.__repr__] *)
Definition float_repr (f : pyfloat) : pystr :=
  match f with
  | FNaN => py "nan"
  | FInf false => py "inf"
  | FInf true => py "-inf"
  | FDec neg digits decpt =>
      (if neg then [ord "-"] else []) ++ format_float_short digits decpt
  end.

(** [floatstr] of the encoder ([allow_nan] is true). *)
Definition floatstr (f : pyfloat) : pystr :=
  match f with
  | FNaN => py "NaN"
  | FInf false => py "Infinity"
  | FInf true => py "-Infinity"
  | FDec _ _ _ => float_repr f
  end.

(** [float(text)] for a literal matched by the number pattern, given by its
    parts: sign, integer digits, fraction digits and exponent. *)
Definition float_of_literal (neg : bool) (int frac : pystr) (exp : Z) : pyfloat :=
  let all := int ++ frac in
  let sig := lstrip0 all in
  match sig with
  | [] => FDec neg [ZERO] 1
  | _ :: _ =>
      FDec neg (rstrip0 sig)
           (Z.of_nat (length int) + exp - Z.of_nat (length all - length sig))
  end.

(** The longest prefix of ASCII digits. *)
Fixpoint span_digits (s : pystr) : pystr * pystr :=
  match s with
  | c :: s' =>
      if is_digit c then let (ds, r) := span_digits s' in (c :: ds, r)
      else ([], s)
  | [] => ([], [])
  end.

(** [0|[1-9][0-9]*] *)
Definition match_integer (s : pystr) : option (pystr * pystr) :=
  match s with
  | c :: r =>
      if (c =? ZERO)%N then Some ([c], r)
      else if is_digit c then let (ds, r') := span_digits r in Some (c :: ds, r')
      else None
  | [] => None
  end.

(** [(\.[0-9]+)?] *)
Definition match_frac (s : pystr) : option (pystr * pystr) :=
  match s with
  | c :: r =>
      if (c =? ord ".")%N then
        match span_digits r with
        | ([], _) => None
        | (ds, r') => Some (ds, r')
        end
      else None
  | [] => None
  end.

(** [([eE][-+]?[0-9]+)?], giving the value of the exponent. *)
Definition match_exp (s : pystr) : option (Z * pystr) :=
  match s with
  | c :: r =>
      if ((c =? ord "e") || (c =? ord "E"))%N then
        let '(neg, r1) :=
          match r with
          | sg :: r0 =>
              if (sg =? ord "-")%N then (true, r0)
              else if (sg =? ord "+")%N then (false, r0)
              else (false, r)
          | [] => (false, r)
          end in
        match span_digits r1 with
        | ([], _) => None
        | (ds, r') =>
            Some ((if neg then - int_of_digits ds else int_of_digits ds)%Z, r')
        end
      else None
  | [] => None
  end.

(** The number pattern after its optional sign, and the conversion of the
    matched text: [int] when neither fraction nor exponent is present, [float]
    otherwise. *)
Definition number_of_match (neg : bool) (s1 : pystr) : option (json * pystr) :=
  match match_integer s1 with
  | None => None
  | Some (int, s2) =>
      let '(frac, s3) :=
        match match_frac s2 with
        | Some (ds, r) => (Some ds, r)
        | None => (None, s2)
        end in
      let '(exp, s4) :=
        match match_exp s3 with
        | Some (e, r) => (Some e, r)
        | None => (None, s3)
        end in
      match frac, exp with
      | None, None =>
          Some (JInt (if neg then - int_of_digits int else int_of_digits int)%Z, s4)
      | _, _ =>
          Some (JFloat (float_of_literal neg int
                          (match frac with Some ds => ds | None => [] end)
                          (match exp with Some e => e | None => 0%Z end)), s4)
      end
  end.

(** [match_number] of the scanner: an optional minus sign, the integer part,
    an optional fraction and an optional exponent. *)
Definition match_number (s : pystr) : option (json * pystr) :=
  match s with
  | c :: r => if (c =? ord "-")%N then number_of_match true r
              else number_of_match false s
  | [] => None
  end.

(** *** Notions used in the proofs *)

(** The text after a value written by the encoder: the end, or a separator or
    closing bracket; in particular nothing that could extend a number. *)
Definition delim (rest : pystr) : bool :=
  match rest with
  | [] => true
  | c :: _ => negb (is_digit c) && negb (c =? ord ".")%N
              && negb (c =? ord "e")%N && negb (c =? ord "E")%N
  end.

Definition lead_nonzero (s : pystr) : bool :=
  match s with
  | c :: _ => is_digit c && negb (c =? ZERO)%N
  | [] => false
  end.

(** Digit strings as [dtoa] returns them: ["0"] at position 1 for zero,
    otherwise digits that neither start nor end with ["0"]. *)
Definition wf_float (f : pyfloat) : bool :=
  match f with
  | FDec _ digits decpt =>
      forallb is_digit digits &&
      (str_eqb digits [ZERO] && (decpt =? 1)%Z
       || lead_nonzero digits && lead_nonzero (rev digits))
  | _ => true
  end.

End JsonValue.

(* ------------------------------------------------------------------------- *)
(** ** [json.dumps] and [json.loads] *)
(* ------------------------------------------------------------------------- *)

Module Json.
Import Py JsonString JsonValue.
Local Open Scope N_scope.

(** *** The encoder *)

(** [json.dumps(v)] with the default settings: [ensure_ascii], separators
    [", "] and [": "], no indentation, NaN and the infinities allowed. *)
Fixpoint dumps (v : json) : pystr :=
  match v with
  | JNull => py "null"
  | JBool true => py "true"
  | JBool false => py "false"
  | JInt z => int_repr z
  | JFloat f => floatstr f
  | JStr s => encode_basestring_ascii s
  | JList l => ord "[" :: join (py ", ") (map dumps l) ++ [ord "]"]
  | JDict d =>
      ord "{" :: join (py ", ")
                   (map (fun kv => let '(k, x) := kv in
                                   encode_basestring_ascii k ++ py ": " ++ dumps x) d)
              ++ [ord "}"]
  end.

(** [json.dumps(v, indent=n)]: one item per line, nested items indented by
    [n] more spaces, separators [","] and [": "]; [level] is the current
    nesting depth. *)
Definition newline_indent (n level : nat) : pystr := 10 :: repeat 32 (n * level).

Fixpoint dumps_indent (n level : nat) (v : json) : pystr :=
  match v with
  | JList [] => py "[]"
  | JList l =>
      ord "[" :: newline_indent n (S level)
        ++ join (ord "," :: newline_indent n (S level))
                (map (dumps_indent n (S level)) l)
        ++ newline_indent n level ++ [ord "]"]
  | JDict [] => py "{}"
  | JDict d =>
      ord "{" :: newline_indent n (S level)
        ++ join (ord "," :: newline_indent n (S level))
                (map (fun kv => let '(k, x) := kv in
                                encode_basestring_ascii k ++ py ": "
                                ++ dumps_indent n (S level) x) d)
        ++ newline_indent n level ++ [ord "}"]
  | _ => dumps v
  end.

(** *** The decoder *)

Definition is_ws (c : char) : bool :=
  (c =? 32) || (c =? 9) || (c =? 10) || (c =? 13).

(** [WHITESPACE.match(s, end).end()] *)
Fixpoint skip_ws (s : pystr) : pystr :=
  match s with
  | c :: r => if is_ws c then skip_ws r else s
  | [] => []
  end.

(** [d[k] = v] on a dictionary in insertion order: an existing key keeps its
    place and takes the new value. *)
Fixpoint dict_setitem (d : list (pystr * json)) (k : pystr) (v : json) :=
  match d with
  | [] => [(k, v)]
  | (k', v') :: d' =>
      if str_eqb k' k then (k', v) :: d' else (k', v') :: dict_setitem d' k v
  end.

(** [dict(pairs)] *)
Definition dict (pairs : list (pystr * json)) : list (pystr * json) :=
  fold_left (fun d kv => dict_setitem d (fst kv) (snd kv)) pairs [].

(** [_scan_once], [JSONArray] and [JSONObject].  The three functions call each
    other; [fuel] bounds the number of nested calls.  The text given to
    [array_items] starts at an item, the text given to [object_items] after the
    opening quote of a key; both carry the items read so far, last first. *)
Fixpoint scan_once (fuel : nat) (s : pystr) {struct fuel} : option (json * pystr) :=
  match fuel with
  | O => None
  | S n =>
      match s with
      | [] => None
      | c :: r =>
          if c =? QUOTE then
            match scanstring r [] with
            | Some (x, r') => Some (JStr x, r')
            | None => None
            end
          else if c =? ord "{" then
            match skip_ws r with
            | c1 :: r1 =>
                if c1 =? ord "}" then Some (JDict [], r1)
                else if c1 =? QUOTE then object_items n r1 []
                else None
            | [] => None
            end
          else if c =? ord "[" then
            match skip_ws r with
            | c1 :: r1 =>
                if c1 =? ord "]" then Some (JList [], r1)
                else array_items n (c1 :: r1) []
            | [] => None
            end
          else
            match strip_prefix (py "null") s with
            | Some r' => Some (JNull, r')
            | None =>
            match strip_prefix (py "true") s with
            | Some r' => Some (JBool true, r')
            | None =>
            match strip_prefix (py "false") s with
            | Some r' => Some (JBool false, r')
            | None =>
            match match_number s with
            | Some res => Some res
            | None =>
            match strip_prefix (py "NaN") s with
            | Some r' => Some (JFloat FNaN, r')
            | None =>
            match strip_prefix (py "Infinity") s with
            | Some r' => Some (JFloat (FInf false), r')
            | None =>
            match strip_prefix (py "-Infinity") s with
            | Some r' => Some (JFloat (FInf true), r')
            | None => None
            end end end end end end end
      end
  end

with array_items (fuel : nat) (s : pystr) (values : list json) {struct fuel}
  : option (json * pystr) :=
  match fuel with
  | O => None
  | S n =>
      match scan_once n s with
      | None => None
      | Some (value, r) =>
          match skip_ws r with
          | c :: r1 =>
              if c =? ord "]" then Some (JList (rev (value :: values)), r1)
              else if c =? ord "," then array_items n (skip_ws r1) (value :: values)
              else None
          | [] => None
          end
      end
  end

with object_items (fuel : nat) (s : pystr) (pairs : list (pystr * json))
  {struct fuel} : option (json * pystr) :=
  match fuel with
  | O => None
  | S n =>
      match scanstring s [] with
      | None => None
      | Some (key, r) =>
          match skip_ws r with
          | c :: r1 =>
              if c =? ord ":" then
                match scan_once n (skip_ws r1) with
                | None => None
                | Some (value, r2) =>
                    match skip_ws r2 with
                    | c2 :: r3 =>
                        if c2 =? ord "}" then
                          Some (JDict (dict (rev ((key, value) :: pairs))), r3)
                        else if c2 =? ord "," then
                          match skip_ws r3 with
                          | q :: r4 =>
                              if q =? QUOTE
                              then object_items n r4 ((key, value) :: pairs)
                              else None
                          | [] => None
                          end
                        else None
                    | [] => None
                    end
                end
              else None
          | [] => None
          end
      end
  end.

(** [json.loads(s)]: one value, with whitespace allowed around it and nothing
    else after it; [None] stands for [JSONDecodeError]. *)
Definition loads (s : pystr) : option json :=
  match scan_once (S (length s)) (skip_ws s) with
  | Some (v, r) => match skip_ws r with [] => Some v | _ :: _ => None end
  | None => None
  end.

(** *** Well-formed values *)

Fixpoint nodup_keys (ks : list pystr) : bool :=
  match ks with
  | [] => true
  | k :: ks' => negb (existsb (str_eqb k) ks') && nodup_keys ks'
  end.

(** The invariants of the values the program holds: strings and floats as in
    [wf_str] and [wf_float], and dictionaries without repeated keys. *)
Fixpoint wf_json (v : json) : bool :=
  match v with
  | JFloat f => wf_float f
  | JStr s => wf_str s
  | JList l => forallb wf_json l
  | JDict d =>
      nodup_keys (map fst d)
      && forallb (fun kv => let '(k, x) := kv in wf_str k && wf_json x) d
  | _ => true
  end.

(** Induction on values, with the hypothesis available for every member of a
    list and every value of a dictionary. *)
Section JsonInd.
Variable P : json -> Prop.
Hypothesis Hnull : P JNull.
Hypothesis Hbool : forall b, P (JBool b).
Hypothesis Hint : forall z, P (JInt z).
Hypothesis Hfloat : forall f, P (JFloat f).
Hypothesis Hstr : forall s, P (JStr s).
Hypothesis Hlist : forall l, Forall P l -> P (JList l).
Hypothesis Hdict : forall d, Forall (fun kv => P (snd kv)) d -> P (JDict d).

Fixpoint json_rect' (v : json) : P v :=
  match v with
  | JNull => Hnull
  | JBool b => Hbool b
  | JInt z => Hint z
  | JFloat f => Hfloat f
  | JStr s => Hstr s
  | JList l =>
      Hlist ((fix go (l : list json) : Forall P l :=
                match l with
                | [] => Forall_nil _
                | x :: l' => Forall_cons x (json_rect' x) (go l')
                end) l)
  | JDict d =>
      Hdict ((fix go (d : list (pystr * json)) : Forall (fun kv => P (snd kv)) d :=
                match d with
                | [] => Forall_nil _
                | kv :: d' =>
                    Forall_cons kv
                      (match kv return P (snd kv) with (k, x) => json_rect' x end)
                      (go d')
                end) d)
  end.
End JsonInd.

(** *** Notions used in the proofs *)

(** The first character of an encoded value. *)
Definition head_digit (s : pystr) : Prop :=
  match s with c :: _ => is_digit c = true | [] => False end.

Definition value_start (s : pystr) : Prop :=
  match s with
  | c :: _ => is_ws c = false /\ (c =? ord "]") = false
  | [] => False
  end.

(** The nesting of calls that reading a value takes: one call for each item
    of a sequence and the calls the item takes itself. *)
Definition need {A} (w : A -> nat) (l : list A) : nat :=
  fold_right (fun a acc => S (Nat.max (w a) acc)) 0%nat l.

Fixpoint weight (v : json) : nat :=
  match v with
  | JList l => S (need weight l)
  | JDict d => S (need (fun kv => weight (snd kv)) d)
  | _ => 1
  end.

(** What the main statement says of one value. *)
Definition reads_back (v : json) : Prop :=
  wf_json v = true -> forall fuel rest,
  (weight v <= fuel)%nat -> delim rest = true ->
  scan_once fuel (dumps v ++ rest) = Some (v, rest).

(** The text of one item of a dictionary and of a sequence of items, after
    the opening quote of the first key. *)
Definition item_tail (k : pystr) (x : json) : pystr :=
  flat_map escape_char k ++ QUOTE :: py ": " ++ dumps x.

Fixpoint items_tail (d : list (pystr * json)) (tl : pystr) : pystr :=
  match d with
  | [] => tl
  | [(k, x)] => item_tail k x ++ tl
  | (k, x) :: d' => item_tail k x ++ py ", " ++ QUOTE :: items_tail d' tl
  end.

(** A call that succeeds succeeds with any fuel that is at least the number of
    characters it reads. *)
Definition enough (s : pystr) (run : nat -> option (json * pystr))
    (res : option (json * pystr)) : Prop :=
  forall v r, res = Some (v, r) ->
  (length r < length s)%nat /\
  forall f', (length s - length r <= f')%nat -> run f' = Some (v, r).

(** A well-formed item of a dictionary. *)
Definition item_ok (kv : pystr * json) : bool :=
  let '(k, x) := kv in wf_str k && wf_json x.

End Json.

(* ------------------------------------------------------------------------- *)
(** ** The runtime: bytes, exceptions, connections, output *)
(* ------------------------------------------------------------------------- *)

Module Runtime.
Import Py JsonString JsonValue Json.

(** *** [bytes.decode("utf-8")] *)

Definition is_continuation (b : byte) : bool :=
  ((0x80 <=? Byte.to_N b) && (Byte.to_N b <=? 0xBF))%N.

Definition low6 (b : byte) : N := N.land (Byte.to_N b) 0x3f.

(** The strict decoder: [None] stands for [UnicodeDecodeError], raised on a
    stray or missing continuation byte, an overlong form, a surrogate, or a
    code point beyond U+10FFFF. *)
Fixpoint decode_utf8 (bs : list byte) : option pystr :=
  match bs with
  | [] => Some []
  | b0 :: r =>
      let n0 := Byte.to_N b0 in
      if (n0 <? 0x80)%N then option_map (cons n0) (decode_utf8 r)
      else if (n0 <? 0xC2)%N then None
      else if (n0 <? 0xE0)%N then
        match r with
        | b1 :: r' =>
            if is_continuation b1 then
              option_map (cons (N.lor (N.shiftl (N.land n0 0x1f) 6) (low6 b1)))
                         (decode_utf8 r')
            else None
        | _ => None
        end
      else if (n0 <? 0xF0)%N then
        match r with
        | b1 :: b2 :: r' =>
            let cp := N.lor (N.shiftl (N.land n0 0x0f) 12)
                            (N.lor (N.shiftl (low6 b1) 6) (low6 b2)) in
            if is_continuation b1 && is_continuation b2
               && (0x800 <=? cp)%N && negb ((0xD800 <=? cp) && (cp <=? 0xDFFF))%N
            then option_map (cons cp) (decode_utf8 r')
            else None
        | _ => None
        end
      else if (n0 <? 0xF5)%N then
        match r with
        | b1 :: b2 :: b3 :: r' =>
            let cp := N.lor (N.shiftl (N.land n0 0x07) 18)
                            (N.lor (N.shiftl (low6 b1) 12)
                                   (N.lor (N.shiftl (low6 b2) 6) (low6 b3))) in
            if is_continuation b1 && is_continuation b2 && is_continuation b3
               && (0x10000 <=? cp)%N && (cp <=? 0x10FFFF)%N
            then option_map (cons cp) (decode_utf8 r')
            else None
        | _ => None
        end
      else None
  end.

(** The bytes of an ASCII text. *)
Definition ascii_bytes (s : pystr) : list byte :=
  map (fun c => match Byte.of_N c with Some b => b | None => x00 end) s.

(** *** Exceptions and results *)

Inductive exn :=
| OSError              (* connection-level faults of [http.client], file faults *)
| UnicodeDecodeError
| JSONDecodeError
| AttributeError
| TypeError
| KeyError.

Inductive result (A : Type) :=
| Return (a : A)
| Raise (e : exn).
Arguments Return {A} a.
Arguments Raise {A} e.

(** *** The world outside the process *)

Record request := {
  req_method : pystr;
  req_path : pystr;
  req_body : option pystr;
  req_headers : list (pystr * pystr)
}.

(** What becomes of a request: sending it fails, no response arrives, the
    response arrives but reading its body fails, or status and body arrive. *)
Inductive outcome :=
| SendFails (e : exn)
| ResponseFails (e : exn)
| ReadFails (status : Z) (e : exn)
| Responds (status : Z) (body : list byte).

(** [urlparse(API_URL)] *)
Record url := { scheme : pystr; netloc : pystr }.

(** The configuration read at start and the environment the process runs in:
    the server behind [API_URL] and the files.  [files] gives the text of a
    file that opens and decodes in the encoding of the locale; for any other
    path, [read_error] is the exception that [open] or [read] raises (an
    [OSError] for a file that is missing or not permitted, a
    [UnicodeDecodeError] for one whose bytes do not decode). *)
Record env := {
  API_URL : pystr;
  API_URL_parsed : url;
  API_KEY : pystr;
  server : request -> outcome;
  files : pystr -> option pystr;
  read_error : pystr -> exn
}.

Inductive event :=
| Connect (conn : nat) (tls : bool) (host : pystr)
| Request (conn : nat) (r : request)
| Close (conn : nat).

(** A piece of a printed line: literal text, or [str(v)] of a value. *)
Inductive piece :=
| Lit (s : pystr)
| Fmt (v : json).

(** The state of a run: the network events so far, the connections that are
    open with the outcome of the request sent on each, and the lines printed;
    the latest event and line come last. *)
Record world := {
  trace : list event;
  next_conn : nat;
  open_conns : list nat;
  inflight : list (nat * outcome);
  stdout : list (list piece)
}.

Definition initial : world :=
  {| trace := []; next_conn := 0; open_conns := []; inflight := []; stdout := [] |}.

(** *** Computations *)

Definition M (A : Type) : Type := env -> world -> result A * world.

Definition ret {A} (a : A) : M A := fun _ w => (Return a, w).

Definition bind {A B} (m : M A) (k : A -> M B) : M B :=
  fun E w =>
    match m E w with
    | (Return a, w') => k a E w'
    | (Raise e, w') => (Raise e, w')
    end.

Definition raise {A} (e : exn) : M A := fun _ w => (Raise e, w).

Definition ask : M env := fun E w => (Return E, w).

(** [try: body finally: cleanup] *)
Definition try_finally {A} (body : M A) (cleanup : M unit) : M A :=
  fun E w =>
    let '(r, w1) := body E w in
    match cleanup E w1 with
    | (Return _, w2) => (r, w2)
    | (Raise e, w2) => (Raise e, w2)
    end.

(** [try: body except: handler] with a bare [except] *)
Definition try_except {A} (body handler : M A) : M A :=
  fun E w =>
    match body E w with
    | (Return a, w') => (Return a, w')
    | (Raise _, w') => handler E w'
    end.

Declare Scope monad_scope.
Delimit Scope monad_scope with monad.
Notation "x <- m ;; k" := (bind m (fun x => k))
  (at level 61, m at next level, right associativity) : monad_scope.
Notation "' pat <- m ;; k" := (bind m (fun x => match x with pat => k end))
  (at level 61, pat pattern, m at next level, right associativity) : monad_scope.
Notation "m ;; k" := (bind m (fun _ => k))
  (at level 61, right associativity) : monad_scope.
Local Open Scope monad_scope.

Definition emit (e : event) : M unit :=
  fun _ w => (Return tt,
              {| trace := trace w ++ [e]; next_conn := next_conn w;
                 open_conns := open_conns w; inflight := inflight w;
                 stdout := stdout w |}).

(** [print(...)] *)
Definition print (line : list piece) : M unit :=
  fun _ w => (Return tt,
              {| trace := trace w; next_conn := next_conn w;
                 open_conns := open_conns w; inflight := inflight w;
                 stdout := stdout w ++ [line] |}).

(** [for x in xs: body x] *)
Fixpoint for_each {A} (xs : list A) (body : A -> M unit) : M unit :=
  match xs with
  | [] => ret tt
  | x :: xs' => body x ;; for_each xs' body
  end.

(** *** Connections *)

(** [HTTPSConnection(host, context=...)] / [HTTPConnection(host)] *)
Definition new_connection (tls : bool) (host : pystr) : M nat :=
  fun _ w =>
    let c := next_conn w in
    (Return c,
     {| trace := trace w ++ [Connect c tls host]; next_conn := S c;
        open_conns := c :: open_conns w; inflight := inflight w;
        stdout := stdout w |}).

(** [conn.request(method, path, body=..., headers=...)] *)
Definition conn_request (conn : nat) (method path : pystr) (body : option pystr)
    (headers : list (pystr * pystr)) : M unit :=
  fun E w =>
    let r := {| req_method := method; req_path := path;
                req_body := body; req_headers := headers |} in
    let w' := {| trace := trace w ++ [Request conn r]; next_conn := next_conn w;
                 open_conns := open_conns w;
                 inflight := (conn, server E r) :: inflight w;
                 stdout := stdout w |} in
    match server E r with
    | SendFails e => (Raise e, w')
    | _ => (Return tt, w')
    end.

(** A response object: its status and what [read()] gives. *)
Record response := { status : Z; content : result (list byte) }.

Fixpoint lookup_conn (conn : nat) (l : list (nat * outcome)) : option outcome :=
  match l with
  | [] => None
  | (c, o) :: l' => if Nat.eqb c conn then Some o else lookup_conn conn l'
  end.

(** [conn.getresponse()] *)
Definition conn_getresponse (conn : nat) : M response :=
  fun _ w =>
    match lookup_conn conn (inflight w) with
    | Some (Responds st body) => (Return {| status := st; content := Return body |}, w)
    | Some (ReadFails st e) => (Return {| status := st; content := Raise e |}, w)
    | Some (ResponseFails e) => (Raise e, w)
    | Some (SendFails e) => (Raise e, w)
    | None => (Raise OSError, w)
    end.

(** [response.read()] *)
Definition response_read (r : response) : M (list byte) :=
  match content r with
  | Return body => ret body
  | Raise e => raise e
  end.

(** [conn.close()] *)
Definition conn_close (conn : nat) : M unit :=
  fun _ w =>
    (Return tt,
     {| trace := trace w ++ [Close conn]; next_conn := next_conn w;
        open_conns := filter (fun c => negb (Nat.eqb c conn)) (open_conns w);
        inflight := inflight w; stdout := stdout w |}).

(** [data.decode("utf-8")] *)
Definition decode (data : list byte) : M pystr :=
  match decode_utf8 data with
  | Some text => ret text
  | None => raise UnicodeDecodeError
  end.

(** [json.loads(data)] *)
Definition json_loads (data : pystr) : M json :=
  match loads data with
  | Some v => ret v
  | None => raise JSONDecodeError
  end.

(** *** Operations on values *)

(** Truth value of an object, as [if body] takes it. *)
Definition truthy (v : json) : bool :=
  match v with
  | JNull => false
  | JBool b => b
  | JInt z => negb (z =? 0)%Z
  | JFloat (FDec _ digits _) => negb (str_eqb digits [ZERO])
  | JFloat _ => true
  | JStr s => match s with [] => false | _ => true end
  | JList l => match l with [] => false | _ => true end
  | JDict d => match d with [] => false | _ => true end
  end.

(** Truth value of an optional command-line string ([None] or [str]). *)
Definition given (o : option pystr) : bool :=
  match o with
  | Some (_ :: _) => true
  | _ => false
  end.

(** [len(v)] *)
Definition py_len (v : json) : M Z :=
  match v with
  | JStr s => ret (Z.of_nat (length s))
  | JList l => ret (Z.of_nat (length l))
  | JDict d => ret (Z.of_nat (length d))
  | _ => raise TypeError
  end.

Fixpoint dict_lookup (d : list (pystr * json)) (k : pystr) : option json :=
  match d with
  | [] => None
  | (k', v) :: d' => if str_eqb k' k then Some v else dict_lookup d' k
  end.

(** [v.get(key, default)]: only a [dict] has the method. *)
Definition py_get (v : json) (key : pystr) (default : json) : M json :=
  match v with
  | JDict d => ret (match dict_lookup d key with Some x => x | None => default end)
  | _ => raise AttributeError
  end.

(** The items [for model in v] goes through. *)
Definition py_iter (v : json) : M (list json) :=
  match v with
  | JList l => ret l
  | JDict d => ret (map (fun kv => JStr (fst kv)) d)
  | JStr s => ret (map (fun c => JStr [c]) s)
  | _ => raise TypeError
  end.

End Runtime.

(* ------------------------------------------------------------------------- *)
(** ** The program *)
(* ------------------------------------------------------------------------- *)

Module Router.
Import Py JsonString JsonValue Json Runtime.
Local Open Scope monad_scope.
Local Open Scope string_scope.

(** *** Configuration *)

Definition EMBEDDING_MODEL : pystr := py "mistral/mistral-embed".

(** *** Preset configurations *)

(** A [float] literal of the source. *)
Definition float_literal (s : string) : pyfloat :=
  match match_number (py s) with
  | Some (JFloat f, _) => f
  | _ => FNaN
  end.

(** One route of a preset, a dictionary with the keys [name], [description],
    [utterances] and [score_threshold] in this order. *)
Definition route (name description : string) (utterances : list string)
    (score_threshold : string) : json :=
  JDict [ (py "name", JStr (py name));
          (py "description", JStr (py description));
          (py "utterances", JList (map (fun u => JStr (py u)) utterances));
          (py "score_threshold", JFloat (float_literal score_threshold)) ].

Record preset := { default_model : pystr; routes : json }.

Definition PRESETS : list (pystr * preset) :=
  [ (py "coding",
     {| default_model := py "mistral/codestral-2508";
        routes := JList
          [ route "mistral/codestral-2508"
                  "Primary: Code generation (256K ctx), FIM, 80+ languages"
                  [ "write function"; "implement algorithm"; "code this";
                    "create class"; "build API"; "develop feature";
                    "program this"; "write code"; "implement in";
                    "code solution"; "create code" ]
                  "0.30";
            route "mistral/devstral-medium-2507"
                  "Agentic coding (61.6% SWE-Bench), multi-file"
                  [ "fix bug"; "debug"; "find error"; "troubleshoot";
                    "why doesn't work"; "fix code"; "solve issue"; "diagnose";
                    "trace error" ]
                  "0.35";
            route "groq/openai/gpt-oss-120b"
                  "120B GPT, code reasoning, ~500 tok/s"
                  [ "explain code"; "how does this work"; "code review";
                    "analyze code"; "what does this do"; "understand code";
                    "review implementation" ]
                  "0.40" ] |});
    (py "reasoning",
     {| default_model := py "groq/llama-3.3-70b-versatile";
        routes := JList
          [ route "groq/llama-3.3-70b-versatile"
                  "70B Llama-3.3, ~280 tok/s, 131K ctx"
                  [ "analyze"; "think about"; "reason"; "evaluate"; "consider";
                    "analysis"; "logical"; "think carefully" ]
                  "0.30";
            route "groq/deepseek-r1-distill-llama-70b"
                  "DeepSeek R1, 94.5% MATH-500"
                  [ "solve mathematically"; "calculate"; "prove"; "math problem";
                    "equation"; "theorem"; "compute"; "work out" ]
                  "0.35";
            route "gemini/gemini-2.5-flash"
                  "Gemini 2.5, 1M ctx, multimodal"
                  [ "complex problem"; "multi-step"; "detailed reasoning";
                    "comprehensive analysis"; "in-depth"; "deep dive" ]
                  "0.40" ] |});
    (py "quick",
     {| default_model := py "groq/llama-3.1-8b-instant";
        routes := JList
          [ route "groq/llama-3.1-8b-instant"
                  "8B Llama, ultra-fast, simple queries"
                  [ "what is"; "define"; "who is"; "when was"; "where is";
                    "quick"; "simple"; "briefly"; "short answer" ]
                  "0.25";
            route "gemini/gemini-2.5-flash-lite"
                  "Flash Lite, ~392 tok/s, low cost"
                  [ "translate"; "convert"; "transform"; "change to";
                    "in another language" ]
                  "0.30";
            route "mistral/open-mistral-7b"
                  "Open Mistral 7B, lightweight"
                  [ "summarize"; "tldr"; "key points"; "main idea"; "gist";
                    "sum up" ]
                  "0.30" ] |});
    (py "creative",
     {| default_model := py "groq/moonshotai/kimi-k2-instruct";
        routes := JList
          [ route "groq/moonshotai/kimi-k2-instruct"
                  "Kimi K2, 32B MoE, storytelling"
                  [ "write story"; "tell story"; "narrative"; "fiction"; "novel";
                    "short story"; "tale"; "once upon a time" ]
                  "0.30";
            route "groq/moonshotai/kimi-k2-instruct-0905"
                  "Kimi K2 updated, enhanced creative"
                  [ "poem"; "poetry"; "verse"; "rhyme"; "compose poem"; "haiku";
                    "sonnet" ]
                  "0.35";
            route "mistral/open-mistral-nemo"
                  "Mistral Nemo 12B, multilingual"
                  [ "email"; "letter"; "message"; "draft"; "formal letter";
                    "business email"; "professional message" ]
                  "0.35" ] |}) ].

Fixpoint presets_lookup (l : list (pystr * preset)) (k : pystr) : option preset :=
  match l with
  | [] => None
  | (k', p) :: l' => if str_eqb k' k then Some p else presets_lookup l' k
  end.

(** *** API functions *)

(** [create_connection()] *)
Definition create_connection : M nat :=
  E <- ask ;;
  let parsed := API_URL_parsed E in
  if str_eqb (scheme parsed) (py "https")
  then new_connection true (netloc parsed)
  else new_connection false (netloc parsed).

(** [api_request(method, path, body)], returning [(status, response_dict)]. *)
Definition api_request (method path : pystr) (body : option json)
  : M (Z * json) :=
  E <- ask ;;
  let headers :=
    [ (py "Authorization", (py "Bearer " ++ API_KEY E)%list);
      (py "Content-Type", py "application/json") ] in
  conn <- create_connection ;;
  try_finally
    (conn_request conn method path
       (match body with
        | Some b => if truthy b then Some (dumps b) else None
        | None => None
        end)
       headers ;;
     response <- conn_getresponse conn ;;
     raw <- response_read response ;;
     data <- decode raw ;;
     try_except
       (v <- json_loads data ;; ret (status response, v))
       (ret (status response, JDict [(py "raw", JStr data)])))
    (conn_close conn).

(** The request body [create_router] builds. *)
Definition payload (name : pystr) (routes : json) (default_model : pystr) : json :=
  JDict
    [ (py "model_name", JStr name);
      (py "litellm_params",
       JDict [ (py "model", JStr (py "auto_router/" ++ name)%list);
               (py "auto_router_config",
                JStr (dumps (JDict [(py "routes", routes)])));
               (py "auto_router_default_model", JStr default_model);
               (py "auto_router_embedding_model", JStr EMBEDDING_MODEL) ]);
      (py "model_info", JDict [(py "health_check", JBool false)]) ].

Definition CHECK_MARK : char := 0x2705%N.
Definition CROSS_MARK : char := 0x274C%N.
Definition BULLET : char := 0x2022%N.
Definition NEWLINE : char := 10%N.

Definition rule : piece := Lit (str_mul (py "=") 60).

(** [create_router(name, routes, default_model)] *)
Definition create_router (name : pystr) (routes : json) (default_model : pystr)
  : M bool :=
  print [Lit [NEWLINE]; rule] ;;
  print [Lit (py "Creating router: "); Lit name] ;;
  print [Lit (py "Default model: "); Lit default_model] ;;
  n <- py_len routes ;;
  print [Lit (py "Number of routes: "); Lit (int_repr n)] ;;
  print [rule] ;;
  ' (st, response) <- api_request (py "POST") (py "/model/new")
                        (Some (payload name routes default_model)) ;;
  if (st =? 200)%Z then
    print [Lit (CHECK_MARK :: py " Router '"); Lit name;
           Lit (py "' created successfully!")] ;;
    model_id <- py_get response (py "model_id") (JStr (py "N/A")) ;;
    print [Lit (py "   Model ID: "); Fmt model_id] ;;
    ret true
  else
    print [Lit (CROSS_MARK :: py " Failed to create router")] ;;
    print [Lit (py "   Status: "); Lit (int_repr st)] ;;
    print [Lit (py "   Error: "); Lit (firstn 500 (dumps_indent 2 0 response))] ;;
    ret false.

(** [list_models()] *)
Definition list_models : M unit :=
  E <- ask ;;
  print [Lit (NEWLINE :: py "Fetching models from "); Lit (API_URL E); Lit (py "...")] ;;
  ' (st, response) <- api_request (py "GET") (py "/model/info") None ;;
  if (st =? 200)%Z then
    models <- py_get response (py "data") (JList []) ;;
    print [Lit [NEWLINE]; rule] ;;
    n <- py_len models ;;
    print [Lit (py "Found "); Lit (int_repr n); Lit (py " models")] ;;
    print [rule] ;;
    items <- py_iter models ;;
    for_each items (fun model =>
      model_name <- py_get model (py "model_name") (JStr (py "Unknown")) ;;
      model_info <- py_get model (py "model_info") (JDict []) ;;
      model_id <- py_get model_info (py "id") (JStr (py "N/A")) ;;
      litellm_params <- py_get model (py "litellm_params") (JDict []) ;;
      litellm_model <- py_get litellm_params (py "model") (JStr (py "N/A")) ;;
      print [Lit (NEWLINE :: py "  " ++ BULLET :: py " ")%list; Fmt model_name] ;;
      print [Lit (py "    ID: "); Fmt model_id] ;;
      print [Lit (py "    Model: "); Fmt litellm_model])
  else
    print [Lit (CROSS_MARK :: py " Failed to list models: "); Lit (int_repr st)] ;;
    print [Fmt response].

(** [delete_model(model_id)] *)
Definition delete_model (model_id : pystr) : M unit :=
  print [Lit (NEWLINE :: py "Deleting model: "); Lit model_id] ;;
  ' (st, response) <- api_request (py "POST") (py "/model/delete")
                        (Some (JDict [(py "id", JStr model_id)])) ;;
  if (st =? 200)%Z then
    print [Lit (CHECK_MARK :: py " Model deleted successfully!")]
  else
    print [Lit (CROSS_MARK :: py " Failed to delete model: "); Lit (int_repr st)] ;;
    print [Fmt response].

(** *** Command line *)

(** The namespace [parser.parse_args()] returns, by subcommand.  An option
    that was not given is [None]. *)
Inductive args :=
| Create (name : pystr) (preset routes default : option pystr)
| List
| Delete (model_id : pystr).

(** [with open(path) as f: json.load(f)]: the text is read, then parsed. *)
Definition load_json_file (path : pystr) : M json :=
  E <- ask ;;
  match files E path with
  | Some text => json_loads text
  | None => raise (read_error E path)
  end.

(** [main()], after the arguments are parsed. *)
Definition main (a : args) : M unit :=
  match a with
  | Create name preset routes default =>
      if given preset then
        match presets_lookup PRESETS (match preset with Some k => k | None => [] end) with
        | Some p => create_router name (Router.routes p) (default_model p) ;; ret tt
        | None => raise KeyError
        end
      else if given routes then
        if negb (given default) then
          print [Lit (CROSS_MARK :: py " --default is required when using --routes")]
        else
          rs <- load_json_file (match routes with Some f => f | None => [] end) ;;
          create_router name rs (match default with Some d => d | None => [] end) ;;
          ret tt
      else
        print [Lit (CROSS_MARK :: py " Either --preset or --routes is required")]
  | List => list_models
  | Delete model_id => delete_model model_id
  end.

End Router.

(* ------------------------------------------------------------------------- *)
(** ** The operations by the outcome of their exchange *)
(* ------------------------------------------------------------------------- *)

Module Client.
Import Py JsonString JsonValue Json Runtime Router.

(** The request [api_request] sends. *)
Definition request_of (E : env) (method path : pystr) (body : option json)
  : request :=
  {| req_method := method;
     req_path := path;
     req_body := match body with
                 | Some b => if truthy b then Some (dumps b) else None
                 | None => None
                 end;
     req_headers := [ (py "Authorization", py "Bearer " ++ API_KEY E);
                      (py "Content-Type", py "application/json") ] |}.

(** What [api_request] makes of the outcome of the exchange. *)
Definition api_result (o : outcome) : result (Z * json) :=
  match o with
  | SendFails e => Raise e
  | ResponseFails e => Raise e
  | ReadFails _ e => Raise e
  | Responds st body =>
      match decode_utf8 body with
      | None => Raise UnicodeDecodeError
      | Some text =>
          match loads text with
          | Some v => Return (st, v)
          | None => Return (st, JDict [(py "raw", JStr text)])
          end
      end
  end.

Definition uses_tls (E : env) : bool := str_eqb (scheme (API_URL_parsed E)) (py "https").

(** The world after one exchange on a fresh connection. *)
Definition after_exchange (E : env) (w : world) (r : request) : world :=
  let c := next_conn w in
  {| trace := trace w ++ [ Connect c (uses_tls E) (netloc (API_URL_parsed E));
                           Request c r; Close c ];
     next_conn := S c;
     open_conns := filter (fun c' => negb (Nat.eqb c' c)) (c :: open_conns w);
     inflight := (c, server E r) :: inflight w;
     stdout := stdout w |}.

(** The world after some more lines are printed. *)
Definition printed (w : world) (ls : list (list piece)) : world :=
  {| trace := trace w; next_conn := next_conn w; open_conns := open_conns w;
     inflight := inflight w; stdout := stdout w ++ ls |}.

(** The lines [create_router] prints before its request. *)
Definition created_lines (name default_model : pystr) (n : Z) : list (list piece) :=
  [ [Lit [NEWLINE]; rule];
    [Lit (py "Creating router: "); Lit name];
    [Lit (py "Default model: "); Lit default_model];
    [Lit (py "Number of routes: "); Lit (int_repr n)];
    [rule] ].

(** The length [len(routes)] gives, when [routes] has one. *)
Definition sized (v : json) : option Z :=
  match v with
  | JStr s => Some (Z.of_nat (length s))
  | JList l => Some (Z.of_nat (length l))
  | JDict d => Some (Z.of_nat (length d))
  | _ => None
  end.

End Client.

(* ------------------------------------------------------------------------- *)
(** ** Scenarios and vocabulary of the specification *)
(* ------------------------------------------------------------------------- *)

Module Scenarios.
Import Py JsonString JsonValue Json Runtime Router Client.

(** [v[k1][k2]...] on nested dictionaries. *)
Fixpoint getpath (v : json) (ks : list string) : option json :=
  match ks with
  | [] => Some v
  | k :: ks' =>
      match v with
      | JDict d =>
          match dict_lookup d (py k) with
          | Some x => getpath x ks'
          | None => None
          end
      | _ => None
      end
  end.

(** A gateway at the default address that answers every request with [o]. *)
Definition gateway (o : outcome) : env :=
  {| API_URL := py "https://ai.nirmaker.com";
     API_URL_parsed := {| scheme := py "https"; netloc := py "ai.nirmaker.com" |};
     API_KEY := py "dummy-key";
     server := fun _ => o;
     files := fun _ => None;
     read_error := fun _ => OSError |}.

(** The value of a finite float as a rational number. *)
Definition float_value (f : pyfloat) : option Q :=
  match f with
  | FDec neg digits decpt =>
      let m := inject_Z (int_of_digits digits) in
      let v := (m * Qpower (10 # 1) (decpt - Z.of_nat (length digits)))%Q in
      Some (if neg then Qopp v else v)
  | _ => None
  end.

(** The events of one exchange on a fresh connection. *)
Definition exchange (E : env) (w : world) (r : request) : list event :=
  [ Connect (next_conn w) (uses_tls E) (netloc (API_URL_parsed E));
    Request (next_conn w) r;
    Close (next_conn w) ].

(** The routes of the [coding] preset. *)
Definition coding_routes : list json :=
  match presets_lookup PRESETS (py "coding") with
  | Some {| routes := JList rs |} => rs
  | _ => []
  end.

(** A route whose [score_threshold] is a float between 0 and 1. *)
Definition threshold_in_unit_interval (route : json) : Prop :=
  exists f v,
    getpath route ["score_threshold"]%string = Some (JFloat f)
    /\ float_value f = Some v
    /\ (0 <= v)%Q /\ (v <= 1)%Q.

Definition preset_ok (p : preset) : Prop :=
  exists rs,
    routes p = JList rs
    /\ rs <> []
    /\ default_model p <> []
    /\ Forall threshold_in_unit_interval rs.

(** The two error lines of the dispatcher. *)
Definition usage_default : list piece :=
  [Lit (CROSS_MARK :: py " --default is required when using --routes")].
Definition usage_source : list piece :=
  [Lit (CROSS_MARK :: py " Either --preset or --routes is required")].

(** The payload of [create MyCoder --preset coding]. *)
Definition coding_payload : json :=
  payload (py "MyCoder") (JList coding_routes) (py "mistral/codestral-2508").

End Scenarios.

(* ------------------------------------------------------------------------- *)
(** ** Vocabulary for the indented rendering *)
(* ------------------------------------------------------------------------- *)

Module Indent.
Import Py JsonString JsonValue Json.
Local Open Scope N_scope.

(** What reading back an indented rendering says of one value. *)
Definition reads_back_indent (v : json) : Prop :=
  wf_json v = true -> forall n level fuel rest,
  (weight v <= fuel)%nat -> delim rest = true ->
  scan_once fuel (dumps_indent n level v ++ rest) = Some (v, rest).

(** The text of one item of an indented dictionary and of a sequence of
    items, after the opening quote of the first key. *)
Definition item_tail_indent (n level : nat) (k : pystr) (x : json) : pystr :=
  flat_map escape_char k ++ QUOTE :: py ": " ++ dumps_indent n level x.

Fixpoint items_tail_indent (n level : nat) (d : list (pystr * json)) (tl : pystr)
  : pystr :=
  match d with
  | [] => tl
  | [(k, x)] => item_tail_indent n level k x ++ tl
  | (k, x) :: d' =>
      item_tail_indent n level k x
      ++ ord "," :: newline_indent n level ++ QUOTE :: items_tail_indent n level d' tl
  end.

End Indent.

(* ------------------------------------------------------------------------- *)
(** ** Vocabulary for the listing, the dispatcher and the files *)
(* ------------------------------------------------------------------------- *)

Module Shapes.
Import Py JsonString JsonValue Json Runtime Router Client Scenarios.

(** [d.get(k, default)] on the items of a dictionary. *)
Definition get_or (d : list (pystr * json)) (k : string) (default : json) : json :=
  match dict_lookup d (py k) with Some x => x | None => default end.

(** What [list_models] reads of one model: its name, the [id] of its
    [model_info] and the [model] of its [litellm_params], each with its
    default; [None] when one of the [get] calls has no dictionary to work on. *)
Definition model_fields (model : json) : option (json * json * json) :=
  match model with
  | JDict m =>
      match get_or m "model_info" (JDict []), get_or m "litellm_params" (JDict []) with
      | JDict info, JDict params =>
          Some (get_or m "model_name" (JStr (py "Unknown")),
                get_or info "id" (JStr (py "N/A")),
                get_or params "model" (JStr (py "N/A")))
      | _, _ => None
      end
  | _ => None
  end.

(** The three lines printed for one model. *)
Definition model_lines (f : json * json * json) : list (list piece) :=
  let '(model_name, model_id, litellm_model) := f in
  [ [Lit (NEWLINE :: py "  " ++ BULLET :: py " "); Fmt model_name];
    [Lit (py "    ID: "); Fmt model_id];
    [Lit (py "    Model: "); Fmt litellm_model] ].

(** The first line of [list_models] and the three lines of its header. *)
Definition fetching (E : env) : list piece :=
  [Lit (NEWLINE :: py "Fetching models from "); Lit (API_URL E); Lit (py "...")].

Definition found_lines (n : Z) : list (list piece) :=
  [ [Lit [NEWLINE]; rule];
    [Lit (py "Found "); Lit (int_repr n); Lit (py " models")];
    [rule] ].

(** The loop over the models: the lines printed, and how it ends. *)
Fixpoint models_listing (items : list json) : result unit * list (list piece) :=
  match items with
  | [] => (Return tt, [])
  | model :: rest =>
      match model_fields model with
      | None => (Raise AttributeError, [])
      | Some f =>
          let '(res, ls) := models_listing rest in (res, model_lines f ++ ls)
      end
  end.

(** A computation that only prints: it leaves the network alone. *)
Definition quiet {A} (m : M A) : Prop :=
  forall E w, exists ls, snd (m E w) = printed w ls.

(** The environment with other files. *)
Definition with_files (E : env) (f : pystr -> option pystr) : env :=
  {| API_URL := API_URL E; API_URL_parsed := API_URL_parsed E;
     API_KEY := API_KEY E; server := server E; files := f;
     read_error := read_error E |}.

(** A computation that does not depend on the files. *)
Definition file_blind {A} (m : M A) : Prop :=
  forall E f w, m (with_files E f) w = m E w.

(** The invocations that open the routes file: [create] without a preset,
    with a routes file and a default model. *)
Definition reads_routes_file (a : args) : bool :=
  match a with
  | Create _ preset routes default =>
      negb (given preset) && given routes && given default
  | _ => false
  end.

(** The three calls of the admin API the script makes. *)
Definition admin_endpoint (r : request) : bool :=
  str_eqb (req_method r) (py "POST") && str_eqb (req_path r) (py "/model/new")
  || str_eqb (req_method r) (py "GET") && str_eqb (req_path r) (py "/model/info")
  || str_eqb (req_method r) (py "POST") && str_eqb (req_path r) (py "/model/delete").

(** A gateway that answers [o], run where no file can be read: [open] or
    [read] raises [e]. *)
Definition gateway_unreadable (o : outcome) (e : exn) : env :=
  {| API_URL := API_URL (gateway o); API_URL_parsed := API_URL_parsed (gateway o);
     API_KEY := API_KEY (gateway o); server := server (gateway o);
     files := fun _ => None; read_error := fun _ => e |}.

(** A gateway that answers [o], run where the file [routes.json] holds
    [text]. *)
Definition gateway_with_routes_file (o : outcome) (text : pystr) : env :=
  with_files (gateway o)
    (fun path => if str_eqb path (py "routes.json") then Some text else None).

End Shapes.

(* ------------------------------------------------------------------------- *)
(** ** Facts about text and digits *)
(* ------------------------------------------------------------------------- *)

Module PyFacts.
Import Py.
Local Open Scope N_scope.

Lemma str_eqb_spec a b : reflect (a = b) (str_eqb a b).
Proof.
  revert b; induction a as [|x a IH]; intros [|y b]; simpl;
    try (constructor; congruence).
  destruct (N.eqb_spec x y) as [->|Hxy]; simpl.
  - destruct (IH b) as [->|Hab]; constructor; congruence.
  - constructor; congruence.
Qed.

Lemma str_eqb_refl a : str_eqb a a = true.
Proof. destruct (str_eqb_spec a a); congruence. Qed.

Lemma strip_prefix_app p s : strip_prefix p (p ++ s) = Some s.
Proof.
  induction p as [|x p IH]; simpl; [reflexivity|].
  now rewrite N.eqb_refl.
Qed.

Lemma uint_of_chars_of_uint u : uint_of_chars (chars_of_uint u) = u.
Proof. induction u; simpl; congruence. Qed.

Lemma chars_of_uint_digits u : forallb is_digit (chars_of_uint u) = true.
Proof. induction u; simpl; auto. Qed.

Lemma int_of_digits_repr_pos (p : positive) :
  int_of_digits (chars_of_uint (Pos.to_uint p)) = Z.pos p.
Proof.
  unfold int_of_digits. rewrite uint_of_chars_of_uint.
  change (Pos.to_uint p) with (N.to_uint (N.pos p)).
  now rewrite DecimalN.Unsigned.of_to.
Qed.

Lemma all_from_spec k : forall i f, all_from k i f = true ->
  forall j, i <= j -> j < i + N.of_nat k -> f j = true.
Proof.
  induction k as [|k IH]; intros i f H j Hij Hj; [lia|].
  simpl in H. destruct (f i) eqn:Hi; [|discriminate]. rename H into Hk.
  destruct (N.eq_dec i j) as [<-|Hne]; [assumption|].
  apply (IH (N.succ i) f Hk); lia.
Qed.

Lemma decode_format_04x n : n < 0x10000 ->
  decode_uXXXX (hexdigit (N.land (N.shiftr n 12) 15))
               (hexdigit (N.land (N.shiftr n 8) 15))
               (hexdigit (N.land (N.shiftr n 4) 15))
               (hexdigit (N.land n 15)) = Some n.
Proof.
  intro Hn.
  assert (H : all_from (N.to_nat 0x10000) 0 hex_round_trip = true)
    by (vm_compute; reflexivity).
  pose proof (@all_from_spec _ _ _ H n) as Hs.
  unfold hex_round_trip in Hs.
  destruct (decode_uXXXX _ _ _ _) as [m|].
  - f_equal. apply N.eqb_eq. apply Hs; lia.
  - discriminate Hs; lia.
Qed.

Lemma lor_add_low h l k : l < 2 ^ k -> N.lor (h * 2 ^ k) l = h * 2 ^ k + l.
Proof.
  intro Hl.
  assert (Hz : N.land (h * 2 ^ k) l = 0).
  { apply N.bits_inj; intro m. rewrite N.land_spec, N.bits_0.
    destruct (N.lt_ge_cases m k) as [Hm|Hm].
    - now rewrite N.mul_pow2_bits_low.
    - rewrite <- (N.mod_small l (2 ^ k)) by assumption.
      rewrite N.mod_pow2_bits_high by assumption. apply andb_false_r. }
  now rewrite (N.add_nocarry_lxor _ _ Hz), (N.lxor_lor _ _ Hz).
Qed.

Lemma high_surrogate_of_eq c : 0x10000 <= c -> c < 0x110000 ->
  high_surrogate_of c = 0xd800 + (c - 0x10000) / 1024.
Proof.
  intros Hlo Hhi. unfold high_surrogate_of.
  change 0x3ff with (N.ones 10). rewrite N.land_ones, N.shiftr_div_pow2.
  change (2 ^ 10) with 1024.
  assert (Hq : (c - 0x10000) / 1024 < 1024)
    by (apply N.Div0.div_lt_upper_bound; lia).
  rewrite (N.mod_small _ _ Hq).
  change 0xd800 with (54 * 2 ^ 10). now apply lor_add_low.
Qed.

Lemma low_surrogate_of_eq c :
  low_surrogate_of c = 0xdc00 + (c - 0x10000) mod 1024.
Proof.
  unfold low_surrogate_of.
  change 0x3ff with (N.ones 10). rewrite N.land_ones.
  change 0xdc00 with (55 * 2 ^ 10). apply lor_add_low.
  apply N.mod_lt. discriminate.
Qed.

Lemma surrogates_join c : 0x10000 <= c -> c < 0x110000 ->
  is_high_surrogate (high_surrogate_of c) = true /\
  is_low_surrogate (low_surrogate_of c) = true /\
  join_surrogates (high_surrogate_of c) (low_surrogate_of c) = c.
Proof.
  intros Hlo Hhi.
  rewrite (high_surrogate_of_eq Hlo Hhi), low_surrogate_of_eq.
  set (n := c - 0x10000).
  assert (Hq : n / 1024 < 1024)
    by (apply N.Div0.div_lt_upper_bound; subst n; lia).
  assert (Hr : n mod 1024 < 1024) by (apply N.mod_lt; discriminate).
  pose proof (N.div_mod n 1024 ltac:(discriminate)) as Hdm.
  unfold is_high_surrogate, is_low_surrogate, join_surrogates.
  set (q := n / 1024) in *. set (r := n mod 1024) in *.
  repeat split.
  - apply andb_true_iff; split; apply N.leb_le; clearbody q r; lia.
  - apply andb_true_iff; split; apply N.leb_le; clearbody q r; lia.
  - replace (0xd800 + q - 0xd800) with q by lia.
    replace (0xdc00 + r - 0xdc00) with r by lia.
    rewrite N.shiftl_mul_pow2. rewrite (@lor_add_low q r 10) by exact Hr.
    change (2 ^ 10) with 1024. clearbody q r. subst n. lia.
Qed.

End PyFacts.

(* ------------------------------------------------------------------------- *)
(** ** Facts about JSON strings *)
(* ------------------------------------------------------------------------- *)

Module JsonStringFacts.
Import Py JsonString PyFacts.
Local Open Scope N_scope.

Lemma format_04x_decode n t : n < 0x10000 ->
  exists h1 h2 h3 h4, format_04x n ++ t = h1 :: h2 :: h3 :: h4 :: t /\
                      decode_uXXXX h1 h2 h3 h4 = Some n.
Proof.
  intro Hn. unfold format_04x. do 4 eexists. split; [reflexivity|].
  now apply decode_format_04x.
Qed.

Lemma high_surrogate_of_lt c : 0x10000 <= c -> c < 0x110000 ->
  high_surrogate_of c < 0x10000.
Proof.
  intros Hlo Hhi. destruct (surrogates_join Hlo Hhi) as (H & _ & _).
  unfold is_high_surrogate in H. apply andb_true_iff in H as [_ H].
  apply N.leb_le in H. lia.
Qed.

Lemma low_surrogate_of_lt c : 0x10000 <= c -> c < 0x110000 ->
  low_surrogate_of c < 0x10000.
Proof.
  intros Hlo Hhi. destruct (surrogates_join Hlo Hhi) as (_ & H & _).
  unfold is_low_surrogate in H. apply andb_true_iff in H as [_ H].
  apply N.leb_le in H. lia.
Qed.

Lemma high_not_low c : is_high_surrogate c = true -> is_low_surrogate c = false.
Proof.
  unfold is_high_surrogate, is_low_surrogate. intro H.
  apply andb_true_iff in H as [_ H]. apply N.leb_le in H.
  apply andb_false_iff. left. apply N.leb_gt. lia.
Qed.

(** The escape of a character that is not a low surrogate never reads as the
    second half of a surrogate pair. *)
Lemma after_high_escape_char A uni c t (lone : A) paired invalid :
  c < 0x110000 -> is_low_surrogate c = false ->
  after_high_surrogate uni (escape_char c ++ t) lone paired invalid = lone.
Proof.
  intros Hc Hlow. unfold escape_char.
  destruct ((32 <=? c) && (c <=? 126) && negb (c =? BACKSLASH) && negb (c =? QUOTE))
    eqn:Hplain.
  { apply andb_true_iff in Hplain as [Hplain _].
    apply andb_true_iff in Hplain as [_ Hb]. apply negb_true_iff in Hb.
    simpl. destruct t; [reflexivity|]. now rewrite Hb. }
  repeat match goal with
         | |- context [if ?c =? ?k then _ else _] =>
             destruct (c =? k); [reflexivity|]
         end.
  destruct (N.ltb_spec c 0x10000) as [Hbmp|Hastral].
  - destruct (format_04x_decode t Hbmp) as (h1 & h2 & h3 & h4 & E & D).
    rewrite <- !app_comm_cons. rewrite E. simpl. now rewrite D, Hlow.
  - pose proof (high_surrogate_of_lt Hastral Hc) as Hh.
    destruct (surrogates_join Hastral Hc) as (Hhigh & _ & _).
    rewrite <- app_comm_cons. rewrite <- app_comm_cons. rewrite <- app_assoc.
    destruct (format_04x_decode
                ((BACKSLASH :: ord "u" :: format_04x (low_surrogate_of c)) ++ t) Hh)
      as (h1 & h2 & h3 & h4 & E & D).
    rewrite E. simpl. now rewrite D, (high_not_low _ Hhigh).
Qed.

Lemma after_high_end A uni rest (lone : A) paired invalid :
  after_high_surrogate uni (QUOTE :: rest) lone paired invalid = lone.
Proof. destruct rest; reflexivity. Qed.

(** One step of the scanner, by the kind of character it meets. *)
Lemma scanstring_plain c r chunks :
  (c =? QUOTE) = false -> (c =? BACKSLASH) = false -> (c <=? 0x1f) = false ->
  scanstring (c :: r) chunks = scanstring r (c :: chunks).
Proof. intros H1 H2 H3. cbn [scanstring]. now rewrite H1, H2, H3. Qed.

Lemma scanstring_unescape esc c' r chunks :
  (esc =? ord "u") = false -> unescape esc = Some c' ->
  scanstring (BACKSLASH :: esc :: r) chunks = scanstring r (c' :: chunks).
Proof.
  intros H1 H2. cbn [scanstring].
  change (BACKSLASH =? QUOTE) with false.
  change (BACKSLASH =? BACKSLASH) with true. cbv iota.
  now rewrite H1, H2.
Qed.

Lemma scanstring_u h1 h2 h3 h4 uni r2 chunks :
  decode_uXXXX h1 h2 h3 h4 = Some uni ->
  scanstring (BACKSLASH :: ord "u" :: h1 :: h2 :: h3 :: h4 :: r2) chunks
  = if is_high_surrogate uni
    then after_high_surrogate uni r2 (scanstring r2 (uni :: chunks))
           (fun c' r4 => scanstring r4 (c' :: chunks)) None
    else scanstring r2 (uni :: chunks).
Proof.
  intros H1. cbn [scanstring].
  change (BACKSLASH =? QUOTE) with false.
  change (BACKSLASH =? BACKSLASH) with true.
  change (ord "u" =? ord "u") with true. cbv iota.
  now rewrite H1.
Qed.

Lemma scanstring_quote r chunks : scanstring (QUOTE :: r) chunks = Some (rev chunks, r).
Proof. reflexivity. Qed.

(** Scanning what the encoder wrote gives the string back. *)
Lemma scanstring_escape s : forall chunks rest,
  wf_str s = true ->
  scanstring (flat_map escape_char s ++ QUOTE :: rest) chunks
  = Some (rev chunks ++ s, rest).
Proof.
  induction s as [|c s IH]; intros chunks rest Hwf.
  - cbn [flat_map app]. rewrite scanstring_quote. now rewrite app_nil_r.
  - cbn [wf_str] in Hwf. apply andb_true_iff in Hwf as [Hwf Hs].
    apply andb_true_iff in Hwf as [Hc Hpair].
    apply N.ltb_lt in Hc. apply negb_true_iff in Hpair.
    assert (Hnext : forall A (lone : A) paired invalid,
               is_high_surrogate c = true ->
               after_high_surrogate c (flat_map escape_char s ++ QUOTE :: rest)
                 lone paired invalid = lone).
    { intros A lone paired invalid Hhigh. rewrite Hhigh in Hpair.
      cbn [andb] in Hpair.
      destruct s as [|c2 s']; [apply after_high_end|].
      cbn [flat_map]. rewrite <- app_assoc. apply after_high_escape_char; auto.
      cbn [wf_str] in Hs. apply andb_true_iff in Hs as [Hs _].
      apply andb_true_iff in Hs as [Hs _]. now apply N.ltb_lt in Hs. }
    assert (Hres : forall x, Some (rev (x :: chunks) ++ s, rest)
                             = Some (rev chunks ++ x :: s, rest)).
    { intro x. cbn [rev]. now rewrite <- app_assoc. }
    change (flat_map escape_char (c :: s)) with (escape_char c ++ flat_map escape_char s).
    rewrite <- app_assoc.
    assert (Htl : forall x, scanstring (flat_map escape_char s ++ QUOTE :: rest)
                              (x :: chunks) = Some (rev chunks ++ x :: s, rest)).
    { intro x. rewrite IH by assumption. apply Hres. }
    clear IH Hres. revert Hnext Htl.
    generalize (flat_map escape_char s ++ QUOTE :: rest). intros tl Hnext Htl.
    unfold escape_char.
    destruct ((32 <=? c) && (c <=? 126) && negb (c =? BACKSLASH) && negb (c =? QUOTE))
      eqn:Hplain.
    { apply andb_true_iff in Hplain as [Hplain Hq].
      apply andb_true_iff in Hplain as [Hplain Hb].
      apply andb_true_iff in Hplain as [Hlo _].
      apply negb_true_iff in Hb, Hq. apply N.leb_le in Hlo.
      cbn [app]. rewrite scanstring_plain; auto.
      apply N.leb_gt; lia. }
    repeat match goal with
           | |- context [if ?c =? ?k then _ else _] =>
               destruct (N.eqb_spec c k);
               [subst c; cbn [app];
                erewrite scanstring_unescape by reflexivity; apply Htl|]
           end.
    destruct (N.ltb_spec c 0x10000) as [Hbmp|Hastral].
    + destruct (format_04x_decode tl Hbmp) as (h1 & h2 & h3 & h4 & E & D).
      rewrite <- !app_comm_cons. rewrite E.
      rewrite (scanstring_u _ _ _ _ _ _ D).
      destruct (is_high_surrogate c) eqn:Hhigh.
      * rewrite Hnext by reflexivity. apply Htl.
      * apply Htl.
    + pose proof (high_surrogate_of_lt Hastral Hc) as Hh.
      pose proof (low_surrogate_of_lt Hastral Hc) as Hl.
      destruct (surrogates_join Hastral Hc) as (Hhigh & Hlow & Hjoin).
      rewrite <- !app_comm_cons. rewrite <- app_assoc.
      destruct (format_04x_decode
                  ((BACKSLASH :: ord "u" :: format_04x (low_surrogate_of c)) ++ tl) Hh)
        as (h1 & h2 & h3 & h4 & E & D).
      rewrite E. clear E.
      rewrite <- !app_comm_cons.
      destruct (format_04x_decode tl Hl) as (g1 & g2 & g3 & g4 & E & D2).
      rewrite E. clear E. rewrite (scanstring_u _ _ _ _ _ _ D), Hhigh.
      unfold after_high_surrogate.
      change ((BACKSLASH =? BACKSLASH) && (ord "u" =? ord "u")) with true.
      cbv iota. rewrite D2, Hlow, Hjoin. apply Htl.
Qed.

Lemma scanstring_encode s rest : wf_str s = true ->
  match encode_basestring_ascii s ++ rest with
  | q :: t => (q =? QUOTE) = true /\ scanstring t [] = Some (s, rest)
  | [] => False
  end.
Proof.
  intro Hwf. unfold encode_basestring_ascii. cbn [app]. split; [reflexivity|].
  rewrite <- app_assoc. cbn [app]. now rewrite scanstring_escape.
Qed.

Lemma wf_str_snoc l c :
  wf_str (l ++ [c])
  = wf_str l && (c <? 0x110000)
    && negb (match rev l with h :: _ => is_high_surrogate h | [] => false end
             && is_low_surrogate c).
Proof.
  induction l as [|a l IH].
  - cbn [app wf_str rev].
    destruct (c <? 0x110000), (is_high_surrogate c), (is_low_surrogate c); reflexivity.
  - cbn [app wf_str]. rewrite IH. clear IH.
    assert (Hhd : match rev (a :: l) with h :: _ => is_high_surrogate h | [] => false end
                  = match l with
                    | [] => is_high_surrogate a
                    | _ => match rev l with h :: _ => is_high_surrogate h | [] => false end
                    end).
    { destruct l as [|b l']; [reflexivity|]. cbn [rev].
      destruct (rev l' ++ [b]) eqn:E; [now destruct (rev l')|reflexivity]. }
    rewrite Hhd. destruct l as [|b l']; cbn [app rev].
    + cbn [wf_str].
      destruct (a <? 0x110000), (c <? 0x110000), (is_high_surrogate a),
        (is_low_surrogate c); reflexivity.
    + destruct (a <? 0x110000), (is_high_surrogate a), (is_low_surrogate b),
        (wf_str (b :: l')), (c <? 0x110000); reflexivity.
Qed.

Lemma wf_str_rev chunks : wf_rev chunks = true -> wf_str (rev chunks) = true.
Proof.
  induction chunks as [|c rest IH]; [reflexivity|]. cbn [wf_rev rev].
  intro H. apply andb_true_iff in H as [H Hrest].
  apply andb_true_iff in H as [Hc Hpair].
  rewrite wf_str_snoc, rev_involutive, IH, Hc by assumption. cbn [andb].
  now rewrite andb_comm.
Qed.

Lemma hexval_lt c d : hexval c = Some d -> d < 16.
Proof.
  unfold hexval, is_digit. intro H.
  repeat match type of H with
         | (if ?b then _ else _) = _ => destruct b eqn:?
         end; inversion H; subst;
    repeat match goal with
           | E : _ && _ = true |- _ => apply andb_true_iff in E as [? ?]
           | E : (_ <=? _) = true |- _ => apply N.leb_le in E
           end; lia.
Qed.

Lemma decode_uXXXX_lt h1 h2 h3 h4 uni :
  decode_uXXXX h1 h2 h3 h4 = Some uni -> uni < 0x10000.
Proof.
  unfold decode_uXXXX.
  destruct (hexval h1) as [a|] eqn:Ha; [|discriminate].
  destruct (hexval h2) as [b|] eqn:Hb; [|discriminate].
  destruct (hexval h3) as [c|] eqn:Hc; [|discriminate].
  destruct (hexval h4) as [d|] eqn:Hd; [|discriminate].
  apply hexval_lt in Ha, Hb, Hc, Hd. intro H; inversion H; subst. clear H.
  rewrite !N.shiftl_mul_pow2.
  rewrite (@lor_add_low a b 4) by exact Hb.
  rewrite (@lor_add_low _ c 4) by exact Hc.
  rewrite (@lor_add_low _ d 4) by exact Hd.
  change (2 ^ 4) with 16. lia.
Qed.

Lemma join_surrogates_range uni uni2 :
  is_high_surrogate uni = true -> is_low_surrogate uni2 = true ->
  0x10000 <= join_surrogates uni uni2 < 0x110000.
Proof.
  unfold is_high_surrogate, is_low_surrogate, join_surrogates. intros H1 H2.
  apply andb_true_iff in H1 as [H1 H1']. apply andb_true_iff in H2 as [H2 H2'].
  apply N.leb_le in H1, H1', H2, H2'.
  rewrite N.shiftl_mul_pow2, lor_add_low by (change (2 ^ 10) with 1024; lia).
  change (2 ^ 10) with 1024. lia.
Qed.

Lemma scalar_value_facts c : scalar_value c = true ->
  c < 0x110000 /\ is_high_surrogate c = false /\ is_low_surrogate c = false.
Proof.
  unfold scalar_value, is_high_surrogate, is_low_surrogate. intro H.
  apply andb_true_iff in H as [H1 H2]. apply N.ltb_lt in H1.
  apply negb_true_iff in H2. apply andb_false_iff in H2.
  repeat split; [assumption| |]; apply andb_false_iff;
    destruct H2 as [H2|H2]; apply N.leb_gt in H2;
    ((left; apply N.leb_gt; lia) || (right; apply N.leb_gt; lia)).
Qed.

Lemma wf_rev_cons c chunks :
  c < 0x110000 ->
  is_low_surrogate c = false \/
  match chunks with h :: _ => is_high_surrogate h = false | [] => True end ->
  wf_rev chunks = true -> wf_rev (c :: chunks) = true.
Proof.
  intros Hc Hpair Hw. cbn [wf_rev]. rewrite Hw, andb_true_r.
  apply N.ltb_lt in Hc. rewrite Hc. cbn [andb]. apply negb_true_iff.
  destruct Hpair as [->|Hh]; [reflexivity|].
  destruct chunks; [apply andb_false_r|]. rewrite Hh. apply andb_false_r.
Qed.

Lemma boundary_not_high c chunks s :
  is_high_surrogate c = false -> boundary (c :: chunks) s.
Proof. intros H H'. congruence. Qed.

Lemma unescape_facts esc c :
  unescape esc = Some c ->
  c < 0x110000 /\ is_high_surrogate c = false /\ is_low_surrogate c = false.
Proof.
  unfold unescape. intro H.
  repeat match type of H with
         | (if ?b then _ else _) = _ => destruct b
         end; inversion H; subst; repeat split; reflexivity.
Qed.

Lemma scanstring_wf : forall n s chunks x r,
  (length s <= n)%nat -> text_ok s = true ->
  wf_rev chunks = true -> boundary chunks s ->
  scanstring s chunks = Some (x, r) ->
  wf_str x = true /\ text_ok r = true.
Proof.
  induction n as [|n IH]; intros s chunks x r Hn Ht Hw Hb H.
  { destruct s; [discriminate|cbn in Hn; lia]. }
  destruct s as [|c t]; [discriminate|]. cbn [length] in Hn.
  cbn [text_ok forallb] in Ht. apply andb_true_iff in Ht as [Hc Ht].
  fold (text_ok t) in Ht.
  cbn [scanstring] in H.
  destruct (c =? QUOTE) eqn:Eq.
  { inversion H; subst. split; [now apply wf_str_rev|assumption]. }
  destruct (N.eqb_spec c BACKSLASH) as [->|Hnb].
  2:{ destruct (c <=? 31); [discriminate|].
      destruct (scalar_value_facts _ Hc) as (Hlt & Hnh & Hnl).
      apply (IH t (c :: chunks) x r); auto; [lia| |].
      - apply wf_rev_cons; auto.
      - now apply boundary_not_high. }
  destruct t as [|esc r1]; [discriminate|].
  cbn [text_ok forallb] in Ht. apply andb_true_iff in Ht as [_ Ht].
  fold (text_ok r1) in Ht.
  destruct (N.eqb_spec esc (ord "u")) as [->|Hnu].
  2:{ destruct (unescape esc) as [c'|] eqn:Eu; [|discriminate].
      destruct (unescape_facts _ Eu) as (Hlt & Hnh & Hnl).
      apply (IH r1 (c' :: chunks) x r); auto; [cbn [length] in *; lia| |].
      - apply wf_rev_cons; auto.
      - now apply boundary_not_high. }
  destruct r1 as [|h1 [|h2 [|h3 [|h4 r2]]]]; try discriminate.
  assert (Ht2 : text_ok r2 = true).
  { cbn [text_ok forallb] in Ht.
    repeat (apply andb_true_iff in Ht as [_ Ht]). exact Ht. }
  assert (Hlen2 : (length r2 <= n)%nat) by (cbn [length] in *; lia).
  destruct (decode_uXXXX h1 h2 h3 h4) as [uni|] eqn:Ed; [|discriminate].
  pose proof (decode_uXXXX_lt _ _ _ _ Ed) as Huni.
  assert (Hprev : is_low_surrogate uni = false \/
                  match chunks with h :: _ => is_high_surrogate h = false | [] => True end).
  { destruct chunks as [|h rest]; [now right|].
    destruct (is_high_surrogate h) eqn:Eh; [|now right].
    left. specialize (Hb Eh). unfold after_high_surrogate in Hb.
    change ((BACKSLASH =? BACKSLASH) && (ord "u" =? ord "u")) with true in Hb.
    cbv iota in Hb. rewrite Ed in Hb.
    now destruct (is_low_surrogate uni). }
  assert (Hwu : wf_rev (uni :: chunks) = true).
  { apply wf_rev_cons; auto. lia. }
  destruct (is_high_surrogate uni) eqn:Eh.
  2:{ apply (IH r2 (uni :: chunks) x r); auto.
      now apply boundary_not_high. }
  unfold after_high_surrogate in H.
  assert (Hlone : boundary (uni :: chunks) r2 ->
                  scanstring r2 (uni :: chunks) = Some (x, r) ->
                  wf_str x = true /\ text_ok r = true).
  { intros Hb' H'. now apply (IH r2 (uni :: chunks) x r). }
  destruct r2 as [|b [|u r3]]; try (apply Hlone; [intros _; exact I|exact H]).
  destruct ((b =? BACKSLASH) && (u =? ord "u")) eqn:Ebu.
  2:{ apply Hlone; [|exact H]. intros _. unfold after_high_surrogate.
      now rewrite Ebu. }
  destruct r3 as [|g1 [|g2 [|g3 [|g4 r4]]]]; try discriminate.
  destruct (decode_uXXXX g1 g2 g3 g4) as [uni2|] eqn:Ed2; [|discriminate].
  destruct (is_low_surrogate uni2) eqn:El.
  - pose proof (join_surrogates_range _ _ Eh El) as Hj.
    assert (Hnh : is_high_surrogate (join_surrogates uni uni2) = false).
    { unfold is_high_surrogate. apply andb_false_iff. right. apply N.leb_gt. lia. }
    assert (Hnl : is_low_surrogate (join_surrogates uni uni2) = false).
    { unfold is_low_surrogate. apply andb_false_iff. right. apply N.leb_gt. lia. }
    apply (IH r4 (join_surrogates uni uni2 :: chunks) x r); auto.
    + cbn [length] in *. lia.
    + cbn [text_ok forallb] in Ht2.
      repeat (apply andb_true_iff in Ht2 as [_ Ht2]). exact Ht2.
    + apply wf_rev_cons; auto. lia.
    + now apply boundary_not_high.
  - apply Hlone; [|exact H]. intros _. unfold after_high_surrogate.
    now rewrite Ebu, Ed2, El.
Qed.

End JsonStringFacts.

(* ------------------------------------------------------------------------- *)
(** ** Facts about JSON numbers *)
(* ------------------------------------------------------------------------- *)

Module JsonValueFacts.
Import Py JsonValue PyFacts.

Ltac bool_facts :=
  repeat match goal with
         | H : _ && _ = true |- _ => apply andb_true_iff in H as [? ?]
         | H : negb _ = true |- _ => apply negb_true_iff in H
         | H : (_ <=? _)%N = true |- _ => apply N.leb_le in H
         | H : (_ =? _)%N = true |- _ => apply N.eqb_eq in H
         | H : (_ =? _)%N = false |- _ => apply N.eqb_neq in H
         end.

Lemma is_digit_range c : is_digit c = true -> (48 <= c <= 57)%N.
Proof. unfold is_digit. intro H. bool_facts. lia. Qed.

Lemma delim_no_digit rest :
  delim rest = true -> match rest with c :: _ => is_digit c = false | [] => True end.
Proof. destruct rest as [|c r]; simpl; [trivial|]. intro H. now bool_facts. Qed.

Lemma span_digits_app ds rest :
  forallb is_digit ds = true ->
  match rest with c :: _ => is_digit c = false | [] => True end ->
  span_digits (ds ++ rest) = (ds, rest).
Proof.
  intros Hds Hrest. induction ds as [|d ds IH]; simpl in *.
  - destruct rest as [|c r]; [reflexivity|]. simpl. now rewrite Hrest.
  - apply andb_true_iff in Hds as [Hd Hds]. now rewrite Hd, IH.
Qed.

Lemma match_integer_digits ds rest :
  lead_nonzero ds = true -> forallb is_digit ds = true ->
  match rest with c :: _ => is_digit c = false | [] => True end ->
  match_integer (ds ++ rest) = Some (ds, rest).
Proof.
  destruct ds as [|d ds]; [discriminate|]. cbn [lead_nonzero forallb app].
  intros Hd Hds Hrest. unfold match_integer.
  apply andb_true_iff in Hd as [Hd Hz]. apply negb_true_iff in Hz.
  apply andb_true_iff in Hds as [_ Hds].
  now rewrite Hz, Hd, span_digits_app.
Qed.

Lemma match_frac_delim rest : delim rest = true -> match_frac rest = None.
Proof.
  destruct rest as [|c r]; [reflexivity|]. cbn [delim match_frac]. intro H.
  bool_facts. apply N.eqb_neq in H2. now rewrite H2.
Qed.

Lemma match_exp_delim rest : delim rest = true -> match_exp rest = None.
Proof.
  destruct rest as [|c r]; [reflexivity|]. cbn [delim match_exp]. intro H.
  bool_facts. apply N.eqb_neq in H0, H1. now rewrite H0, H1.
Qed.

Lemma match_frac_digits ds rest :
  ds <> [] -> forallb is_digit ds = true ->
  match rest with c :: _ => is_digit c = false | [] => True end ->
  match_frac (ord "." :: ds ++ rest) = Some (ds, rest).
Proof.
  intros Hne Hds Hrest. unfold match_frac.
  change (ord "." =? ord ".")%N with true. cbv iota.
  rewrite span_digits_app by assumption. now destruct ds.
Qed.

Lemma N_of_uint_digits_pad (n : N) :
  int_of_digits (chars_of_uint (N.to_uint n)) = Z.of_N n /\
  int_of_digits (ZERO :: chars_of_uint (N.to_uint n)) = Z.of_N n.
Proof.
  unfold int_of_digits. cbn [uint_of_chars]. unfold ZERO.
  rewrite uint_of_chars_of_uint.
  change (N.of_uint (Decimal.D0 (N.to_uint n))) with (N.of_uint (N.to_uint n)).
  now rewrite DecimalN.Unsigned.of_to.
Qed.

Lemma N_to_uint_nonnil n : chars_of_uint (N.to_uint n) <> [].
Proof.
  destruct n as [|p]; [discriminate|]. cbn [N.to_uint].
  pose proof (DecimalPos.Unsigned.to_uint_nonnil p) as H.
  destruct (Pos.to_uint p); try discriminate. congruence.
Qed.

Lemma match_exp_format e rest :
  match rest with c :: _ => is_digit c = false | [] => True end ->
  match_exp (ord "e" :: format_exp e ++ rest) = Some (e, rest).
Proof.
  intro Hrest. unfold match_exp, format_exp.
  change ((ord "e" =? ord "e") || (ord "e" =? ord "E"))%N with true.
  cbv iota.
  set (ds := chars_of_uint (N.to_uint (Z.abs_N e))).
  set (padded := pad2 ds).
  assert (Hdig : forallb is_digit padded = true).
  { subst padded. unfold pad2.
    pose proof (chars_of_uint_digits (N.to_uint (Z.abs_N e))) as H.
    fold ds in H. destruct ds as [|? [|? ?]]; auto. }
  assert (Hne : padded <> []).
  { subst padded. unfold pad2.
    pose proof (@N_to_uint_nonnil (Z.abs_N e)) as H. fold ds in H.
    destruct ds as [|? [|? ?]]; congruence. }
  assert (Hval : int_of_digits padded = Z.of_N (Z.abs_N e)).
  { subst padded. unfold pad2.
    destruct (N_of_uint_digits_pad (Z.abs_N e)) as [H1 H2].
    fold ds in H1, H2. destruct ds as [|? [|? ?]]; auto. }
  clearbody padded. clear ds.
  destruct (Z.ltb_spec e 0) as [Hneg|Hpos]; cbn [app].
  - change (ord "-" =? ord "-")%N with true. cbv iota.
    rewrite span_digits_app by assumption.
    destruct padded; [congruence|]. cbv beta iota. rewrite Hval. do 2 f_equal. lia.
  - change (ord "+" =? ord "-")%N with false.
    change (ord "+" =? ord "+")%N with true. cbv iota.
    rewrite span_digits_app by assumption.
    destruct padded; [congruence|]. cbv beta iota. rewrite Hval. do 2 f_equal. lia.
Qed.

Lemma pos_to_uint_lead p :
  lead_nonzero (chars_of_uint (Pos.to_uint p)) = true.
Proof.
  pose proof (DecimalN.Unsigned.to_of (Pos.to_uint p)) as H.
  change (N.of_uint (Pos.to_uint p)) with (Pos.of_uint (Pos.to_uint p)) in H.
  rewrite DecimalPos.Unsigned.of_to in H. cbn [N.to_uint] in H.
  pose proof (DecimalPos.Unsigned.to_uint_nonzero p) as Hnz.
  pose proof (DecimalFacts.nzhead_nonzero (Pos.to_uint p)) as Hhd.
  unfold Decimal.unorm in H.
  destruct (Decimal.nzhead (Pos.to_uint p)) eqn:E;
    try (rewrite H; reflexivity).
  - congruence.
  - exfalso. eapply Hhd. reflexivity.
Qed.

Lemma match_number_signed (neg : bool) t rest :
  match t with c :: _ => is_digit c = true | [] => False end ->
  match_number ((if neg then [ord "-"] else []) ++ t ++ rest)
  = number_of_match neg (t ++ rest).
Proof.
  destruct t as [|c t]; [contradiction|]. intro Hc.
  destruct neg; cbn [app]; [reflexivity|].
  unfold match_number. apply is_digit_range in Hc.
  replace (c =? ord "-")%N with false; [reflexivity|].
  symmetry; apply N.eqb_neq; unfold ord; simpl; lia.
Qed.

Lemma lead_nonzero_digit t :
  lead_nonzero t = true -> match t with c :: _ => is_digit c = true | [] => False end.
Proof. destruct t; [discriminate|]. cbn. intro H. now bool_facts. Qed.

Lemma number_of_match_int neg ds rest :
  delim rest = true ->
  match_integer (ds ++ rest) = Some (ds, rest) ->
  number_of_match neg (ds ++ rest)
  = Some (JInt (if neg then - int_of_digits ds else int_of_digits ds)%Z, rest).
Proof.
  intros Hrest Hint. unfold number_of_match. rewrite Hint.
  now rewrite match_frac_delim, match_exp_delim by assumption.
Qed.

Lemma match_number_int z rest : delim rest = true ->
  match_number (int_repr z ++ rest) = Some (JInt z, rest).
Proof.
  intro Hrest. pose proof (delim_no_digit _ Hrest) as Hnd.
  assert (Hpos : forall p (neg : bool),
     match_number ((if neg then [ord "-"] else []) ++
                   chars_of_uint (Pos.to_uint p) ++ rest)
     = Some (JInt (if neg then Z.neg p else Z.pos p), rest)).
  { intros p neg. pose proof (pos_to_uint_lead p) as Hlead.
    pose proof (chars_of_uint_digits (Pos.to_uint p)) as Hdig.
    rewrite match_number_signed by now apply lead_nonzero_digit.
    rewrite number_of_match_int; auto using match_integer_digits.
    rewrite (int_of_digits_repr_pos p). now destruct neg. }
  unfold int_repr. destruct z as [|p|p]; cbn [Z.to_int].
  - change (match_number (([] : pystr) ++ [ZERO] ++ rest) = Some (JInt 0, rest)).
    rewrite (@match_number_signed false [ZERO] rest eq_refl).
    now rewrite number_of_match_int.
  - apply (Hpos p false).
  - rewrite <- (Hpos p true). reflexivity.
Qed.

Lemma lstrip0_lead s : lead_nonzero s = true -> lstrip0 s = s.
Proof.
  destruct s as [|c s]; [reflexivity|]. cbn. intro H.
  apply andb_true_iff in H as [_ H]. apply negb_true_iff in H. now rewrite H.
Qed.

Lemma lstrip0_zeros n s : lstrip0 (zeros n ++ s) = lstrip0 s.
Proof. induction n; [reflexivity|]. exact IHn. Qed.

Lemma rev_zeros n : rev (zeros n) = zeros n.
Proof.
  unfold zeros. induction n as [|n IH]; [reflexivity|].
  cbn [repeat rev]. rewrite IH. clear IH.
  induction n; cbn; [reflexivity|]. now f_equal.
Qed.

Lemma rstrip0_last s : lead_nonzero (rev s) = true -> rstrip0 s = s.
Proof.
  intro H. unfold rstrip0. rewrite lstrip0_lead by assumption. apply rev_involutive.
Qed.

Lemma rstrip0_zeros s n : rstrip0 (s ++ zeros n) = rstrip0 s.
Proof. unfold rstrip0. now rewrite rev_app_distr, rev_zeros, lstrip0_zeros. Qed.

Lemma zeros_digits n : forallb is_digit (zeros n) = true.
Proof. induction n; cbn; auto. Qed.

Lemma length_zeros n : length (zeros n) = n.
Proof. apply repeat_length. Qed.

Lemma lead_nonzero_app s t : lead_nonzero s = true -> lead_nonzero (s ++ t) = true.
Proof. now destruct s. Qed.

Lemma lead_nonzero_firstn s k : lead_nonzero s = true -> lead_nonzero (firstn (S k) s) = true.
Proof. now destruct s. Qed.

Lemma forallb_firstn A (f : A -> bool) k s :
  forallb f s = true -> forallb f (firstn k s) = true.
Proof.
  revert s; induction k as [|k IH]; intros [|x s]; cbn; auto.
  intro H. apply andb_true_iff in H as [-> H]. cbn. auto.
Qed.

Lemma forallb_skipn A (f : A -> bool) k s :
  forallb f s = true -> forallb f (skipn k s) = true.
Proof.
  revert s; induction k as [|k IH]; intros [|x s]; cbn; auto.
  intro H. apply andb_true_iff in H as [_ H]. auto.
Qed.

Lemma float_of_literal_whole neg int frac exp :
  lead_nonzero (int ++ frac) = true ->
  float_of_literal neg int frac exp
  = FDec neg (rstrip0 (int ++ frac)) (Z.of_nat (length int) + exp).
Proof.
  intro H. unfold float_of_literal. rewrite (lstrip0_lead _ H).
  destruct (int ++ frac) eqn:E; [discriminate|].
  rewrite Nat.sub_diag. f_equal. lia.
Qed.

Lemma float_result_eq neg a b c d (rest : pystr) :
  a = c -> b = d ->
  Some (JFloat (FDec neg a b), rest) = Some (JFloat (FDec neg c d), rest).
Proof. now intros -> ->. Qed.

(** The number scanner reads back the finite float that [repr] wrote. *)
Lemma number_of_match_float neg digits decpt rest :
  wf_float (FDec neg digits decpt) = true -> delim rest = true ->
  number_of_match neg (format_float_short digits decpt ++ rest)
  = Some (JFloat (FDec neg digits decpt), rest).
Proof.
  intros Hwf Hrest. pose proof (delim_no_digit _ Hrest) as Hnd.
  cbn [wf_float] in Hwf. apply andb_true_iff in Hwf as [Hdig Hshape].
  unfold format_float_short.
  destruct ((decpt <=? -4) || (16 <? decpt))%Z eqn:Hexp.
  { (* exponent notation *)
    assert (Hnz : lead_nonzero digits = true /\ lead_nonzero (rev digits) = true).
    { apply orb_true_iff in Hshape as [Hz|Hn].
      - apply andb_true_iff in Hz as [_ Hz]. apply Z.eqb_eq in Hz. subst decpt.
        discriminate.
      - now apply andb_true_iff in Hn. }
    destruct Hnz as [Hlead Hlast].
    destruct digits as [|d ds]; [discriminate|].
    assert (Hint : forall t, match t with c :: _ => is_digit c = false | [] => True end ->
                     match_integer (d :: t) = Some ([d], t)).
    { intros t Ht. apply (@match_integer_digits [d] t); auto.
      cbn [forallb] in *. apply andb_true_iff in Hdig as [-> _]. reflexivity. }
    cbn [forallb] in Hdig. apply andb_true_iff in Hdig as [Hd Hds].
    unfold number_of_match.
    destruct ds as [|d2 ds].
    - cbn [app]. rewrite Hint by reflexivity.
      change (match_frac (ord "e" :: format_exp (decpt - 1) ++ rest)) with
        (@None (pystr * pystr)). cbv iota beta.
      rewrite match_exp_format by assumption. cbv iota beta.
      rewrite float_of_literal_whole by assumption.
      rewrite rstrip0_last by assumption.
      apply float_result_eq; [reflexivity|cbn [length]; lia].
    - assert (Hne : d2 :: ds <> []) by discriminate.
      remember (d2 :: ds) as ds2 eqn:E. clear E.
      rewrite <- !app_comm_cons, <- app_assoc, <- app_comm_cons.
      rewrite Hint by reflexivity. cbv iota beta.
      rewrite match_frac_digits; [|assumption|assumption|reflexivity].
      cbv iota beta. rewrite match_exp_format by assumption.
      cbv iota beta.
      rewrite float_of_literal_whole by assumption.
      cbn [app]. rewrite rstrip0_last by assumption.
      apply float_result_eq; [reflexivity|cbn [length]; lia]. }
  apply orb_false_iff in Hexp as [Hlo Hhi].
  apply Z.leb_gt in Hlo. apply Z.ltb_ge in Hhi.
  destruct (Z.leb_spec decpt 0) as [Hneg|Hpos].
  { (* 0.000ddd *)
    assert (Hnz : lead_nonzero digits = true /\ lead_nonzero (rev digits) = true).
    { apply orb_true_iff in Hshape as [Hz|Hn].
      - apply andb_true_iff in Hz as [_ Hz]. apply Z.eqb_eq in Hz. lia.
      - now apply andb_true_iff in Hn. }
    destruct Hnz as [Hlead Hlast].
    cbn [app]. unfold number_of_match.
    change (match_integer (ZERO :: ord "." :: (zeros (Z.to_nat (- decpt)) ++ digits) ++ rest))
      with (Some ([ZERO], ord "." :: (zeros (Z.to_nat (- decpt)) ++ digits) ++ rest)).
    cbv iota beta.
    rewrite match_frac_digits; auto.
    - cbv iota beta. rewrite match_exp_delim by assumption. cbv iota beta.
      unfold float_of_literal.
      change ([ZERO] ++ zeros (Z.to_nat (- decpt)) ++ digits)
        with (zeros (S (Z.to_nat (- decpt))) ++ digits).
      rewrite lstrip0_zeros, lstrip0_lead by assumption.
      destruct digits as [|d ds] eqn:E; [discriminate|]. rewrite <- E in *.
      rewrite rstrip0_last by assumption.
      rewrite length_app, length_zeros.
      apply float_result_eq; [reflexivity|cbn [length]; lia].
    - destruct digits; [discriminate|]. now destruct (zeros _).
    - rewrite forallb_app, zeros_digits. assumption. }
  destruct (Z.ltb_spec decpt (Z.of_nat (length digits))) as [Hin|Hout].
  { (* ddd.ddd *)
    assert (Hnz : lead_nonzero digits = true /\ lead_nonzero (rev digits) = true).
    { apply orb_true_iff in Hshape as [Hz|Hn].
      - apply andb_true_iff in Hz as [Hz _].
        destruct (str_eqb_spec digits [ZERO]) as [->|]; [|discriminate].
        cbn [length] in Hin. lia.
      - now apply andb_true_iff in Hn. }
    destruct Hnz as [Hlead Hlast].
    set (k := Z.to_nat decpt) in *.
    assert (Hk : (0 < k < length digits)%nat) by (subst k; lia).
    rewrite <- app_assoc. cbn [app]. unfold number_of_match.
    rewrite match_integer_digits.
    - cbv iota beta. rewrite match_frac_digits; auto.
      + cbv iota beta. rewrite match_exp_delim by assumption. cbv iota beta.
        rewrite float_of_literal_whole; rewrite firstn_skipn; auto.
        rewrite rstrip0_last by assumption.
        rewrite length_firstn.
        apply float_result_eq; [reflexivity|subst k; lia].
      + intro E. apply (f_equal (@length _)) in E. rewrite length_skipn in E.
        cbn in E. lia.
      + now apply forallb_skipn.
    - destruct k; [lia|]. now apply lead_nonzero_firstn.
    - now apply forallb_firstn.
    - reflexivity. }
  (* ddd000.0 *)
  set (m := (Z.to_nat decpt - length digits)%nat).
  apply orb_true_iff in Hshape as [Hz|Hn].
  - apply andb_true_iff in Hz as [Hz Hone].
    destruct (str_eqb_spec digits [ZERO]) as [->|]; [|discriminate].
    apply Z.eqb_eq in Hone. subst decpt.
    change (number_of_match neg (ZERO :: ord "." :: [ZERO] ++ rest)
            = Some (JFloat (FDec neg [ZERO] 1), rest)).
    unfold number_of_match.
    change (match_integer (ZERO :: ord "." :: [ZERO] ++ rest))
      with (Some ([ZERO], ord "." :: [ZERO] ++ rest)).
    cbv iota beta.
    rewrite (@match_frac_digits [ZERO] rest); auto; [|discriminate].
    cbv iota beta. now rewrite match_exp_delim by assumption.
  - apply andb_true_iff in Hn as [Hlead Hlast].
    rewrite <- !app_assoc. rewrite (app_assoc digits). unfold number_of_match.
    rewrite match_integer_digits.
    + cbv iota beta.
      change ([ord "."; ZERO] ++ rest) with (ord "." :: [ZERO] ++ rest).
      rewrite (@match_frac_digits [ZERO] rest); auto; [|discriminate].
      cbv iota beta. rewrite match_exp_delim by assumption. cbv iota beta.
      rewrite float_of_literal_whole.
      * rewrite <- app_assoc.
        change (zeros m ++ [ZERO]) with (zeros m ++ zeros 1).
        unfold zeros at 1 2. rewrite <- repeat_app. fold (zeros (m + 1)).
        rewrite rstrip0_zeros, rstrip0_last by assumption.
        rewrite length_app, length_zeros.
        apply float_result_eq; [reflexivity|subst m; lia].
      * rewrite <- app_assoc. now apply lead_nonzero_app.
    + now apply lead_nonzero_app.
    + rewrite forallb_app, zeros_digits. now rewrite Hdig.
    + reflexivity.
Qed.

End JsonValueFacts.

(* ------------------------------------------------------------------------- *)
(** ** Facts about the encoder and the decoder *)
(* ------------------------------------------------------------------------- *)

Module JsonFacts.
Import Py JsonString JsonValue Json PyFacts JsonStringFacts JsonValueFacts.
Local Open Scope N_scope.

(** *** Dictionaries without repeated keys *)

Lemma dict_setitem_fresh d k v :
  existsb (str_eqb k) (map fst d) = false -> dict_setitem d k v = d ++ [(k, v)].
Proof.
  induction d as [|[k' v'] d IH]; cbn; [reflexivity|]. intro H.
  apply orb_false_iff in H as [Hk Hd].
  destruct (str_eqb_spec k' k) as [->|Hne].
  - now rewrite str_eqb_refl in Hk.
  - now rewrite IH.
Qed.

Lemma existsb_app_false A (f : A -> bool) l1 l2 :
  existsb f (l1 ++ l2) = false <-> existsb f l1 = false /\ existsb f l2 = false.
Proof. rewrite existsb_app. apply orb_false_iff. Qed.

Lemma str_eqb_sym a b : str_eqb a b = str_eqb b a.
Proof.
  destruct (str_eqb_spec a b) as [E|H]; destruct (str_eqb_spec b a) as [E'|H'];
    congruence.
Qed.

Lemma fold_dict_setitem pairs : forall acc,
  nodup_keys (map fst (acc ++ pairs)) = true ->
  fold_left (fun d kv => dict_setitem d (fst kv) (snd kv)) pairs acc = acc ++ pairs.
Proof.
  induction pairs as [|[k v] pairs IH]; intros acc H; cbn [fold_left].
  - now rewrite app_nil_r.
  - cbn [fst snd]. rewrite dict_setitem_fresh.
    + rewrite IH; rewrite <- app_assoc; [reflexivity|assumption].
    + clear IH. induction acc as [|[k' v'] acc IHa]; [reflexivity|].
      cbn in H |- *. apply andb_true_iff in H as [Hk Hrest].
      apply negb_true_iff in Hk. rewrite map_app in Hk.
      apply existsb_app_false in Hk as [_ Hk]. cbn in Hk.
      apply orb_false_iff in Hk as [Hk _].
      rewrite str_eqb_sym, Hk. cbn. auto.
Qed.

Lemma dict_nodup d : nodup_keys (map fst d) = true -> dict d = d.
Proof. intro H. unfold dict. now rewrite fold_dict_setitem. Qed.

Lemma format_float_short_head neg digits decpt :
  wf_float (FDec neg digits decpt) = true ->
  head_digit (format_float_short digits decpt).
Proof.
  cbn [wf_float]. intro H. apply andb_true_iff in H as [Hdig Hshape].
  assert (Hhd : head_digit digits).
  { destruct digits as [|d ds]; cbn in *.
    - discriminate.
    - now apply andb_true_iff in Hdig as [-> _]. }
  unfold format_float_short.
  destruct ((decpt <=? -4) || (16 <? decpt))%Z.
  { destruct digits as [|d [|d2 ds]]; auto. }
  destruct (Z.leb_spec decpt 0) as [Hneg|Hpos]; [reflexivity|].
  destruct (decpt <? Z.of_nat (length digits))%Z.
  - destruct (Z.to_nat decpt) eqn:E; [lia|]. now destruct digits.
  - now destruct digits.
Qed.

Lemma head_digit_value_start s : head_digit s -> value_start s.
Proof.
  destruct s as [|c s]; [trivial|]. cbn. intro H. apply is_digit_range in H.
  unfold is_ws. unfold ord; cbn.
  repeat match goal with
         | |- context [(c =? ?k)] =>
             let E := fresh in destruct (N.eqb_spec c k) as [E|E]; [lia|clear E]
         end.
  auto.
Qed.

Lemma int_repr_head z :
  match int_repr z with
  | c :: _ => c = ord "-" \/ is_digit c = true
  | [] => False
  end.
Proof.
  unfold int_repr. destruct z as [|p|p]; cbn [Z.to_int].
  - right; reflexivity.
  - pose proof (lead_nonzero_digit _ (pos_to_uint_lead p)) as H.
    destruct (chars_of_uint (Pos.to_uint p)); [contradiction|]. now right.
  - now left.
Qed.

Lemma dumps_head v : wf_json v = true -> value_start (dumps v).
Proof.
  destruct v as [|[|]|z|[|[|]|neg digits decpt]|s|l|d]; intro Hwf;
    try (cbn; split; reflexivity).
  - cbn [dumps]. pose proof (int_repr_head z) as H.
    destruct (int_repr z) as [|c t] eqn:E; [contradiction|].
    destruct H as [->|H]; [split; reflexivity|].
    now apply (@head_digit_value_start (c :: t)).
  - cbn [dumps floatstr float_repr]. destruct neg; [split; reflexivity|].
    cbn [app]. apply head_digit_value_start.
    now apply format_float_short_head with (neg := false).
Qed.

Lemma skip_ws_start s : value_start s -> skip_ws s = s.
Proof. destruct s as [|c s]; [trivial|]. cbn. now intros [-> _]. Qed.

Lemma value_start_app s t : value_start s -> value_start (s ++ t).
Proof. now destruct s. Qed.

Lemma need_cons A (w : A -> nat) a l : need w (a :: l) = S (Nat.max (w a) (need w l)).
Proof. reflexivity. Qed.

Lemma scan_once_string n r :
  scan_once (S n) (QUOTE :: r)
  = match scanstring r [] with
    | Some (x, r') => Some (JStr x, r')
    | None => None
    end.
Proof. reflexivity. Qed.

Lemma scan_once_array n r :
  scan_once (S n) (ord "[" :: r)
  = match skip_ws r with
    | c1 :: r1 =>
        if c1 =? ord "]" then Some (JList [], r1) else array_items n (c1 :: r1) []
    | [] => None
    end.
Proof. reflexivity. Qed.

Lemma scan_once_object n r :
  scan_once (S n) (ord "{" :: r)
  = match skip_ws r with
    | c1 :: r1 =>
        if c1 =? ord "}" then Some (JDict [], r1)
        else if c1 =? QUOTE then object_items n r1 []
        else None
    | [] => None
    end.
Proof. reflexivity. Qed.

Lemma scan_once_number n s res :
  match s with c :: _ => c = ord "-" \/ is_digit c = true | [] => False end ->
  match_number s = Some res -> scan_once (S n) s = Some res.
Proof.
  destruct s as [|c r]; [contradiction|]. intros Hc Hnum.
  assert (Hr : c = 45 \/ 48 <= c <= 57).
  { destruct Hc as [->|Hc]; [now left|right; now apply is_digit_range]. }
  cbn [scan_once].
  assert (Hne : forall k, k < 45 \/ 57 < k -> (c =? k) = false /\ (k =? c) = false).
  { intros k Hk. split; apply N.eqb_neq; lia. }
  destruct (Hne QUOTE) as [-> _]; [unfold QUOTE; lia|].
  destruct (Hne (ord "{")) as [-> _]; [cbn; lia|].
  destruct (Hne (ord "[")) as [-> _]; [cbn; lia|].
  unfold py, strip_prefix. cbn [list_ascii_of_string map].
  destruct (Hne (ord "n")) as [_ ->]; [cbn; lia|].
  destruct (Hne (ord "t")) as [_ ->]; [cbn; lia|].
  destruct (Hne (ord "f")) as [_ ->]; [cbn; lia|].
  now rewrite Hnum.
Qed.

Lemma array_items_step n s value r values :
  scan_once n s = Some (value, r) ->
  array_items (S n) s values
  = match skip_ws r with
    | c :: r1 =>
        if c =? ord "]" then Some (JList (rev (value :: values)), r1)
        else if c =? ord "," then array_items n (skip_ws r1) (value :: values)
        else None
    | [] => None
    end.
Proof. intro H. cbn [array_items]. now rewrite H. Qed.

Lemma object_items_step n s key r1 value r2 pairs :
  scanstring s [] = Some (key, ord ":" :: r1) ->
  scan_once n (skip_ws r1) = Some (value, r2) ->
  object_items (S n) s pairs
  = match skip_ws r2 with
    | c2 :: r3 =>
        if c2 =? ord "}" then
          Some (JDict (dict (rev ((key, value) :: pairs))), r3)
        else if c2 =? ord "," then
          match skip_ws r3 with
          | q :: r4 =>
              if q =? QUOTE
              then object_items n r4 ((key, value) :: pairs)
              else None
          | [] => None
          end
        else None
    | [] => None
    end.
Proof.
  intros Hk Hv. cbn [object_items]. rewrite Hk.
  change (skip_ws (ord ":" :: r1)) with (ord ":" :: r1). cbv iota beta.
  change (ord ":" =? ord ":") with true. cbv iota. now rewrite Hv.
Qed.

Lemma join_cons2 sep (a b : pystr) l :
  join sep (a :: b :: l) = a ++ sep ++ join sep (b :: l).
Proof. reflexivity. Qed.

Lemma array_items_dumps l :
  Forall reads_back l -> forallb wf_json l = true -> l <> [] ->
  forall values fuel rest,
  (need weight l <= fuel)%nat ->
  array_items fuel (join (py ", ") (map dumps l) ++ ord "]" :: rest) values
  = Some (JList (rev values ++ l), rest).
Proof.
  induction l as [|e l IH]; intros HP Hwf Hne values fuel rest Hfuel;
    [congruence|].
  inversion HP as [|? ? He Hl]; subst. clear HP.
  cbn [forallb] in Hwf. apply andb_true_iff in Hwf as [Hwe Hwl].
  rewrite need_cons in Hfuel. cbv beta in Hfuel. cbn [snd] in Hfuel.
  destruct fuel as [|n]; [lia|].
  destruct l as [|e2 l'].
  - cbn [map join].
    rewrite (@array_items_step n _ e (ord "]" :: rest)).
    + reflexivity.
    + apply He; auto. lia.
  - cbn [map]. rewrite join_cons2. rewrite <- !app_assoc.
    rewrite (@array_items_step n _ e
               (py ", " ++ join (py ", ") (dumps e2 :: map dumps l') ++ ord "]" :: rest)).
    + change (skip_ws (py ", " ++ ?x)) with (ord "," :: ord " " :: x).
      cbv iota beta.
      change (ord "," =? ord "]") with false.
      change (ord "," =? ord ",") with true. cbv iota.
      change (skip_ws (ord " " :: ?x)) with (skip_ws x).
      rewrite skip_ws_start.
      * change (dumps e2 :: map dumps l') with (map dumps (e2 :: l')).
        rewrite IH; auto; [|discriminate|lia].
        cbn [rev]. now rewrite <- app_assoc.
      * cbn [join]. destruct (map dumps l'); [|rewrite <- app_assoc];
          apply value_start_app; apply dumps_head;
          cbn [forallb] in Hwl; now apply andb_true_iff in Hwl as [-> _].
    + apply He; auto. lia.
Qed.

Lemma join_items d tl : d <> [] ->
  join (py ", ")
       (map (fun kv : pystr * json =>
               let '(k, x) := kv in
               encode_basestring_ascii k ++ py ": " ++ dumps x) d) ++ tl
  = QUOTE :: items_tail d tl.
Proof.
  induction d as [|[k x] d IH]; [congruence|]. intros _.
  destruct d as [|kv2 d'].
  - cbn [map join items_tail]. unfold encode_basestring_ascii, item_tail.
    cbn [app]. now rewrite <- !app_assoc.
  - cbn [map]. rewrite join_cons2.
    change (items_tail ((k, x) :: kv2 :: d') tl)
      with (item_tail k x ++ py ", " ++ QUOTE :: items_tail (kv2 :: d') tl).
    rewrite <- IH by discriminate.
    unfold encode_basestring_ascii, item_tail. cbn [map app].
    now rewrite <- !app_assoc.
Qed.

Lemma object_items_dumps d :
  Forall (fun kv => reads_back (snd kv)) d ->
  forallb (fun kv : pystr * json => let '(k, x) := kv in wf_str k && wf_json x) d
    = true ->
  d <> [] ->
  forall pairs fuel rest,
  (need (fun kv => weight (snd kv)) d <= fuel)%nat ->
  object_items fuel (items_tail d (ord "}" :: rest)) pairs
  = Some (JDict (dict (rev pairs ++ d)), rest).
Proof.
  induction d as [|[k x] d IH]; intros HP Hwf Hne pairs fuel rest Hfuel;
    [congruence|].
  inversion HP as [|? ? Hx Hd]; subst. clear HP. cbn [snd] in Hx.
  cbn [forallb] in Hwf. apply andb_true_iff in Hwf as [Hwkx Hwd].
  apply andb_true_iff in Hwkx as [Hwk Hwx].
  rewrite need_cons in Hfuel. cbv beta in Hfuel. cbn [snd] in Hfuel.
  destruct fuel as [|n]; [lia|].
  assert (Hkey : forall tl,
     scanstring (item_tail k x ++ tl) []
     = Some (k, ord ":" :: ord " " :: dumps x ++ tl)).
  { intro tl. unfold item_tail. rewrite <- app_assoc. cbn [app].
    rewrite scanstring_escape by assumption. reflexivity. }
  assert (Hval : forall tl, delim tl = true ->
     scan_once n (skip_ws (ord " " :: dumps x ++ tl)) = Some (x, tl)).
  { intros tl Htl.
    change (skip_ws (ord " " :: ?t)) with (skip_ws t).
    rewrite skip_ws_start by (apply value_start_app; now apply dumps_head).
    apply Hx; auto. lia. }
  destruct d as [|kv2 d'].
  - cbn [items_tail].
    rewrite (@object_items_step n _ k _ x _ pairs (Hkey _)
               (Hval (ord "}" :: rest) eq_refl)).
    reflexivity.
  - change (items_tail ((k, x) :: kv2 :: d') (ord "}" :: rest))
      with (item_tail k x ++ py ", " ++ QUOTE :: items_tail (kv2 :: d') (ord "}" :: rest)).
    rewrite (@object_items_step n _ k _ x _ pairs (Hkey _)
               (Hval (py ", " ++ QUOTE :: items_tail (kv2 :: d') (ord "}" :: rest))
                     eq_refl)).
    change (skip_ws (py ", " ++ ?t)) with (ord "," :: ord " " :: t).
    cbv iota beta.
    change (ord "," =? ord "}") with false.
    change (ord "," =? ord ",") with true. cbv iota.
    change (skip_ws (ord " " :: QUOTE :: ?t)) with (QUOTE :: t).
    cbv iota beta. change (QUOTE =? QUOTE) with true. cbv iota.
    rewrite IH; auto; [|discriminate|lia].
    cbn [rev]. now rewrite <- app_assoc.
Qed.

(** Decoding what the encoder wrote gives the value back. *)
Lemma scan_once_dumps v : reads_back v.
Proof.
  induction v using json_rect'; intros Hwf fuel rest Hfuel Hrest;
    (destruct fuel as [|n]; [cbn [weight] in Hfuel; lia|]).
  - reflexivity.
  - destruct b; reflexivity.
  - apply scan_once_number; [|now apply match_number_int].
    pose proof (int_repr_head z) as H. cbn [dumps].
    now destruct (int_repr z).
  - destruct f as [|[|]|neg digits decpt]; try reflexivity.
    cbn [dumps floatstr float_repr]. rewrite <- app_assoc.
    pose proof (@format_float_short_head neg digits decpt Hwf) as Hhd.
    apply scan_once_number.
    + destruct neg; [now left|]. cbn [app].
      destruct (format_float_short digits decpt); [contradiction|now right].
    + rewrite match_number_signed.
      * now apply number_of_match_float.
      * destruct (format_float_short digits decpt); [contradiction|assumption].
  - cbn [dumps]. unfold encode_basestring_ascii. cbn [app].
    rewrite scan_once_string. rewrite <- app_assoc. cbn [app].
    now rewrite scanstring_escape.
  - cbn [dumps app]. rewrite scan_once_array. rewrite <- app_assoc. cbn [app].
    cbn [wf_json] in Hwf. cbn [weight] in Hfuel.
    destruct l as [|e l']; [reflexivity|].
    assert (Hstart : value_start (join (py ", ") (map dumps (e :: l')) ++ ord "]" :: rest)).
    { cbn [map]. destruct l' as [|e2 l''].
      - cbn [join map]. apply value_start_app, dumps_head.
        cbn [forallb] in Hwf. now apply andb_true_iff in Hwf as [-> _].
      - cbn [map]. rewrite join_cons2, <- app_assoc. apply value_start_app, dumps_head.
        cbn [forallb] in Hwf. now apply andb_true_iff in Hwf as [-> _]. }
    rewrite (skip_ws_start _ Hstart).
    pose proof (@array_items_dumps (e :: l') H Hwf ltac:(discriminate) [] n rest
                  ltac:(lia)) as Hitems.
    destruct (join (py ", ") (map dumps (e :: l')) ++ ord "]" :: rest) as [|c1 r1];
      [contradiction|].
    destruct Hstart as [_ ->]. exact Hitems.
  - cbn [dumps app]. rewrite scan_once_object. rewrite <- app_assoc.
    change ([ord "}"] ++ rest) with (ord "}" :: rest).
    cbn [wf_json] in Hwf. apply andb_true_iff in Hwf as [Hnodup Hwf].
    cbn [weight] in Hfuel.
    destruct d as [|kv d']; [reflexivity|].
    rewrite join_items by discriminate.
    change (skip_ws (QUOTE :: ?t)) with (QUOTE :: t). cbv iota beta.
    change (QUOTE =? ord "}") with false.
    change (QUOTE =? QUOTE) with true. cbv iota.
    rewrite (@object_items_dumps (kv :: d') H Hwf ltac:(discriminate) [] n rest)
      by lia.
    cbn [rev app]. now rewrite dict_nodup.
Qed.

(** The fuel [loads] gives is enough for what the encoder wrote. *)
Lemma need_le_join A (w : A -> nat) (f : A -> pystr) l :
  Forall (fun a => w a <= length (f a))%nat l ->
  (need w l <= S (length (join (py ", ") (map f l))))%nat.
Proof.
  induction 1 as [|a l Ha Hl IH]; [cbn; lia|].
  rewrite need_cons. cbn [map].
  destruct l as [|b l']; [cbn in *; lia|].
  cbn [map] in *. rewrite join_cons2, !length_app.
  change (length (py ", ")) with 2%nat. lia.
Qed.

Lemma weight_le_length v : wf_json v = true -> (weight v <= length (dumps v))%nat.
Proof.
  induction v using json_rect'; intro Hwf.
  - cbn; lia.
  - destruct b; cbn; lia.
  - pose proof (dumps_head (JInt z) Hwf) as Hs. cbn [weight].
    destruct (dumps (JInt z)); [contradiction|cbn; lia].
  - pose proof (dumps_head (JFloat f) Hwf) as Hs. cbn [weight].
    destruct (dumps (JFloat f)); [contradiction|cbn; lia].
  - cbn; lia.
  - cbn [dumps weight length]. rewrite length_app. cbn [length].
    cbn [wf_json] in Hwf.
    enough (need weight l <= S (length (join (py ", ") (map dumps l))))%nat by lia.
    apply need_le_join. rewrite forallb_forall in Hwf. rewrite Forall_forall in *.
    auto.
  - cbn [dumps weight length]. rewrite length_app. cbn [length].
    cbn [wf_json] in Hwf. apply andb_true_iff in Hwf as [_ Hwf].
    match goal with
    | |- context [join ?sep (map ?f d)] =>
        enough (need (fun kv => weight (snd kv)) d
                <= S (length (join sep (map f d))))%nat by lia
    end.
    apply need_le_join. rewrite forallb_forall in Hwf. rewrite Forall_forall in *.
    intros [k x] Hin. specialize (H _ Hin). specialize (Hwf _ Hin).
    cbn [snd] in *. apply andb_true_iff in Hwf as [_ Hwx].
    rewrite !length_app. specialize (H Hwx). lia.
Qed.

(** [json.loads(json.dumps(v)) == v] *)
Theorem loads_dumps v : wf_json v = true -> loads (dumps v) = Some v.
Proof.
  intro Hwf. unfold loads.
  rewrite skip_ws_start by now apply dumps_head.
  pose proof (weight_le_length v Hwf) as Hlen.
  pose proof (@scan_once_dumps v Hwf (S (length (dumps v))) []) as H.
  rewrite app_nil_r in H. rewrite H; auto.
Qed.

(** *** The fuel of [loads] is enough for every text *)

Lemma skip_ws_length s : (length (skip_ws s) <= length s)%nat.
Proof.
  induction s as [|c s IH]; [cbn; lia|]. cbn [skip_ws].
  destruct (is_ws c); cbn [length]; lia.
Qed.

Lemma strip_prefix_length p : forall s r,
  strip_prefix p s = Some r -> length s = (length p + length r)%nat.
Proof.
  induction p as [|x p IH]; intros s r H; cbn in H.
  - now inversion H.
  - destruct s as [|y s]; [discriminate|].
    destruct (x =? y); [|discriminate]. cbn [length]. now rewrite (IH _ _ H).
Qed.

Lemma span_digits_length s : forall ds r,
  span_digits s = (ds, r) -> length s = (length ds + length r)%nat.
Proof.
  induction s as [|c s IH]; intros ds r H; cbn in H.
  - now inversion H.
  - destruct (is_digit c).
    + destruct (span_digits s) as [ds' r'] eqn:E. inversion H; subst.
      cbn [length]. now rewrite (IH _ _ eq_refl).
    + now inversion H.
Qed.

Lemma match_integer_length s int r :
  match_integer s = Some (int, r) -> (length r < length s)%nat.
Proof.
  unfold match_integer. destruct s as [|c t]; [discriminate|].
  destruct (c =? ZERO); [intro H; inversion H; subst; cbn; lia|].
  destruct (is_digit c); [|discriminate].
  destruct (span_digits t) as [ds r'] eqn:E. intro H; inversion H; subst.
  apply span_digits_length in E. cbn [length]. lia.
Qed.

Lemma match_frac_length s ds r :
  match_frac s = Some (ds, r) -> (length r < length s)%nat.
Proof.
  unfold match_frac. destruct s as [|c t]; [discriminate|].
  destruct (c =? ord "."); [|discriminate].
  destruct (span_digits t) as [ds' r'] eqn:E. apply span_digits_length in E.
  destruct ds'; [discriminate|]. intro H; inversion H; subst.
  cbn [length] in *. lia.
Qed.

Lemma match_exp_length s e r :
  match_exp s = Some (e, r) -> (length r < length s)%nat.
Proof.
  unfold match_exp. destruct s as [|c t]; [discriminate|].
  destruct ((c =? ord "e") || (c =? ord "E")); [|discriminate].
  destruct (match t with
            | [] => (false, t)
            | sg :: r0 =>
                if sg =? ord "-" then (true, r0)
                else if sg =? ord "+" then (false, r0) else (false, t)
            end) as [ng r1] eqn:Esg.
  assert (Hr1 : (length r1 <= length t)%nat).
  { destruct t as [|sg r0]; [inversion Esg; lia|].
    destruct (sg =? ord "-"); [inversion Esg; cbn; lia|].
    destruct (sg =? ord "+"); inversion Esg; cbn; lia. }
  destruct (span_digits r1) as [ds r'] eqn:E. apply span_digits_length in E.
  destruct ds; [discriminate|]. intro H; inversion H; subst.
  cbn [length] in *. lia.
Qed.

Lemma match_number_length s v r :
  match_number s = Some (v, r) -> (length r < length s)%nat.
Proof.
  assert (Hbody : forall neg s1, number_of_match neg s1 = Some (v, r) ->
                    (length r < length s1)%nat).
  { intros neg s1 H. unfold number_of_match in H.
    destruct (match_integer s1) as [[int s2]|] eqn:Hint; [|discriminate].
    apply match_integer_length in Hint.
    destruct (match_frac s2) as [[ds s3]|] eqn:Hfrac.
    - apply match_frac_length in Hfrac.
      destruct (match_exp s3) as [[e s4]|] eqn:Hexp.
      + apply match_exp_length in Hexp. inversion H; subst. lia.
      + inversion H; subst. lia.
    - destruct (match_exp s2) as [[e s4]|] eqn:Hexp.
      + apply match_exp_length in Hexp. inversion H; subst. lia.
      + inversion H; subst. lia. }
  unfold match_number. destruct s as [|c t]; [discriminate|].
  destruct (c =? ord "-"); intro H; apply Hbody in H; cbn [length] in *; lia.
Qed.

Lemma scanstring_length : forall n s chunks x r,
  (length s <= n)%nat -> scanstring s chunks = Some (x, r) ->
  (length r < length s)%nat.
Proof.
  induction n as [|n IH]; intros s chunks x r Hn H.
  - destruct s; [discriminate|cbn in Hn; lia].
  - destruct s as [|c t]; [discriminate|]. cbn [length] in Hn.
    cbn [scanstring] in H.
    destruct (c =? QUOTE); [inversion H; subst; cbn; lia|].
    destruct (c =? BACKSLASH).
    + destruct t as [|esc r1]; [discriminate|].
      destruct (esc =? ord "u").
      * destruct r1 as [|h1 [|h2 [|h3 [|h4 r2]]]]; try discriminate.
        destruct (decode_uXXXX h1 h2 h3 h4) as [uni|]; [|discriminate].
        destruct (is_high_surrogate uni).
        -- unfold after_high_surrogate in H.
           destruct r2 as [|b [|u r3]];
             try (apply IH in H; cbn [length] in *; lia).
           destruct ((b =? BACKSLASH) && (u =? ord "u"));
             [|apply IH in H; cbn [length] in *; lia].
           destruct r3 as [|g1 [|g2 [|g3 [|g4 r4]]]]; try discriminate.
           destruct (decode_uXXXX g1 g2 g3 g4) as [uni2|]; [|discriminate].
           destruct (is_low_surrogate uni2);
             apply IH in H; cbn [length] in *; lia.
        -- apply IH in H; cbn [length] in *; lia.
      * destruct (unescape esc); [|discriminate].
        apply IH in H; cbn [length] in *; lia.
    + destruct (c <=? 31); [discriminate|].
      apply IH in H; cbn [length] in *; lia.
Qed.

Ltac rew_all :=
  repeat match goal with
         | E : ?t = _ |- context [?t] => rewrite E
         end.

Lemma fuel_enough f :
  (forall s, enough s (fun f' => scan_once f' s) (scan_once f s))
  /\ (forall s vs, enough s (fun f' => array_items f' s vs) (array_items f s vs))
  /\ (forall s ps, enough s (fun f' => object_items f' s ps) (object_items f s ps)).
Proof.
  induction f as [|n [IHs [IHa IHo]]].
  { repeat split; intros; discriminate. }
  split; [|split].
  - intros s v r H. cbn [scan_once] in H. destruct s as [|c t]; [discriminate|].
    pose proof (skip_ws_length t) as Hws.
    destruct (c =? QUOTE) eqn:Eq.
    { destruct (scanstring t []) as [[x r']|] eqn:Es; inversion H; subst.
      pose proof (scanstring_length _ _ (le_n _) Es).
      split; [cbn [length]; lia|]. intros [|n'] Hf; [cbn [length] in *; lia|].
      cbn [scan_once]. now rew_all. }
    destruct (c =? ord "{") eqn:Eo.
    { destruct (skip_ws t) as [|c1 r1] eqn:Ew; [discriminate|].
      cbn [length] in Hws.
      destruct (c1 =? ord "}") eqn:E1.
      - inversion H; subst. split; [cbn [length]; lia|].
        intros [|n'] Hf; [cbn [length] in *; lia|]. cbn [scan_once]. now rew_all.
      - destruct (c1 =? QUOTE) eqn:E2; [|discriminate].
        destruct (IHo _ _ _ _ H) as [Hlen Hrun].
        split; [cbn [length]; lia|].
        intros [|n'] Hf; [cbn [length] in *; lia|]. cbn [scan_once]. rew_all.
        apply Hrun. cbn [length] in *. lia. }
    destruct (c =? ord "[") eqn:Ea.
    { destruct (skip_ws t) as [|c1 r1] eqn:Ew; [discriminate|].
      cbn [length] in Hws.
      destruct (c1 =? ord "]") eqn:E1.
      - inversion H; subst. split; [cbn [length]; lia|].
        intros [|n'] Hf; [cbn [length] in *; lia|]. cbn [scan_once]. now rew_all.
      - destruct (IHa _ _ _ _ H) as [Hlen Hrun].
        split; [cbn [length] in *; lia|].
        intros [|n'] Hf; [cbn [length] in *; lia|]. cbn [scan_once]. rew_all.
        apply Hrun. cbn [length] in *. lia. }
    assert (Hlen : (length r < length (c :: t))%nat).
    { repeat match type of H with
             | match strip_prefix ?p ?s with _ => _ end = _ =>
                 let E := fresh "E" in
                 destruct (strip_prefix p s) eqn:E;
                 [inversion H; subst; apply strip_prefix_length in E;
                  cbn [length py map list_ascii_of_string] in E |- *; lia|]
             | match match_number ?s with _ => _ end = _ =>
                 let E := fresh "E" in
                 destruct (match_number s) as [[? ?]|] eqn:E;
                 [inversion H; subst; now apply match_number_length in E|]
             end.
      discriminate. }
    split; [exact Hlen|].
    intros [|n'] Hf; [lia|]. cbn [scan_once]. rewrite Eq, Eo, Ea. exact H.
  - intros s vs v r H. cbn [array_items] in H.
    destruct (scan_once n s) as [[value r1]|] eqn:Ev; [|discriminate].
    destruct (IHs _ _ _ Ev) as [Hlen1 Hrun1].
    pose proof (skip_ws_length r1) as Hws.
    destruct (skip_ws r1) as [|c r2] eqn:Ew; [discriminate|]. cbn [length] in Hws.
    destruct (c =? ord "]") eqn:E1.
    + inversion H; subst. split; [lia|].
      intros [|n'] Hf; [lia|]. cbn [array_items].
      rewrite Hrun1 by lia. now rew_all.
    + destruct (c =? ord ",") eqn:E2; [|discriminate].
      pose proof (skip_ws_length r2) as Hws2.
      destruct (IHa _ _ _ _ H) as [Hlen Hrun].
      split; [lia|].
      intros [|n'] Hf; [lia|]. cbn [array_items].
      rewrite Hrun1 by lia. rew_all. apply Hrun. lia.
  - intros s ps v r H. cbn [object_items] in H.
    destruct (scanstring s []) as [[key r0]|] eqn:Ek; [|discriminate].
    pose proof (scanstring_length _ _ (le_n _) Ek) as Hk.
    pose proof (skip_ws_length r0) as Hws0.
    destruct (skip_ws r0) as [|c r1] eqn:Ew0; [discriminate|]. cbn [length] in Hws0.
    destruct (c =? ord ":") eqn:Ec; [|discriminate].
    pose proof (skip_ws_length r1) as Hws1.
    destruct (scan_once n (skip_ws r1)) as [[value r2]|] eqn:Ev; [|discriminate].
    destruct (IHs _ _ _ Ev) as [Hlen1 Hrun1].
    pose proof (skip_ws_length r2) as Hws2.
    destruct (skip_ws r2) as [|c2 r3] eqn:Ew2; [discriminate|]. cbn [length] in Hws2.
    destruct (c2 =? ord "}") eqn:E1.
    + inversion H; subst. split; [lia|].
      intros [|n'] Hf; [lia|]. cbn [object_items]. rew_all.
      rewrite Hrun1 by lia. now rew_all.
    + destruct (c2 =? ord ",") eqn:E2; [|discriminate].
      pose proof (skip_ws_length r3) as Hws3.
      destruct (skip_ws r3) as [|q r4] eqn:Ew3; [discriminate|]. cbn [length] in Hws3.
      destruct (q =? QUOTE) eqn:E3; [|discriminate].
      destruct (IHo _ _ _ _ H) as [Hlen Hrun].
      split; [lia|].
      intros [|n'] Hf; [lia|]. cbn [object_items]. rew_all.
      rewrite Hrun1 by lia. rew_all. apply Hrun. lia.
Qed.

(** The fuel that [loads] gives never makes it fail: when the scanner reads a
    whole text with some fuel, [loads] returns the value. *)
Theorem loads_fuel_adequate f s v r :
  scan_once f (skip_ws s) = Some (v, r) -> skip_ws r = [] -> loads s = Some v.
Proof.
  intros H Hr. destruct (fuel_enough f) as [Hs _].
  destruct (Hs _ _ _ H) as [Hlen Hrun]. unfold loads.
  pose proof (skip_ws_length s). rewrite Hrun by lia. now rewrite Hr.
Qed.

(** *** What [loads] returns is well formed *)

Lemma text_ok_app a b : text_ok (a ++ b) = text_ok a && text_ok b.
Proof. apply forallb_app. Qed.

Lemma text_ok_suffix p r : text_ok (p ++ r) = true -> text_ok r = true.
Proof. rewrite text_ok_app. intro H. now apply andb_true_iff in H as [_ H]. Qed.

Lemma skip_ws_suffix s : exists p, s = p ++ skip_ws s.
Proof.
  induction s as [|c s [p IH]]; [now exists []|]. cbn [skip_ws].
  destruct (is_ws c); [|now exists []].
  exists (c :: p). cbn [app]. now rewrite <- IH.
Qed.

Lemma text_ok_skip_ws s : text_ok s = true -> text_ok (skip_ws s) = true.
Proof.
  destruct (skip_ws_suffix s) as [p E]. rewrite E at 1. apply text_ok_suffix.
Qed.

Lemma strip_prefix_suffix p : forall s r, strip_prefix p s = Some r -> s = p ++ r.
Proof.
  induction p as [|x p IH]; intros s r H; cbn in H.
  - now inversion H.
  - destruct s as [|y s]; [discriminate|].
    destruct (N.eqb_spec x y) as [->|]; [|discriminate]. cbn [app].
    now rewrite (IH _ _ H).
Qed.

Lemma span_digits_spec s : forall ds r,
  span_digits s = (ds, r) -> s = ds ++ r /\ forallb is_digit ds = true.
Proof.
  induction s as [|c s IH]; intros ds r H; cbn in H.
  - now inversion H.
  - destruct (is_digit c) eqn:Ec.
    + destruct (span_digits s) as [ds' r'] eqn:E. inversion H; subst.
      destruct (IH _ _ eq_refl) as [-> Hd]. cbn. now rewrite Ec.
    + now inversion H.
Qed.

Lemma match_integer_spec s int r :
  match_integer s = Some (int, r) -> s = int ++ r /\ forallb is_digit int = true.
Proof.
  unfold match_integer. destruct s as [|c t]; [discriminate|].
  destruct (N.eqb_spec c ZERO) as [->|Hz].
  - intro H; inversion H; subst. now split.
  - destruct (is_digit c) eqn:Ec; [|discriminate].
    destruct (span_digits t) as [ds r'] eqn:E. intro H; inversion H; subst.
    destruct (span_digits_spec _ E) as [-> Hd]. cbn. now rewrite Ec.
Qed.

Lemma match_frac_spec s ds r :
  match_frac s = Some (ds, r) ->
  s = ord "." :: ds ++ r /\ forallb is_digit ds = true.
Proof.
  unfold match_frac. destruct s as [|c t]; [discriminate|].
  destruct (N.eqb_spec c (ord ".")) as [->|]; [|discriminate].
  destruct (span_digits t) as [ds' r'] eqn:E.
  destruct (span_digits_spec _ E) as [-> Hd].
  destruct ds'; [discriminate|]. intro H; inversion H; subst. now split.
Qed.

Lemma match_exp_suffix s e r : match_exp s = Some (e, r) -> exists p, s = p ++ r.
Proof.
  unfold match_exp. destruct s as [|c t]; [discriminate|].
  destruct ((c =? ord "e") || (c =? ord "E")); [|discriminate].
  destruct (match t with
            | [] => (false, t)
            | sg :: r0 =>
                if sg =? ord "-" then (true, r0)
                else if sg =? ord "+" then (false, r0) else (false, t)
            end) as [ng r1] eqn:Esg.
  assert (Hr1 : exists p, t = p ++ r1).
  { destruct t as [|sg r0]; [inversion Esg; now exists []|].
    destruct (sg =? ord "-"); [inversion Esg; now exists [sg]|].
    destruct (sg =? ord "+"); inversion Esg; [now exists [sg]|now exists []]. }
  destruct Hr1 as [p ->].
  destruct (span_digits r1) as [ds r'] eqn:E.
  destruct (span_digits_spec _ E) as [-> _].
  destruct ds as [|d ds']; [discriminate|]. intro H; inversion H; subst.
  exists (c :: p ++ d :: ds'). cbn [app]. now rewrite <- app_assoc.
Qed.

(** Stripping zeros leaves digits that do not start with zero. *)
Lemma lstrip0_spec s :
  exists k, s = zeros k ++ lstrip0 s /\
            match lstrip0 s with c :: _ => c <> ZERO | [] => True end.
Proof.
  induction s as [|c s (k & E & Hh)]; [now exists 0%nat|]. cbn [lstrip0].
  destruct (N.eqb_spec c ZERO) as [->|Hz].
  - exists (S k). cbn [zeros repeat app]. split; [now f_equal|assumption].
  - now exists 0%nat.
Qed.

Lemma zeros_not_lead k t : lead_nonzero (zeros k ++ t) = true -> k = 0%nat.
Proof. destruct k; [reflexivity|discriminate]. Qed.

Lemma lead_nonzero_intro c t :
  is_digit c = true -> c <> ZERO -> lead_nonzero (c :: t) = true.
Proof.
  intros Hd Hz. cbn. rewrite Hd. apply N.eqb_neq in Hz. now rewrite Hz.
Qed.

Lemma float_of_literal_wf neg int frac exp :
  forallb is_digit int = true -> forallb is_digit frac = true ->
  wf_float (float_of_literal neg int frac exp) = true.
Proof.
  intros Hi Hf. unfold float_of_literal.
  assert (Hall : forallb is_digit (int ++ frac) = true)
    by now rewrite forallb_app, Hi, Hf.
  destruct (lstrip0_spec (int ++ frac)) as (k & E & Hh).
  destruct (lstrip0 (int ++ frac)) as [|c sig'] eqn:Es; [reflexivity|].
  rewrite E, forallb_app in Hall. apply andb_true_iff in Hall as [_ Hsig].
  assert (Hlead : lead_nonzero (c :: sig') = true).
  { cbn [forallb] in Hsig. apply andb_true_iff in Hsig as [Hc _].
    now apply lead_nonzero_intro. }
  set (sig := c :: sig') in *.
  destruct (lstrip0_spec (rev sig)) as (k2 & E2 & Hh2).
  assert (Hrev : forallb is_digit (rev sig) = true).
  { rewrite forallb_forall in *. intros y Hy. apply Hsig. now apply in_rev. }
  assert (Hsig2 : sig = rev (lstrip0 (rev sig)) ++ zeros k2).
  { rewrite <- (rev_involutive sig) at 1. rewrite E2 at 1.
    now rewrite rev_app_distr, rev_zeros. }
  assert (HL : forallb is_digit (lstrip0 (rev sig)) = true).
  { rewrite E2, forallb_app in Hrev. now apply andb_true_iff in Hrev as [_ H]. }
  cbn [wf_float]. unfold rstrip0.
  assert (HrevL : forallb is_digit (rev (lstrip0 (rev sig))) = true).
  { rewrite forallb_forall in *. intros y Hy. apply HL. now apply in_rev. }
  rewrite HrevL. cbn [andb]. apply orb_true_iff. right.
  rewrite rev_involutive. apply andb_true_iff. split.
  - destruct (rev (lstrip0 (rev sig))) as [|d ds] eqn:Er.
    + rewrite Hsig2 in Hlead. cbn [app] in Hlead.
      destruct k2; discriminate.
    + rewrite Hsig2 in Hlead. exact Hlead.
  - destruct (lstrip0 (rev sig)) as [|d ds] eqn:El.
    + exfalso. rewrite Hsig2 in Hlead. cbn [rev app] in Hlead.
      destruct k2; discriminate.
    + cbn [forallb] in HL. apply andb_true_iff in HL as [Hd _].
      now apply lead_nonzero_intro.
Qed.

Lemma match_number_wf s v r :
  match_number s = Some (v, r) ->
  wf_json v = true /\ exists p, s = p ++ r.
Proof.
  assert (Hbody : forall neg s1, number_of_match neg s1 = Some (v, r) ->
                    wf_json v = true /\ exists p, s1 = p ++ r).
  { intros neg s1 H. unfold number_of_match in H.
    destruct (match_integer s1) as [[int s2]|] eqn:Hint; [|discriminate].
    destruct (match_integer_spec _ Hint) as [-> Hdi].
    destruct (match_frac s2) as [[ds s3]|] eqn:Hfrac.
    - destruct (match_frac_spec _ Hfrac) as [-> Hdf].
      destruct (match_exp s3) as [[e s4]|] eqn:Hexp.
      + destruct (match_exp_suffix _ Hexp) as [p ->].
        inversion H; subst. split; [now apply float_of_literal_wf|].
        exists (int ++ ord "." :: ds ++ p). rewrite <- !app_assoc. cbn [app].
        now rewrite <- !app_assoc.
      + inversion H; subst. split; [now apply float_of_literal_wf|].
        exists (int ++ ord "." :: ds). rewrite <- !app_assoc. reflexivity.
    - destruct (match_exp s2) as [[e s4]|] eqn:Hexp.
      + destruct (match_exp_suffix _ Hexp) as [p ->].
        inversion H; subst. split; [now apply float_of_literal_wf|].
        exists (int ++ p). now rewrite <- !app_assoc.
      + inversion H; subst. split; [reflexivity|]. now exists int. }
  unfold match_number. destruct s as [|c t]; [discriminate|].
  destruct (c =? ord "-"); intro H; apply Hbody in H as [Hw [p E]];
    (split; [assumption|]).
  - exists (c :: p). cbn [app]. now rewrite E.
  - now exists p.
Qed.

Lemma dict_setitem_key a d k v :
  existsb (str_eqb a) (map fst (dict_setitem d k v)) = true ->
  existsb (str_eqb a) (map fst d) = true \/ str_eqb a k = true.
Proof.
  induction d as [|[k' v'] d IH]; cbn [dict_setitem map fst existsb].
  - rewrite orb_false_r. now right.
  - destruct (str_eqb k' k); cbn [map fst existsb]; intro H;
      apply orb_true_iff in H as [H|H].
    + left. now rewrite H.
    + left. rewrite H. apply orb_true_r.
    + left. now rewrite H.
    + destruct (IH H) as [H'|H']; [left; rewrite H'; apply orb_true_r|now right].
Qed.

Lemma dict_setitem_wf d k v :
  nodup_keys (map fst d) = true -> forallb item_ok d = true ->
  wf_str k = true -> wf_json v = true ->
  nodup_keys (map fst (dict_setitem d k v)) = true
  /\ forallb item_ok (dict_setitem d k v) = true.
Proof.
  intros Hnd Hok Hk Hv. induction d as [|[k' v'] d IH].
  - cbn. now rewrite Hk, Hv.
  - cbn [map fst nodup_keys] in Hnd. apply andb_true_iff in Hnd as [Hnew Hnd].
    cbn [forallb item_ok] in Hok. apply andb_true_iff in Hok as [Hkv Hok].
    apply andb_true_iff in Hkv as [Hk' Hv'].
    cbn [dict_setitem]. destruct (str_eqb k' k) eqn:E.
    + cbn [map fst nodup_keys forallb item_ok]. now rewrite Hnew, Hnd, Hk', Hv, Hok.
    + destruct (IH Hnd Hok) as [IH1 IH2].
      cbn [map fst nodup_keys forallb item_ok]. rewrite IH1, IH2, Hk', Hv'.
      rewrite !andb_true_r. split; [|reflexivity].
      apply negb_true_iff. apply negb_true_iff in Hnew.
      destruct (existsb (str_eqb k') (map fst (dict_setitem d k v))) eqn:Ex;
        [|reflexivity].
      apply dict_setitem_key in Ex as [Ex|Ex]; congruence.
Qed.

Lemma dict_wf pairs :
  forallb item_ok pairs = true -> wf_json (JDict (dict pairs)) = true.
Proof.
  intro Hok. unfold dict.
  assert (H : forall acc,
            nodup_keys (map fst acc) = true -> forallb item_ok acc = true ->
            let d := fold_left (fun d kv => dict_setitem d (fst kv) (snd kv)) pairs acc in
            nodup_keys (map fst d) = true /\ forallb item_ok d = true).
  { induction pairs as [|[k v] pairs IH]; intros acc Hnd Hacc; [now split|].
    cbn [forallb item_ok] in Hok. apply andb_true_iff in Hok as [Hkv Hok].
    apply andb_true_iff in Hkv as [Hk Hv].
    cbn [fold_left fst snd].
    destruct (dict_setitem_wf acc k v Hnd Hacc Hk Hv) as [H1 H2].
    now apply IH. }
  destruct (H [] eq_refl eq_refl) as [H1 H2].
  cbn [wf_json]. rewrite H1. cbn [andb]. exact H2.
Qed.

Lemma forallb_rev A (f : A -> bool) l : forallb f l = true -> forallb f (rev l) = true.
Proof.
  rewrite !forallb_forall. intros H x Hx. apply H. now apply in_rev.
Qed.

Lemma text_ok_tail c t : text_ok (c :: t) = true -> text_ok t = true.
Proof. cbn. intro H. now apply andb_true_iff in H as [_ H]. Qed.

(** The scanner returns well-formed values when the text holds scalar
    values only. *)
Lemma scan_wf f :
  (forall s v r, text_ok s = true -> scan_once f s = Some (v, r) ->
                 wf_json v = true /\ text_ok r = true)
  /\ (forall s vs v r, text_ok s = true -> forallb wf_json vs = true ->
                       array_items f s vs = Some (v, r) ->
                       wf_json v = true /\ text_ok r = true)
  /\ (forall s ps v r, text_ok s = true -> forallb item_ok ps = true ->
                       object_items f s ps = Some (v, r) ->
                       wf_json v = true /\ text_ok r = true).
Proof.
  induction f as [|n [IHs [IHa IHo]]].
  { repeat split; intros; discriminate. }
  split; [|split].
  - intros s v r Ht H. cbn [scan_once] in H. destruct s as [|c t]; [discriminate|].
    pose proof (text_ok_tail _ _ Ht) as Htt.
    pose proof (text_ok_skip_ws _ Htt) as Hws.
    destruct (c =? QUOTE).
    { destruct (scanstring t []) as [[x r']|] eqn:Es; inversion H; subst.
      now apply (scanstring_wf (n := length t) t [] (le_n _) Htt eq_refl I) in Es. }
    destruct (c =? ord "{").
    { destruct (skip_ws t) as [|c1 r1] eqn:Ew; [discriminate|].
      apply text_ok_tail in Hws.
      destruct (c1 =? ord "}"); [inversion H; subst; now split|].
      destruct (c1 =? QUOTE); [|discriminate]. now apply (IHo r1 []). }
    destruct (c =? ord "[").
    { destruct (skip_ws t) as [|c1 r1] eqn:Ew; [discriminate|].
      destruct (c1 =? ord "]");
        [inversion H; subst; split; [reflexivity|now apply text_ok_tail in Hws]|].
      now apply (IHa (c1 :: r1) []). }
    repeat match type of H with
           | match strip_prefix ?p ?s with _ => _ end = _ =>
               let E := fresh "E" in
               destruct (strip_prefix p s) eqn:E;
               [inversion H; subst; apply strip_prefix_suffix in E;
                rewrite E in Ht; apply text_ok_suffix in Ht; now split|]
           | match match_number ?s with _ => _ end = _ =>
               let E := fresh "E" in
               destruct (match_number s) as [[? ?]|] eqn:E;
               [inversion H; subst; apply match_number_wf in E as [Hw [p E]];
                rewrite E in Ht; apply text_ok_suffix in Ht; now split|]
           end.
    discriminate.
  - intros s vs v r Ht Hvs H. cbn [array_items] in H.
    destruct (scan_once n s) as [[value r1]|] eqn:Ev; [|discriminate].
    destruct (IHs _ _ _ Ht Ev) as [Hwv Ht1].
    pose proof (text_ok_skip_ws _ Ht1) as Hws.
    destruct (skip_ws r1) as [|c r2] eqn:Ew; [discriminate|].
    apply text_ok_tail in Hws.
    assert (Hvs' : forallb wf_json (value :: vs) = true)
      by (cbn [forallb]; now rewrite Hwv, Hvs).
    destruct (c =? ord "]").
    + inversion H; subst. split; [|assumption].
      cbn [wf_json]. now apply (@forallb_rev _ wf_json (value :: vs)).
    + destruct (c =? ord ","); [|discriminate].
      apply (IHa (skip_ws r2) (value :: vs)); auto. now apply text_ok_skip_ws.
  - intros s ps v r Ht Hps H. cbn [object_items] in H.
    destruct (scanstring s []) as [[key r0]|] eqn:Ek; [|discriminate].
    apply (scanstring_wf (n := length s) s [] (le_n _) Ht eq_refl I) in Ek
      as [Hwk Ht0].
    pose proof (text_ok_skip_ws _ Ht0) as Hws0.
    destruct (skip_ws r0) as [|c r1] eqn:Ew0; [discriminate|].
    apply text_ok_tail in Hws0.
    destruct (c =? ord ":"); [|discriminate].
    destruct (scan_once n (skip_ws r1)) as [[value r2]|] eqn:Ev; [|discriminate].
    destruct (IHs _ _ _ (text_ok_skip_ws _ Hws0) Ev) as [Hwv Ht2].
    pose proof (text_ok_skip_ws _ Ht2) as Hws2.
    destruct (skip_ws r2) as [|c2 r3] eqn:Ew2; [discriminate|].
    apply text_ok_tail in Hws2.
    assert (Hps' : forallb item_ok ((key, value) :: ps) = true)
      by (cbn [forallb item_ok]; now rewrite Hwk, Hwv, Hps).
    destruct (c2 =? ord "}").
    + inversion H; subst. split; [|assumption].
      apply dict_wf. now apply (@forallb_rev _ item_ok ((key, value) :: ps)).
    + destruct (c2 =? ord ","); [|discriminate].
      pose proof (text_ok_skip_ws _ Hws2) as Hws3.
      destruct (skip_ws r3) as [|q r4] eqn:Ew3; [discriminate|].
      apply text_ok_tail in Hws3.
      destruct (q =? QUOTE); [|discriminate].
      now apply (IHo r4 ((key, value) :: ps)).
Qed.

(** [json.loads] returns well-formed values. *)
Theorem loads_wf s v : text_ok s = true -> loads s = Some v -> wf_json v = true.
Proof.
  intros Ht H. unfold loads in H.
  destruct (scan_once (S (length s)) (skip_ws s)) as [[v' r]|] eqn:E; [|discriminate].
  destruct (scan_wf (S (length s))) as [Hs _].
  destruct (Hs _ _ _ (text_ok_skip_ws _ Ht) E) as [Hw _].
  destruct (skip_ws r); [|discriminate]. now inversion H; subst.
Qed.

(** *** The encoder writes ASCII *)

Lemma all_ascii_app s t :
  forallb is_ascii s = true -> forallb is_ascii t = true ->
  forallb is_ascii (s ++ t) = true.
Proof. intros Hs Ht. now rewrite forallb_app, Hs, Ht. Qed.

Lemma digits_ascii s : forallb is_digit s = true -> forallb is_ascii s = true.
Proof.
  induction s as [|c s IH]; cbn; [reflexivity|].
  intro H. apply andb_true_iff in H as [Hc Hs].
  apply is_digit_range in Hc. rewrite (IH Hs), andb_true_r.
  apply N.ltb_lt. lia.
Qed.

(** An ASCII text is a well-formed string. *)
Lemma ascii_wf_str s : forallb is_ascii s = true -> wf_str s = true.
Proof.
  induction s as [|c s IH]; [reflexivity|].
  cbn [forallb wf_str]. intro H. apply andb_true_iff in H as [Hc Hs].
  apply N.ltb_lt in Hc. rewrite (IH Hs), andb_true_r.
  apply andb_true_iff. split; [apply N.ltb_lt; lia|].
  unfold is_high_surrogate.
  replace (0xd800 <=? c) with false by (symmetry; apply N.leb_gt; lia).
  reflexivity.
Qed.

Lemma hexdigit_ascii n : is_ascii (hexdigit (N.land n 15)) = true.
Proof.
  assert (H : N.land n 15 < 16).
  { change 15 with (N.ones 4). rewrite N.land_ones. now apply N.mod_lt. }
  unfold hexdigit, is_ascii. destruct (N.land n 15 <? 10); apply N.ltb_lt; lia.
Qed.

Lemma format_04x_ascii n : forallb is_ascii (format_04x n) = true.
Proof.
  unfold format_04x. cbn [forallb]. now rewrite !hexdigit_ascii.
Qed.

Lemma escape_char_ascii c : forallb is_ascii (escape_char c) = true.
Proof.
  unfold escape_char.
  destruct ((32 <=? c) && (c <=? 126) && negb (c =? BACKSLASH) && negb (c =? QUOTE))
    eqn:Hp.
  - cbn [forallb]. rewrite andb_true_r.
    apply andb_true_iff in Hp as [Hp _]. apply andb_true_iff in Hp as [Hp _].
    apply andb_true_iff in Hp as [_ Hp]. apply N.leb_le in Hp.
    apply N.ltb_lt. lia.
  - repeat match goal with
           | |- context [if ?b then _ else _] => destruct b
           end;
      try reflexivity;
      change (BACKSLASH :: ord "u" :: ?x) with ([BACKSLASH; ord "u"] ++ x);
      repeat apply all_ascii_app; try reflexivity; apply format_04x_ascii.
Qed.

Lemma encode_basestring_ascii_ascii s :
  forallb is_ascii (encode_basestring_ascii s) = true.
Proof.
  unfold encode_basestring_ascii.
  change (QUOTE :: ?x) with ([QUOTE] ++ x).
  repeat apply all_ascii_app; try reflexivity.
  induction s as [|c s IH]; [reflexivity|].
  cbn [flat_map]. apply all_ascii_app; [apply escape_char_ascii|exact IH].
Qed.

Lemma int_repr_ascii z : forallb is_ascii (int_repr z) = true.
Proof.
  unfold int_repr. destruct (Z.to_int z); cbn [forallb];
    rewrite ?andb_true_l; apply digits_ascii, chars_of_uint_digits.
Qed.

Lemma format_exp_ascii e : forallb is_ascii (format_exp e) = true.
Proof.
  unfold format_exp.
  assert (H : forallb is_ascii (pad2 (chars_of_uint (N.to_uint (Z.abs_N e)))) = true).
  { pose proof (chars_of_uint_digits (N.to_uint (Z.abs_N e))) as Hd.
    apply digits_ascii in Hd. unfold pad2.
    destruct (chars_of_uint _) as [|a [|b l]]; exact Hd. }
  cbn [forallb]. rewrite H. now destruct (e <? 0)%Z.
Qed.

Lemma all_ascii_cons c s :
  is_ascii c = true -> forallb is_ascii s = true -> forallb is_ascii (c :: s) = true.
Proof. intros Hc Hs. cbn [forallb]. now rewrite Hc, Hs. Qed.

Ltac all_ascii :=
  repeat first [ reflexivity | assumption
               | apply all_ascii_cons | apply all_ascii_app ].

Lemma format_float_short_ascii digits decpt :
  forallb is_digit digits = true ->
  forallb is_ascii (format_float_short digits decpt) = true.
Proof.
  intro Hd. pose proof (digits_ascii _ Hd) as Ha.
  pose proof (format_exp_ascii (decpt - 1)) as He.
  pose proof (fun n => digits_ascii _ (zeros_digits n)) as Hz.
  unfold format_float_short.
  destruct ((decpt <=? -4) || (16 <? decpt))%Z.
  - destruct digits as [|d [|d' ds]]; [reflexivity| |];
      cbn [forallb] in Ha; apply andb_true_iff in Ha as [Hd0 Ha]; all_ascii.
    all: cbn [forallb] in Ha; apply andb_true_iff in Ha; tauto.
  - destruct (decpt <=? 0)%Z; [all_ascii; apply Hz|].
    destruct (decpt <? Z.of_nat (length digits))%Z.
    + all_ascii; [now apply forallb_firstn|now apply forallb_skipn].
    + all_ascii. apply Hz.
Qed.

Lemma floatstr_ascii f : wf_float f = true -> forallb is_ascii (floatstr f) = true.
Proof.
  destruct f as [|[]|neg digits decpt]; try reflexivity.
  cbn [wf_float floatstr float_repr]. intro H. apply andb_true_iff in H as [Hd _].
  apply all_ascii_app; [now destruct neg|now apply format_float_short_ascii].
Qed.

Lemma join_ascii sep parts :
  forallb is_ascii sep = true -> Forall (fun p => forallb is_ascii p = true) parts ->
  forallb is_ascii (join sep parts) = true.
Proof.
  intros Hsep H. induction H as [|p ps Hp Hps IH]; [reflexivity|].
  destruct ps as [|q ps]; [exact Hp|].
  change (join sep (p :: q :: ps)) with (p ++ sep ++ join sep (q :: ps)).
  now repeat apply all_ascii_app.
Qed.

(** With [ensure_ascii], every character of the text [json.dumps] returns is
    ASCII. *)
Lemma dumps_ascii v : wf_json v = true -> forallb is_ascii (dumps v) = true.
Proof.
  induction v as [| b | z | f | s | l IH | d IH] using json_rect'; intro Hwf.
  - reflexivity.
  - now destruct b.
  - apply int_repr_ascii.
  - now apply floatstr_ascii.
  - apply encode_basestring_ascii_ascii.
  - cbn [dumps]. change (ord "[" :: ?x) with ([ord "["] ++ x).
    repeat apply all_ascii_app; try reflexivity.
    apply join_ascii; [reflexivity|].
    cbn [wf_json] in Hwf. rewrite forallb_forall in Hwf.
    apply Forall_map. rewrite Forall_forall in IH |- *.
    intros x Hx. apply IH; auto.
  - cbn [dumps]. change (ord "{" :: ?x) with ([ord "{"] ++ x).
    repeat apply all_ascii_app; try reflexivity.
    apply join_ascii; [reflexivity|].
    cbn [wf_json] in Hwf. apply andb_true_iff in Hwf as [_ Hwf].
    rewrite forallb_forall in Hwf.
    apply Forall_map. rewrite Forall_forall in IH |- *.
    intros [k x] Hx. specialize (IH _ Hx). specialize (Hwf _ Hx). cbn in IH, Hwf.
    apply andb_true_iff in Hwf as [_ Hwf].
    apply all_ascii_app; [apply encode_basestring_ascii_ascii|].
    apply all_ascii_app; [reflexivity|auto].
Qed.

End JsonFacts.

(* ------------------------------------------------------------------------- *)
(** ** Facts about the runtime *)
(* ------------------------------------------------------------------------- *)

Module RuntimeFacts.
Import Py JsonString JsonValue Json Runtime PyFacts JsonStringFacts JsonValueFacts JsonFacts.
Local Open Scope monad_scope.

(** *** Decoded text holds scalar values only *)

Lemma land_ones_lt x k : (N.land x (N.ones k) < 2 ^ k)%N.
Proof. rewrite N.land_ones. apply N.mod_lt. apply N.pow_nonzero. discriminate. Qed.

Lemma low6_lt b : (low6 b < 64)%N.
Proof. unfold low6. change 0x3f%N with (N.ones 6). apply (land_ones_lt _ 6). Qed.

Lemma scalar_value_intro c :
  (c < 0xd800 \/ 0xdfff < c < 0x110000)%N -> scalar_value c = true.
Proof.
  intro H. unfold scalar_value. apply andb_true_iff. split.
  - apply N.ltb_lt. lia.
  - apply negb_true_iff. apply andb_false_iff.
    destruct H as [H|H]; [left|right]; apply N.leb_gt; lia.
Qed.

Lemma decode_utf8_ok : forall n bs s,
  (length bs <= n)%nat -> decode_utf8 bs = Some s -> text_ok s = true.
Proof.
  induction n as [|n IH]; intros bs s Hn H.
  { destruct bs; [now inversion H|cbn in Hn; lia]. }
  destruct bs as [|b0 r]; [now inversion H|]. cbn [length] in Hn.
  cbn [decode_utf8] in H. cbv zeta in H.
  assert (Hstep : forall cp r' , (length r' <= n)%nat -> scalar_value cp = true ->
             option_map (cons cp) (decode_utf8 r') = Some s -> text_ok s = true).
  { intros cp r' Hr Hcp E. destruct (decode_utf8 r') as [s'|] eqn:Es; [|discriminate].
    inversion E; subst. cbn [text_ok forallb]. rewrite Hcp. cbn [andb].
    now apply (IH r'). }
  destruct (N.ltb_spec (Byte.to_N b0) 0x80).
  { refine (Hstep _ r _ _ H); [lia|]. apply scalar_value_intro. lia. }
  destruct (Byte.to_N b0 <? 0xC2)%N; [discriminate|].
  destruct (Byte.to_N b0 <? 0xE0)%N.
  { destruct r as [|b1 r']; [discriminate|].
    destruct (is_continuation b1); [|discriminate].
    refine (Hstep _ r' _ _ H); [cbn [length] in Hn; lia|].
    apply scalar_value_intro. left.
    rewrite N.shiftl_mul_pow2, lor_add_low by apply low6_lt.
    pose proof (land_ones_lt (Byte.to_N b0) 5) as Ha.
    change (N.ones 5) with 0x1f%N in Ha. pose proof (low6_lt b1).
    change (2 ^ 6)%N with 64%N. change (2 ^ 5)%N with 32%N in Ha. lia. }
  destruct (Byte.to_N b0 <? 0xF0)%N.
  { destruct r as [|b1 [|b2 r']]; try discriminate.
    match type of H with
    | (if ?c then _ else _) = _ => destruct c eqn:Ec; [|discriminate]
    end.
    apply andb_true_iff in Ec as [Ec Hns]. apply andb_true_iff in Ec as [Ec Hlo].
    refine (Hstep _ r' _ _ H); [cbn [length] in Hn; lia|].
    unfold scalar_value. rewrite Hns, andb_true_r. apply N.ltb_lt.
    rewrite !N.shiftl_mul_pow2.
    rewrite (@lor_add_low (low6 b1) (low6 b2) 6) by apply low6_lt.
    pose proof (land_ones_lt (Byte.to_N b0) 4) as Ha.
    change (N.ones 4) with 0x0f%N in Ha.
    pose proof (low6_lt b1). pose proof (low6_lt b2).
    rewrite lor_add_low by (change (2 ^ 12)%N with 4096%N; change (2 ^ 6)%N with 64%N; lia).
    change (2 ^ 12)%N with 4096%N. change (2 ^ 6)%N with 64%N.
    change (2 ^ 4)%N with 16%N in Ha. lia. }
  destruct (Byte.to_N b0 <? 0xF5)%N; [|discriminate].
  destruct r as [|b1 [|b2 [|b3 r']]]; try discriminate.
  match type of H with
  | (if ?c then _ else _) = _ => destruct c eqn:Ec; [|discriminate]
  end.
  apply andb_true_iff in Ec as [Ec Hhi]. apply andb_true_iff in Ec as [Ec Hlo].
  apply N.leb_le in Hhi, Hlo.
  refine (Hstep _ r' _ _ H); [cbn [length] in Hn; lia|].
  apply scalar_value_intro. right. lia.
Qed.

End RuntimeFacts.

(* ------------------------------------------------------------------------- *)
(** ** The operations in one step *)
(* ------------------------------------------------------------------------- *)

Module ClientFacts.
Import Py JsonString JsonValue Json Runtime Router Client PyFacts JsonStringFacts JsonValueFacts JsonFacts RuntimeFacts.

(** [api_request] in one step: one connection, one request on it, the
    connection closed, and the result by the outcome of the exchange. *)
Lemma api_request_run E w method path body :
  api_request method path body E w
  = (api_result (server E (request_of E method path body)),
     after_exchange E w (request_of E method path body)).
Proof.
  unfold api_request, create_connection, after_exchange, uses_tls, api_result.
  unfold try_finally, try_except, bind, ask.
  change (match body with
          | Some b => if truthy b then Some (dumps b) else None
          | None => None
          end) with (req_body (request_of E method path body)).
  set (r := request_of E method path body).
  destruct (str_eqb (scheme (API_URL_parsed E)) (py "https"));
    unfold new_connection, conn_request, conn_getresponse, conn_close;
    cbn [trace next_conn open_conns inflight stdout lookup_conn];
    change {| req_method := method; req_path := path; req_body := req_body r;
              req_headers := [ (py "Authorization", py "Bearer " ++ API_KEY E);
                               (py "Content-Type", py "application/json") ] |}
      with r;
    (destruct (server E r) as [e|e|st e|st body'];
     cbn [trace next_conn open_conns inflight stdout lookup_conn];
     rewrite ?Nat.eqb_refl;
     unfold response_read, decode, json_loads, raise, ret; cbn [content status];
     try (destruct (decode_utf8 body') as [text|]; [destruct (loads text)|]);
     cbn [trace next_conn open_conns inflight stdout];
     rewrite <- !app_assoc; reflexivity).
Qed.

Lemma print_run line E w : print line E w = (Return tt, printed w [line]).
Proof. reflexivity. Qed.

Lemma printed_printed w a b : printed (printed w a) b = printed w (a ++ b).
Proof. unfold printed; cbn. now rewrite <- app_assoc. Qed.

Lemma after_exchange_printed E w ls r :
  after_exchange E (printed w ls) r = printed (after_exchange E w r) ls.
Proof. reflexivity. Qed.

Lemma bind_run A B (m : M A) (k : A -> M B) E w :
  bind m k E w
  = match m E w with
    | (Return a, w') => k a E w'
    | (Raise e, w') => (Raise e, w')
    end.
Proof. reflexivity. Qed.

(** Running a sequence of binds and prints. *)
Ltac run :=
  repeat first [ rewrite bind_run | rewrite print_run | rewrite printed_printed
               | progress (cbv beta iota) ].

Lemma py_len_run v E w :
  py_len v E w = (match sized v with Some n => Return n | None => Raise TypeError end, w).
Proof. destruct v; reflexivity. Qed.

(** [create_router] by the outcome of its exchange. *)
Lemma create_router_run name routes default_model n E w :
  sized routes = Some n ->
  let r := request_of E (py "POST") (py "/model/new")
             (Some (payload name routes default_model)) in
  let w1 := after_exchange E (printed w (created_lines name default_model n)) r in
  create_router name routes default_model E w
  = match api_result (server E r) with
    | Raise e => (Raise e, w1)
    | Return (st, response) =>
        if (st =? 200)%Z then
          match response with
          | JDict d =>
              (Return true,
               printed w1
                 [ [Lit (CHECK_MARK :: py " Router '"); Lit name;
                    Lit (py "' created successfully!")];
                   [Lit (py "   Model ID: ");
                    Fmt (match dict_lookup d (py "model_id") with
                         | Some x => x
                         | None => JStr (py "N/A")
                         end)] ])
          | _ =>
              (Raise AttributeError,
               printed w1
                 [ [Lit (CHECK_MARK :: py " Router '"); Lit name;
                    Lit (py "' created successfully!")] ])
          end
        else
          (Return false,
           printed w1
             [ [Lit (CROSS_MARK :: py " Failed to create router")];
               [Lit (py "   Status: "); Lit (int_repr st)];
               [Lit (py "   Error: ");
                Lit (firstn 500 (dumps_indent 2 0 response))] ])
    end.
Proof.
  intros Hn r w1. unfold create_router.
  run. rewrite py_len_run, Hn. run. rewrite api_request_run. fold r.
  change (after_exchange E (printed w _) r) with w1.
  destruct (api_result (server E r)) as [[st response]|e]; [|reflexivity].
  run. destruct (st =? 200)%Z; run; [|reflexivity].
  destruct response; try reflexivity.
  cbn [py_get]. unfold ret. run. reflexivity.
Qed.

(** [delete_model] by the outcome of its exchange. *)
Lemma delete_model_run model_id E w :
  let r := request_of E (py "POST") (py "/model/delete")
             (Some (JDict [(py "id", JStr model_id)])) in
  let w1 := after_exchange E
              (printed w [[Lit (NEWLINE :: py "Deleting model: "); Lit model_id]]) r in
  delete_model model_id E w
  = match api_result (server E r) with
    | Raise e => (Raise e, w1)
    | Return (st, response) =>
        if (st =? 200)%Z then
          (Return tt,
           printed w1 [[Lit (CHECK_MARK :: py " Model deleted successfully!")]])
        else
          (Return tt,
           printed w1
             [ [Lit (CROSS_MARK :: py " Failed to delete model: "); Lit (int_repr st)];
               [Fmt response] ])
    end.
Proof.
  intros r w1. unfold delete_model.
  run. rewrite api_request_run. fold r. fold w1.
  destruct (api_result (server E r)) as [[st response]|e]; [|reflexivity].
  run. destruct (st =? 200)%Z; run; reflexivity.
Qed.

End ClientFacts.

(* ------------------------------------------------------------------------- *)
(** ** The specified properties *)
(* ------------------------------------------------------------------------- *)

Module RouterSpec.
Import Py JsonString JsonValue Json Runtime Router Client Scenarios PyFacts JsonStringFacts JsonValueFacts JsonFacts RuntimeFacts ClientFacts.

(** *** The HTTP client *)

(** C2, as the code has it.  For every response whose body is valid UTF-8,
    whatever the status, [api_request] returns and does not raise: with the
    status comes either the value decoded from the text or [{"raw": text}],
    and it is [{"raw": text}] whenever the text is not JSON.  The decoded
    value is not promised for every text that is JSON: the bare [except]
    answers [{"raw": text}] as well when [json.loads] gives up on a text of
    the grammar, one nested deeper than the interpreter's recursion limit or
    holding an integer beyond its digit limit. *)
Theorem api_request_decodes E w method path body st data text :
  server E (request_of E method path body) = Responds st data ->
  decode_utf8 data = Some text ->
  exists v,
    fst (api_request method path body E w) = Return (st, v)
    /\ (v = JDict [(py "raw", JStr text)] \/ loads text = Some v)
    /\ (loads text = None -> v = JDict [(py "raw", JStr text)]).
Proof.
  intros Hs Hd. rewrite api_request_run. cbn [fst]. rewrite Hs.
  cbn [api_result]. rewrite Hd.
  destruct (loads text) as [x|].
  - exists x. split; [reflexivity|]. split; [now right|discriminate].
  - eexists. split; [reflexivity|]. split; [now left|reflexivity].
Qed.

Lemma api_request_decodes_witness :
  server (gateway (Responds 502 (ascii_bytes (py "Bad Gateway"))))
         (request_of (gateway (Responds 502 (ascii_bytes (py "Bad Gateway"))))
                     (py "GET") (py "/model/info") None)
  = Responds 502 (ascii_bytes (py "Bad Gateway"))
  /\ decode_utf8 (ascii_bytes (py "Bad Gateway")) = Some (py "Bad Gateway")
  /\ fst (api_request (py "GET") (py "/model/info") None
            (gateway (Responds 502 (ascii_bytes (py "Bad Gateway")))) initial)
     = Return (502%Z, JDict [(py "raw", JStr (py "Bad Gateway"))]).
Proof.
  split; [reflexivity|]. split; [reflexivity|].
  destruct (@api_request_decodes
              (gateway (Responds 502 (ascii_bytes (py "Bad Gateway")))) initial
              (py "GET") (py "/model/info") None 502%Z
              (ascii_bytes (py "Bad Gateway")) (py "Bad Gateway") eq_refl eq_refl)
    as (v & Hv & _ & Hraw).
  rewrite Hv, (Hraw eq_refl). reflexivity.
Defined.

(** C2 as stated fails: a body that is not valid UTF-8 is not valid JSON, yet
    the client raises [UnicodeDecodeError] instead of returning the raw text. *)
Lemma api_request_raises_on_undecodable_body :
  fst (api_request (py "GET") (py "/model/info") None
         (gateway (Responds 502 [xff])) initial)
  = Raise UnicodeDecodeError.
Proof. reflexivity. Qed.

(** C9.  Every call of [api_request] opens one connection and closes it: in
    the world it leaves, whatever the outcome of the exchange (a decoded
    body, the raw fallback, or a fault while sending, waiting or reading), the
    connection is not open, the connections open before are untouched, and
    the events of the call are the connection, the request and the close. *)
Theorem api_request_closes_connection E w method path body :
  let w' := snd (api_request method path body E w) in
  let c := next_conn w in
  ~ In c (open_conns w')
  /\ open_conns w' = filter (fun c' => negb (Nat.eqb c' c)) (open_conns w)
  /\ trace w' = trace w ++ [ Connect c (uses_tls E) (netloc (API_URL_parsed E));
                            Request c (request_of E method path body);
                            Close c ].
Proof.
  rewrite api_request_run. cbn [snd after_exchange open_conns trace filter].
  rewrite Nat.eqb_refl. cbn [negb]. repeat split.
  intro Hin. apply filter_In in Hin as [_ Hin].
  now rewrite Nat.eqb_refl in Hin.
Qed.

(** [create_router] sends one request, with the payload as its body, once the
    length of [routes] is taken. *)
Lemma create_router_trace name routes default_model n E w :
  sized routes = Some n ->
  trace (snd (create_router name routes default_model E w))
  = trace w ++ exchange E w (request_of E (py "POST") (py "/model/new")
                               (Some (payload name routes default_model))).
Proof.
  intro Hn. rewrite (@create_router_run name routes default_model n E w Hn).
  destruct (api_result _) as [[st response]|e]; [|reflexivity].
  destruct (st =? 200)%Z; [destruct response|]; reflexivity.
Qed.

Lemma request_of_payload E name routes default_model :
  req_body (request_of E (py "POST") (py "/model/new")
              (Some (payload name routes default_model)))
  = Some (dumps (payload name routes default_model)).
Proof. reflexivity. Qed.

(** The configuration object and the payload are well formed when their
    parts are. *)
Lemma routes_config_wf routes :
  wf_json routes = true -> wf_json (JDict [(py "routes", routes)]) = true.
Proof.
  intro Hwf. cbn [wf_json map fst nodup_keys existsb forallb negb andb].
  change (wf_str (py "routes")) with true. cbn [andb]. now rewrite Hwf.
Qed.

Lemma wf_str_ascii_app a s :
  forallb is_ascii a = true -> wf_str s = true -> wf_str (a ++ s) = true.
Proof.
  intros Ha Hs. induction a as [|c a IH]; [exact Hs|].
  cbn [forallb] in Ha. apply andb_true_iff in Ha as [Hc Ha].
  apply N.ltb_lt in Hc.
  change ((c :: a) ++ s) with (c :: (a ++ s)). cbn [wf_str].
  rewrite (IH Ha), andb_true_r. apply andb_true_iff.
  split; [apply N.ltb_lt; lia|]. unfold is_high_surrogate.
  replace (0xd800 <=? c)%N with false by (symmetry; apply N.leb_gt; lia).
  reflexivity.
Qed.

Lemma payload_wf name routes default_model :
  wf_str name = true -> wf_str default_model = true -> wf_json routes = true ->
  wf_json (payload name routes default_model) = true.
Proof.
  intros Hname HD Hwf.
  pose proof (ascii_wf_str _ (dumps_ascii _ (routes_config_wf _ Hwf))) as Hcfg.
  pose proof (@wf_str_ascii_app (py "auto_router/") name eq_refl Hname) as Hmodel.
  unfold payload. cbn [wf_json forallb]. rewrite Hname, HD, Hcfg, Hmodel.
  reflexivity.
Qed.

(** C1.  For every list of routes [R] (values as the program holds them) and
    every default model [D], the request that [create_router] sends carries
    the serialized payload, which parses back to the payload; its
    [auto_router_config] is a string that parses to [{"routes": R}], the
    routes in their order, and its [auto_router_default_model] is [D]. *)
Theorem create_router_config_round_trip name R D E w :
  wf_json (JList R) = true ->
  let p := payload name (JList R) D in
  trace (snd (create_router name (JList R) D E w))
  = trace w ++ exchange E w (request_of E (py "POST") (py "/model/new") (Some p))
  /\ req_body (request_of E (py "POST") (py "/model/new") (Some p)) = Some (dumps p)
  /\ (wf_str name = true -> wf_str D = true -> loads (dumps p) = Some p)
  /\ (exists cfg,
        getpath p ["litellm_params"; "auto_router_config"]%string = Some (JStr cfg)
        /\ loads cfg = Some (JDict [(py "routes", JList R)]))
  /\ getpath p ["litellm_params"; "auto_router_default_model"]%string
     = Some (JStr D).
Proof.
  intros Hwf p. split; [|split; [|split; [|split]]].
  - now apply create_router_trace with (n := Z.of_nat (length R)).
  - reflexivity.
  - intros Hname HD. now apply loads_dumps, payload_wf.
  - exists (dumps (JDict [(py "routes", JList R)])). split; [reflexivity|].
    now apply loads_dumps, routes_config_wf.
  - reflexivity.
Qed.

Lemma create_router_config_round_trip_witness :
  wf_json (JList coding_routes) = true
  /\ exists cfg,
       getpath (payload (py "MyCoder") (JList coding_routes)
                        (py "mistral/codestral-2508"))
               ["litellm_params"; "auto_router_config"]%string = Some (JStr cfg)
       /\ loads cfg = Some (JDict [(py "routes", JList coding_routes)]).
Proof.
  assert (Hwf : wf_json (JList coding_routes) = true) by (vm_compute; reflexivity).
  split; [exact Hwf|].
  exact (proj1 (proj2 (proj2 (proj2
    (@create_router_config_round_trip (py "MyCoder") coding_routes
       (py "mistral/codestral-2508") (gateway (SendFails OSError)) initial Hwf))))).
Defined.

(** The hypothesis of the statement above is an invariant of the values the
    program passes to [create_router]: the routes of every preset are well
    formed, and so is what [json.load] returns for a routes file. *)
Lemma presets_routes_wf :
  forallb (fun kp : pystr * preset => wf_json (routes (snd kp))) PRESETS = true.
Proof. vm_compute. reflexivity. Qed.

(** The creation from a routes file: when the file holds a JSON array [R], the
    request sent carries a configuration string that parses to [{"routes": R}]
    and the default model given on the command line. *)
Lemma create_from_routes_file_round_trip name path D text R E w :
  files E path = Some text -> text_ok text = true ->
  loads text = Some (JList R) ->
  given (Some path) = true -> given (Some D) = true ->
  let p := payload name (JList R) D in
  trace (snd (main (Create name None (Some path) (Some D)) E w))
  = trace w ++ exchange E w (request_of E (py "POST") (py "/model/new") (Some p))
  /\ exists cfg,
       getpath p ["litellm_params"; "auto_router_config"]%string = Some (JStr cfg)
       /\ loads cfg = Some (JDict [(py "routes", JList R)]).
Proof.
  intros Hfile Htext Hload Hpath HD p.
  pose proof (loads_wf _ Htext Hload) as Hwf.
  split.
  - unfold main. change (given None) with false. cbv iota.
    rewrite Hpath, HD. cbn [negb].
    unfold load_json_file, json_loads. run. unfold ask. run.
    rewrite Hfile, Hload. unfold ret. run.
    destruct (create_router name (JList R) D E w) as [res w'] eqn:Ec.
    pose proof (@create_router_trace name (JList R) D (Z.of_nat (length R)) E w eq_refl)
      as Htr.
    rewrite Ec in Htr. cbn [snd] in Htr. now destruct res.
  - exists (dumps (JDict [(py "routes", JList R)])). split; [reflexivity|].
    now apply loads_dumps, routes_config_wf.
Qed.

(** C10.  Whatever the routes and the default model, the payload of the
    creation request has [litellm_params.model] equal to ["auto_router/"]
    followed by the router name and [auto_router_embedding_model] equal to
    ["mistral/mistral-embed"]; it is the body that [create_router] hands to the
    client. *)
Theorem create_router_model_fields name routes default_model E :
  let p := payload name routes default_model in
  getpath p ["litellm_params"; "model"]%string
  = Some (JStr (py "auto_router/" ++ name))
  /\ getpath p ["litellm_params"; "auto_router_embedding_model"]%string
     = Some (JStr (py "mistral/mistral-embed"))
  /\ req_body (request_of E (py "POST") (py "/model/new") (Some p)) = Some (dumps p)
  /\ forall w,
       trace (snd (create_router name routes default_model E w)) = trace w
       \/ trace (snd (create_router name routes default_model E w))
          = trace w ++ exchange E w (request_of E (py "POST") (py "/model/new") (Some p)).
Proof.
  intro p. repeat split. intro w.
  destruct (sized routes) as [n|] eqn:Hn.
  - right. now apply create_router_trace with (n := n).
  - left. unfold create_router. run. rewrite py_len_run, Hn. reflexivity.
Qed.

(** What [create_router] returns, by what [api_request] returned: [False]
    with the three failure lines on a status other than 200, the rendering of
    the body cut at 500 characters; [True] only on status 200. *)
Lemma create_router_false_on_failure name routes default_model n E w st response :
  sized routes = Some n ->
  fst (api_request (py "POST") (py "/model/new")
         (Some (payload name routes default_model)) E w) = Return (st, response) ->
  st <> 200%Z ->
  fst (create_router name routes default_model E w) = Return false
  /\ stdout (snd (create_router name routes default_model E w))
     = stdout w ++ created_lines name default_model n
       ++ [ [Lit (CROSS_MARK :: py " Failed to create router")];
            [Lit (py "   Status: "); Lit (int_repr st)];
            [Lit (py "   Error: "); Lit (firstn 500 (dumps_indent 2 0 response))] ]
  /\ (length (firstn 500 (dumps_indent 2 0 response)) <= 500)%nat.
Proof.
  intros Hn Hres Hst. rewrite api_request_run in Hres. cbn [fst] in Hres.
  rewrite (@create_router_run name routes default_model n E w Hn), Hres.
  apply Z.eqb_neq in Hst. rewrite Hst. cbn [fst snd printed stdout after_exchange].
  repeat split.
  - now rewrite <- app_assoc.
  - rewrite length_firstn. apply Nat.le_min_l.
Qed.

Lemma create_router_true_only_on_200 name routes default_model E w :
  fst (create_router name routes default_model E w) = Return true ->
  exists response,
    fst (api_request (py "POST") (py "/model/new")
           (Some (payload name routes default_model)) E w) = Return (200%Z, response).
Proof.
  rewrite api_request_run. cbn [fst].
  destruct (sized routes) as [n|] eqn:Hn.
  - rewrite (@create_router_run name routes default_model n E w Hn).
    destruct (api_result _) as [[st response]|e]; [|discriminate].
    destruct (Z.eqb_spec st 200) as [->|Hne]; [|discriminate].
    intros _. now exists response.
  - unfold create_router. run. rewrite py_len_run, Hn. discriminate.
Qed.

(** C4, where the code departs from it.  On a reply with status 200 whose body
    is JSON but not an object, [api_request] returns the decoded value and
    [create_router], after printing that the router was created, raises
    [AttributeError] on [response.get]: it does not return [True]. *)
Lemma create_router_raises_on_non_object_reply :
  fst (api_request (py "POST") (py "/model/new")
         (Some (payload (py "MyCoder") (JList coding_routes)
                        (py "mistral/codestral-2508")))
         (gateway (Responds 200 (ascii_bytes (py "[]")))) initial)
  = Return (200%Z, JList [])
  /\ fst (create_router (py "MyCoder") (JList coding_routes)
            (py "mistral/codestral-2508")
            (gateway (Responds 200 (ascii_bytes (py "[]")))) initial)
     = Raise AttributeError.
Proof. split; vm_compute; reflexivity. Qed.

(** *** Deleting a model *)

(** C7, as the code has it.  For every model identifier [m], [delete_model]
    makes one exchange: a POST to [/model/delete] whose body is the serialized
    [{"id": m}].  When the reply has a status [s] other than 200 and a body
    that is valid UTF-8, it returns normally after printing the failure line
    with [s] and then the response, which is the value decoded from the body
    or [{"raw": text}]. *)
Theorem delete_model_reports_failure m E w :
  let r := request_of E (py "POST") (py "/model/delete")
             (Some (JDict [(py "id", JStr m)])) in
  trace (snd (delete_model m E w)) = trace w ++ exchange E w r
  /\ req_method r = py "POST"
  /\ req_path r = py "/model/delete"
  /\ req_body r = Some (dumps (JDict [(py "id", JStr m)]))
  /\ forall s data text,
       server E r = Responds s data ->
       decode_utf8 data = Some text ->
       s <> 200%Z ->
       fst (delete_model m E w) = Return tt
       /\ exists response,
            (response = JDict [(py "raw", JStr text)] \/ loads text = Some response)
            /\ stdout (snd (delete_model m E w))
               = stdout w
                 ++ [ [Lit (NEWLINE :: py "Deleting model: "); Lit m];
                      [Lit (CROSS_MARK :: py " Failed to delete model: ");
                       Lit (int_repr s)];
                      [Fmt response] ].
Proof.
  intro r. rewrite delete_model_run. fold r.
  split; [|split; [reflexivity|split; [reflexivity|split; [reflexivity|]]]].
  - destruct (api_result (server E r)) as [[st response]|e]; [|reflexivity].
    destruct (st =? 200)%Z; reflexivity.
  - intros s data text Hs Hd Hne. rewrite Hs. cbn [api_result]. rewrite Hd.
    apply Z.eqb_neq in Hne.
    destruct (loads text) as [x|]; rewrite Hne;
      cbn [fst snd printed stdout after_exchange];
      (split; [reflexivity|]); eexists;
      (split; [|now rewrite <- app_assoc]); [now right|now left].
Qed.

Lemma delete_model_reports_failure_witness :
  fst (delete_model (py "xyz") (gateway (Responds 404 (ascii_bytes (py "Not Found"))))
         initial) = Return tt
  /\ stdout (snd (delete_model (py "xyz")
                    (gateway (Responds 404 (ascii_bytes (py "Not Found")))) initial))
     = [ [Lit (NEWLINE :: py "Deleting model: "); Lit (py "xyz")];
         [Lit (CROSS_MARK :: py " Failed to delete model: "); Lit (py "404")];
         [Fmt (JDict [(py "raw", JStr (py "Not Found"))])] ].
Proof.
  destruct (proj2 (proj2 (proj2 (proj2
    (@delete_model_reports_failure (py "xyz")
       (gateway (Responds 404 (ascii_bytes (py "Not Found")))) initial))))
    404%Z (ascii_bytes (py "Not Found")) (py "Not Found") eq_refl eq_refl
    ltac:(discriminate)) as (Hret & response & [->|Hl] & Hout).
  - exact (conj Hret Hout).
  - discriminate Hl.
Defined.

(** C7 as stated fails: on a reply with status 404 whose body is not valid
    UTF-8, [delete_model] raises [UnicodeDecodeError] instead of reporting the
    failure. *)
Lemma delete_model_raises_on_undecodable_body :
  fst (delete_model (py "xyz") (gateway (Responds 404 [xff])) initial)
  = Raise UnicodeDecodeError
  /\ stdout (snd (delete_model (py "xyz") (gateway (Responds 404 [xff])) initial))
     = [ [Lit (NEWLINE :: py "Deleting model: "); Lit (py "xyz")] ].
Proof. split; reflexivity. Qed.

(** C5.  The catalog has the presets [coding], [reasoning], [quick] and
    [creative]; each has a list of routes that is not empty and a default
    model that is not the empty string, and the [score_threshold] of each of
    its routes lies between 0 and 1. *)
Theorem presets_well_formed :
  map fst PRESETS = [py "coding"; py "reasoning"; py "quick"; py "creative"]
  /\ Forall (fun kp => preset_ok (snd kp)) PRESETS.
Proof.
  split; [reflexivity|].
  unfold PRESETS.
  repeat (apply Forall_cons || apply Forall_nil);
    (eexists; split; [reflexivity|]; split; [discriminate|];
     split; [discriminate|];
     repeat (apply Forall_cons || apply Forall_nil);
     (eexists; eexists; split; [reflexivity|]; split; [reflexivity|];
      split; vm_compute; discriminate)).
Qed.

(** *** The dispatcher *)

Lemma main_preset name preset routes default p E w :
  given preset = true ->
  presets_lookup PRESETS (match preset with Some k => k | None => [] end) = Some p ->
  main (Create name preset routes default) E w
  = bind (create_router name (Router.routes p) (default_model p))
         (fun _ => ret tt) E w.
Proof. intros Hg Hp. unfold main. now rewrite Hg, Hp. Qed.

(** C3, as the code has it.  When a preset is supplied it is used, whether or
    not a routes file is supplied as well: the run is the one of the same
    invocation without [--routes] and [--default], the creation of a router
    from the preset.  When neither is supplied, the dispatcher prints the
    error line, makes no network call and returns. *)
Theorem create_preset_or_routes name preset routes default E w :
  if given preset then
    main (Create name preset routes default) E w
    = main (Create name preset None None) E w
    /\ forall k p, preset = Some k -> presets_lookup PRESETS k = Some p ->
       main (Create name preset routes default) E w
       = bind (create_router name (Router.routes p) (default_model p))
              (fun _ => ret tt) E w
  else if given routes then True
  else
    fst (main (Create name preset routes default) E w) = Return tt
    /\ trace (snd (main (Create name preset routes default) E w)) = trace w
    /\ stdout (snd (main (Create name preset routes default) E w))
       = stdout w ++ [usage_source].
Proof.
  destruct (given preset) eqn:Hp.
  - split; [unfold main; now rewrite Hp|].
    intros k p -> Hk. now apply main_preset.
  - destruct (given routes) eqn:Hr; [trivial|].
    unfold main. rewrite Hp, Hr. repeat split.
Qed.

(** C3 as stated fails: with both a preset and a routes file supplied, no
    error is reported and the creation request is sent. *)
Lemma create_with_preset_and_routes_calls_gateway :
  let run := main (Create (py "X") (Some (py "coding")) (Some (py "routes.json"))
                     (Some (py "m")))
               (gateway (Responds 200 (ascii_bytes (pyq "{'model_id':'1'}")))) initial in
  fst run = Return tt
  /\ trace (snd run)
     = exchange (gateway (Responds 200 (ascii_bytes (pyq "{'model_id':'1'}")))) initial
         (request_of (gateway (Responds 200 (ascii_bytes (pyq "{'model_id':'1'}"))))
            (py "POST") (py "/model/new")
            (Some (payload (py "X") (JList coding_routes)
                           (py "mistral/codestral-2508"))))
  /\ ~ In usage_source (stdout (snd run)).
Proof.
  cbv zeta. split; [vm_compute; reflexivity|].
  split; [vm_compute; reflexivity|].
  vm_compute. intuition discriminate.
Qed.

(** C8, as the code has it.  When no preset is supplied, a routes file is
    supplied and no default model is, the dispatcher prints the usage line,
    makes no network call (the routes file is not read either) and returns. *)
Theorem create_routes_requires_default name preset routes default E w :
  given preset = false -> given routes = true -> given default = false ->
  fst (main (Create name preset routes default) E w) = Return tt
  /\ trace (snd (main (Create name preset routes default) E w)) = trace w
  /\ stdout (snd (main (Create name preset routes default) E w))
     = stdout w ++ [usage_default].
Proof.
  intros Hp Hr Hd. unfold main. rewrite Hp, Hr, Hd. repeat split.
Qed.

Lemma create_routes_requires_default_witness :
  given None = false /\ given (Some (py "f.json")) = true /\ given None = false
  /\ trace (snd (main (Create (py "X") None (Some (py "f.json")) None)
                   (gateway (SendFails OSError)) initial)) = []
  /\ stdout (snd (main (Create (py "X") None (Some (py "f.json")) None)
                    (gateway (SendFails OSError)) initial)) = [usage_default].
Proof.
  do 3 (split; [reflexivity|]).
  exact (proj2 (@create_routes_requires_default (py "X") None (Some (py "f.json"))
                  None (gateway (SendFails OSError)) initial
                  eq_refl eq_refl eq_refl)).
Defined.

(** C8 as stated fails: with a routes file and no default model, but a preset
    supplied as well, no usage error is printed and the creation request is
    sent. *)
Lemma create_routes_without_default_but_preset_calls_gateway :
  let run := main (Create (py "X") (Some (py "quick")) (Some (py "f.json")) None)
               (gateway (Responds 200 (ascii_bytes (pyq "{'model_id':'1'}")))) initial in
  (exists c r, In (Request c r) (trace (snd run)) /\ req_path r = py "/model/new")
  /\ ~ In usage_default (stdout (snd run)).
Proof.
  cbv zeta. split.
  - eexists; eexists. split; [vm_compute; right; left; reflexivity|reflexivity].
  - vm_compute. intuition discriminate.
Qed.

Lemma presets_coding :
  presets_lookup PRESETS (py "coding")
  = Some {| default_model := py "mistral/codestral-2508";
            routes := JList coding_routes |}.
Proof. reflexivity. Qed.

Lemma coding_payload_wf : wf_json coding_payload = true.
Proof. vm_compute. reflexivity. Qed.

(** C6.  The invocation [create MyCoder --preset coding] makes one exchange,
    a POST to [/model/new]; the body parses to an object with [model_name]
    ["MyCoder"], default model ["mistral/codestral-2508"] and a configuration
    string that parses to three routes.  When the gateway answers 200 with the
    body [{"model_id":"abc123"}], [create_router] returns [True] and the lines
    printed end with the success line and the identifier [abc123]. *)
Theorem create_mycoder_from_coding_preset E w :
  let a := Create (py "MyCoder") (Some (py "coding")) None None in
  let r := request_of E (py "POST") (py "/model/new") (Some coding_payload) in
  trace (snd (main a E w)) = trace w ++ exchange E w r
  /\ req_method r = py "POST"
  /\ req_path r = py "/model/new"
  /\ (exists body p cfg rs,
        req_body r = Some body
        /\ loads body = Some p
        /\ getpath p ["model_name"]%string = Some (JStr (py "MyCoder"))
        /\ getpath p ["litellm_params"; "auto_router_default_model"]%string
           = Some (JStr (py "mistral/codestral-2508"))
        /\ getpath p ["litellm_params"; "auto_router_config"]%string
           = Some (JStr cfg)
        /\ loads cfg = Some (JDict [(py "routes", JList rs)])
        /\ length rs = 3%nat)
  /\ (server E r = Responds 200 (ascii_bytes (pyq "{'model_id':'abc123'}")) ->
      fst (main a E w) = Return tt
      /\ fst (create_router (py "MyCoder") (JList coding_routes)
                (py "mistral/codestral-2508") E w) = Return true
      /\ stdout (snd (main a E w))
         = stdout w
           ++ created_lines (py "MyCoder") (py "mistral/codestral-2508") 3
           ++ [ [Lit (CHECK_MARK :: py " Router '"); Lit (py "MyCoder");
                 Lit (py "' created successfully!")];
                [Lit (py "   Model ID: "); Fmt (JStr (py "abc123"))] ]).
Proof.
  intros a r.
  assert (Hmain : main a E w
                  = bind (create_router (py "MyCoder") (JList coding_routes)
                            (py "mistral/codestral-2508"))
                         (fun _ => ret tt) E w).
  { apply (@main_preset (py "MyCoder") (Some (py "coding")) None None _ E w eq_refl
             presets_coding). }
  assert (Hrun := @create_router_run (py "MyCoder") (JList coding_routes)
                    (py "mistral/codestral-2508") 3 E w eq_refl).
  cbv zeta in Hrun. fold coding_payload in Hrun. fold r in Hrun.
  rewrite Hmain, bind_run, Hrun. clear Hmain Hrun.
  split; [|split; [reflexivity|split; [reflexivity|split]]].
  - destruct (api_result (server E r)) as [[st response]|e]; [|reflexivity].
    destruct (st =? 200)%Z; [destruct response|]; reflexivity.
  - exists (dumps coding_payload), coding_payload,
      (dumps (JDict [(py "routes", JList coding_routes)])), coding_routes.
    split; [reflexivity|]. split; [apply loads_dumps, coding_payload_wf|].
    do 3 (split; [reflexivity|]).
    split; [apply loads_dumps; vm_compute; reflexivity|reflexivity].
  - intro Hs. rewrite Hs.
    change (api_result (Responds 200 (ascii_bytes (pyq "{'model_id':'abc123'}"))))
      with (Return (200%Z, JDict [(py "model_id", JStr (py "abc123"))])).
    cbv beta iota. change (200 =? 200)%Z with true. cbv beta iota.
    change (dict_lookup [(py "model_id", JStr (py "abc123"))] (py "model_id"))
      with (Some (JStr (py "abc123"))). cbv beta iota.
    unfold ret. cbn [fst snd printed stdout after_exchange].
    repeat split. now rewrite <- app_assoc.
Qed.

Lemma create_mycoder_from_coding_preset_witness :
  let E := gateway (Responds 200 (ascii_bytes (pyq "{'model_id':'abc123'}"))) in
  let a := Create (py "MyCoder") (Some (py "coding")) None None in
  server E (request_of E (py "POST") (py "/model/new") (Some coding_payload))
  = Responds 200 (ascii_bytes (pyq "{'model_id':'abc123'}"))
  /\ fst (main a E initial) = Return tt
  /\ fst (create_router (py "MyCoder") (JList coding_routes)
            (py "mistral/codestral-2508") E initial) = Return true.
Proof.
  cbv zeta. split; [reflexivity|].
  pose proof (proj2 (proj2 (proj2 (proj2
    (@create_mycoder_from_coding_preset
       (gateway (Responds 200 (ascii_bytes (pyq "{'model_id':'abc123'}"))))
       initial)))) eq_refl) as H.
  exact (conj (proj1 H) (proj1 (proj2 H))).
Defined.

End RouterSpec.

(* ------------------------------------------------------------------------- *)
(** ** Facts about the indented rendering *)
(* ------------------------------------------------------------------------- *)

Module IndentFacts.
Import Py JsonString JsonValue Json Indent.
Import PyFacts JsonStringFacts JsonValueFacts JsonFacts.
Local Open Scope N_scope.

Lemma skip_ws_spaces k s : skip_ws (repeat 32 k ++ s) = skip_ws s.
Proof. induction k as [|k IH]; [reflexivity|]. cbn [repeat app]. exact IH. Qed.

Lemma skip_ws_newline_indent n level s :
  skip_ws (newline_indent n level ++ s) = skip_ws s.
Proof. unfold newline_indent. cbn [app]. apply skip_ws_spaces. Qed.

Lemma delim_newline_indent n level s : delim (newline_indent n level ++ s) = true.
Proof. reflexivity. Qed.

Lemma dumps_indent_head n level v :
  wf_json v = true -> value_start (dumps_indent n level v).
Proof.
  destruct v as [| b | z | f | s | [|e l] | [|kv d]]; intro Hwf;
    try (now apply dumps_head); split; reflexivity.
Qed.

Lemma join_nonempty_start sep (f : json -> pystr) e l tl :
  value_start (f e) -> value_start (join sep (map f (e :: l)) ++ tl).
Proof.
  intro H. cbn [map]. destruct l as [|e2 l'].
  - cbn [join map]. now apply value_start_app.
  - cbn [map]. rewrite join_cons2, <- app_assoc. now apply value_start_app.
Qed.

Lemma array_items_indent n level level' l :
  Forall reads_back_indent l -> forallb wf_json l = true -> l <> [] ->
  forall values fuel rest,
  (need weight l <= fuel)%nat ->
  array_items fuel
    (join (ord "," :: newline_indent n level) (map (dumps_indent n level) l)
     ++ newline_indent n level' ++ ord "]" :: rest) values
  = Some (JList (rev values ++ l), rest).
Proof.
  induction l as [|e l IH]; intros HP Hwf Hne values fuel rest Hfuel;
    [congruence|].
  inversion HP as [|? ? He Hl]; subst. clear HP.
  cbn [forallb] in Hwf. apply andb_true_iff in Hwf as [Hwe Hwl].
  rewrite need_cons in Hfuel.
  destruct fuel as [|f]; [lia|].
  destruct l as [|e2 l'].
  - cbn [map join].
    rewrite (@array_items_step f _ e (newline_indent n level' ++ ord "]" :: rest)).
    + rewrite skip_ws_newline_indent.
      change (skip_ws (ord "]" :: rest)) with (ord "]" :: rest). reflexivity.
    + apply He; auto. lia.
  - cbn [map]. rewrite join_cons2. rewrite <- !app_assoc.
    rewrite (@array_items_step f _ e
               ((ord "," :: newline_indent n level)
                ++ join (ord "," :: newline_indent n level)
                        (dumps_indent n level e2 :: map (dumps_indent n level) l')
                ++ newline_indent n level' ++ ord "]" :: rest)).
    + change (skip_ws ((ord "," :: ?a) ++ ?x)) with (ord "," :: a ++ x).
      cbv iota beta.
      change (ord "," =? ord "]") with false.
      change (ord "," =? ord ",") with true. cbv iota.
      rewrite skip_ws_newline_indent.
      change (dumps_indent n level e2 :: map (dumps_indent n level) l')
        with (map (dumps_indent n level) (e2 :: l')).
      rewrite skip_ws_start.
      * rewrite IH; auto; [|discriminate|lia].
        cbn [rev]. now rewrite <- app_assoc.
      * apply join_nonempty_start, dumps_indent_head.
        cbn [forallb] in Hwl. now apply andb_true_iff in Hwl as [-> _].
    + apply He; auto. lia.
Qed.

Lemma join_items_indent n level d tl : d <> [] ->
  join (ord "," :: newline_indent n level)
       (map (fun kv : pystr * json =>
               let '(k, x) := kv in
               encode_basestring_ascii k ++ py ": " ++ dumps_indent n level x) d) ++ tl
  = QUOTE :: items_tail_indent n level d tl.
Proof.
  induction d as [|[k x] d IH]; [congruence|]. intros _.
  destruct d as [|kv2 d'].
  - cbn [map join items_tail_indent]. unfold encode_basestring_ascii, item_tail_indent.
    cbn [app]. rewrite <- !app_assoc. cbn [app]. now rewrite <- ?app_assoc.
  - cbn [map]. rewrite join_cons2.
    change (items_tail_indent n level ((k, x) :: kv2 :: d') tl)
      with (item_tail_indent n level k x
            ++ ord "," :: newline_indent n level
            ++ QUOTE :: items_tail_indent n level (kv2 :: d') tl).
    rewrite <- IH by discriminate.
    unfold encode_basestring_ascii, item_tail_indent. cbn [map app].
    rewrite <- !app_assoc. cbn [app]. now rewrite <- ?app_assoc.
Qed.

Lemma object_items_indent n level level' d :
  Forall (fun kv => reads_back_indent (snd kv)) d ->
  forallb (fun kv : pystr * json => let '(k, x) := kv in wf_str k && wf_json x) d
    = true ->
  d <> [] ->
  forall pairs fuel rest,
  (need (fun kv => weight (snd kv)) d <= fuel)%nat ->
  object_items fuel
    (items_tail_indent n level d (newline_indent n level' ++ ord "}" :: rest)) pairs
  = Some (JDict (dict (rev pairs ++ d)), rest).
Proof.
  induction d as [|[k x] d IH]; intros HP Hwf Hne pairs fuel rest Hfuel;
    [congruence|].
  inversion HP as [|? ? Hx Hd]; subst. clear HP. cbn [snd] in Hx.
  cbn [forallb] in Hwf. apply andb_true_iff in Hwf as [Hwkx Hwd].
  apply andb_true_iff in Hwkx as [Hwk Hwx].
  rewrite need_cons in Hfuel. cbn [snd] in Hfuel.
  destruct fuel as [|f]; [lia|].
  assert (Hkey : forall tl,
     scanstring (item_tail_indent n level k x ++ tl) []
     = Some (k, ord ":" :: ord " " :: dumps_indent n level x ++ tl)).
  { intro tl. unfold item_tail_indent. rewrite <- app_assoc. cbn [app].
    rewrite scanstring_escape by assumption. reflexivity. }
  assert (Hval : forall tl, delim tl = true ->
     scan_once f (skip_ws (ord " " :: dumps_indent n level x ++ tl)) = Some (x, tl)).
  { intros tl Htl.
    change (skip_ws (ord " " :: ?t)) with (skip_ws t).
    rewrite skip_ws_start by (apply value_start_app; now apply dumps_indent_head).
    apply Hx; auto. lia. }
  destruct d as [|kv2 d'].
  - cbn [items_tail_indent].
    rewrite (@object_items_step f _ k _ x _ pairs (Hkey _)
               (Hval (newline_indent n level' ++ ord "}" :: rest) eq_refl)).
    rewrite skip_ws_newline_indent.
    change (skip_ws (ord "}" :: rest)) with (ord "}" :: rest). reflexivity.
  - change (items_tail_indent n level ((k, x) :: kv2 :: d')
              (newline_indent n level' ++ ord "}" :: rest))
      with (item_tail_indent n level k x
            ++ ord "," :: newline_indent n level
            ++ QUOTE :: items_tail_indent n level (kv2 :: d')
                          (newline_indent n level' ++ ord "}" :: rest)).
    rewrite (@object_items_step f _ k _ x _ pairs (Hkey _)
               (Hval (ord "," :: newline_indent n level
                      ++ QUOTE :: items_tail_indent n level (kv2 :: d')
                                    (newline_indent n level' ++ ord "}" :: rest))
                     eq_refl)).
    change (skip_ws (ord "," :: ?t)) with (ord "," :: t).
    cbv iota beta.
    change (ord "," =? ord "}") with false.
    change (ord "," =? ord ",") with true. cbv iota.
    rewrite skip_ws_newline_indent.
    change (skip_ws (QUOTE :: ?t)) with (QUOTE :: t).
    cbv iota beta. change (QUOTE =? QUOTE) with true. cbv iota.
    rewrite IH; auto; [|discriminate|lia].
    cbn [rev]. now rewrite <- app_assoc.
Qed.

Lemma dumps_indent_scalar n level v :
  match v with JList (_ :: _) | JDict (_ :: _) => False | _ => True end ->
  dumps_indent n level v = dumps v.
Proof. destruct v as [| b | z | f | s | [|e l] | [|kv d]]; now intros. Qed.

(** Decoding an indented rendering gives the value back. *)
Lemma scan_once_dumps_indent v : reads_back_indent v.
Proof.
  induction v as [| b | z | f | s | l IH | d IH] using json_rect';
    intros Hwf n level fuel rest Hfuel Hrest;
    try (rewrite dumps_indent_scalar by exact I; now apply scan_once_dumps).
  - destruct l as [|e l'];
      [rewrite dumps_indent_scalar by exact I; now apply scan_once_dumps|].
    destruct fuel as [|f]; [cbn [weight] in Hfuel; lia|].
    cbn [dumps_indent app]. rewrite scan_once_array. rewrite <- !app_assoc.
    cbn [wf_json] in Hwf. cbn [weight] in Hfuel.
    rewrite skip_ws_newline_indent.
    change ([ord "]"] ++ rest) with (ord "]" :: rest).
    assert (Hstart : value_start
              (join (ord "," :: newline_indent n (S level))
                    (map (dumps_indent n (S level)) (e :: l'))
               ++ newline_indent n level ++ ord "]" :: rest)).
    { apply join_nonempty_start, dumps_indent_head.
      cbn [forallb] in Hwf. now apply andb_true_iff in Hwf as [-> _]. }
    rewrite (skip_ws_start _ Hstart).
    pose proof (@array_items_indent n (S level) level (e :: l') IH Hwf
                  ltac:(discriminate) [] f rest ltac:(lia)) as Hitems.
    destruct (join _ _ ++ _) as [|c1 r1]; [contradiction|].
    destruct Hstart as [_ ->]. exact Hitems.
  - destruct d as [|kv d'];
      [rewrite dumps_indent_scalar by exact I; now apply scan_once_dumps|].
    destruct fuel as [|f]; [cbn [weight] in Hfuel; lia|].
    cbn [dumps_indent app]. rewrite scan_once_object. rewrite <- !app_assoc.
    change ([ord "}"] ++ rest) with (ord "}" :: rest).
    cbn [wf_json] in Hwf. apply andb_true_iff in Hwf as [Hnodup Hwf].
    cbn [weight] in Hfuel.
    rewrite skip_ws_newline_indent.
    rewrite join_items_indent by discriminate.
    change (skip_ws (QUOTE :: ?t)) with (QUOTE :: t). cbv iota beta.
    change (QUOTE =? ord "}") with false.
    change (QUOTE =? QUOTE) with true. cbv iota.
    rewrite (@object_items_indent n (S level) level (kv :: d') IH Hwf
               ltac:(discriminate) [] f rest) by lia.
    cbn [rev app]. now rewrite dict_nodup.
Qed.

(** [json.loads(json.dumps(v, indent=n)) == v] *)
Lemma loads_dumps_indent n v : wf_json v = true -> loads (dumps_indent n 0 v) = Some v.
Proof.
  intro Hwf.
  apply (@loads_fuel_adequate (weight v) _ v []); [|reflexivity].
  rewrite skip_ws_start by now apply dumps_indent_head.
  pose proof (@scan_once_dumps_indent v Hwf n 0%nat (weight v) [] (Nat.le_refl _) eq_refl)
    as H.
  now rewrite app_nil_r in H.
Qed.

End IndentFacts.

(* ------------------------------------------------------------------------- *)
(** ** Further properties of the client, the operations and the dispatcher *)
(* ------------------------------------------------------------------------- *)

Module RouterProps.
Import Py JsonString JsonValue Json Runtime Router Client Scenarios Shapes.
Import PyFacts JsonStringFacts JsonValueFacts JsonFacts RuntimeFacts ClientFacts
  IndentFacts.

(** *** The HTTP client *)

Lemma text_ok_wf_str s : text_ok s = true -> wf_str s = true.
Proof.
  induction s as [|c s IH]; [reflexivity|].
  intro H. cbn [text_ok forallb] in H. apply andb_true_iff in H as [Hc Hs].
  apply scalar_value_facts in Hc as (Hlt & Hhi & _).
  apply N.ltb_lt in Hlt. cbn [wf_str]. now rewrite Hhi, Hlt, (IH Hs).
Qed.

Lemma decode_utf8_ascii_bytes s :
  forallb is_ascii s = true -> decode_utf8 (ascii_bytes s) = Some s.
Proof.
  induction s as [|c s IH]; [reflexivity|].
  intro H. cbn [forallb] in H. apply andb_true_iff in H as [Hc Hs].
  apply N.ltb_lt in Hc.
  cbn [ascii_bytes map]. fold (ascii_bytes s).
  destruct (Byte.of_N c) as [b|] eqn:Hb.
  - apply Byte.to_of_N in Hb. cbn [decode_utf8]. rewrite Hb.
    replace (c <? 0x80)%N with true by (symmetry; apply N.ltb_lt; exact Hc).
    now rewrite (IH Hs).
  - apply Byte.of_N_None_iff in Hb. lia.
Qed.

(** What [api_request] returns when it returns. *)
Lemma api_result_return o st v :
  api_result o = Return (st, v) ->
  exists data text,
    o = Responds st data /\ decode_utf8 data = Some text
    /\ v = match loads text with
           | Some x => x
           | None => JDict [(py "raw", JStr text)]
           end.
Proof.
  destruct o as [e|e|st' e|st' data]; try discriminate.
  cbn [api_result]. destruct (decode_utf8 data) as [text|] eqn:Hd; [|discriminate].
  intro H. exists data, text.
  destruct (loads text); inversion H; subst; auto.
Qed.

(** [api_request] raises exactly when the exchange faults or the body is not
    UTF-8; a body that is not JSON never makes it raise. *)
Theorem api_request_raises_iff method path body E w e :
  fst (api_request method path body E w) = Raise e
  <-> (let o := server E (request_of E method path body) in
       o = SendFails e \/ o = ResponseFails e
       \/ (exists st, o = ReadFails st e)
       \/ (exists st data, o = Responds st data /\ decode_utf8 data = None
                           /\ e = UnicodeDecodeError)).
Proof.
  rewrite api_request_run. cbn [fst]. cbv zeta.
  destruct (server E (request_of E method path body)) as [e'|e'|st e'|st data];
    cbn [api_result].
  - split; [intro H; inversion H; auto|].
    intros [H|[H|[[st H]|(st & data & H & _)]]]; inversion H; reflexivity.
  - split; [intro H; inversion H; auto|].
    intros [H|[H|[[st H]|(st & data & H & _)]]]; inversion H; reflexivity.
  - split; [intro H; inversion H; right; right; left; now exists st|].
    intros [H|[H|[[st' H]|(st' & data & H & _)]]]; inversion H; reflexivity.
  - destruct (decode_utf8 data) as [text|] eqn:Hd.
    + split; [destruct (loads text); discriminate|].
      intros [H|[H|[[st' H]|(st' & data' & H & Hn & _)]]]; inversion H; subst.
      congruence.
    + split.
      * intro H. inversion H. right; right; right. now exists st, data.
      * intros [H|[H|[[st' H]|(st' & data' & H & _ & ->)]]]; inversion H; reflexivity.
Qed.

(** A body that is false as a condition ([None], [{}], [[]], ...) is not
    sent: the request goes out without a body. *)
Theorem api_request_falsy_body_not_sent method path b E w :
  truthy b = false ->
  exists r,
    trace (snd (api_request method path (Some b) E w)) = trace w ++ exchange E w r
    /\ req_method r = method /\ req_path r = path /\ req_body r = None.
Proof.
  intro Hb. exists (request_of E method path (Some b)).
  rewrite api_request_run. cbn [snd after_exchange trace request_of req_body
                                req_method req_path].
  rewrite Hb. repeat split.
Qed.

Lemma api_request_falsy_body_not_sent_witness :
  exists r,
    trace (snd (api_request (py "POST") (py "/model/delete") (Some (JDict []))
                  (gateway (SendFails OSError)) initial))
    = exchange (gateway (SendFails OSError)) initial r
    /\ req_method r = py "POST" /\ req_path r = py "/model/delete"
    /\ req_body r = None.
Proof.
  exact (@api_request_falsy_body_not_sent (py "POST") (py "/model/delete")
           (JDict []) (gateway (SendFails OSError)) initial eq_refl).
Defined.

(** [api_request] prints nothing, and the request it sends has the method
    and path given and two headers: the bearer token made of [API_KEY] and
    the JSON content type, also when no body is sent. *)
Theorem api_request_headers_and_silence method path body E w :
  stdout (snd (api_request method path body E w)) = stdout w
  /\ exists c r,
       trace (snd (api_request method path body E w))
       = trace w ++ [Connect c (uses_tls E) (netloc (API_URL_parsed E));
                     Request c r; Close c]
       /\ req_method r = method /\ req_path r = path
       /\ req_headers r = [ (py "Authorization", py "Bearer " ++ API_KEY E);
                            (py "Content-Type", py "application/json") ].
Proof.
  rewrite api_request_run. split; [reflexivity|].
  exists (next_conn w), (request_of E method path body). repeat split.
Qed.

(** The value the client returns is well formed. *)
Lemma api_result_wf o st v : api_result o = Return (st, v) -> wf_json v = true.
Proof.
  intro H. apply api_result_return in H as (data & text & _ & Hd & ->).
  pose proof (@decode_utf8_ok (length data) data text (Nat.le_refl _) Hd) as Ht.
  destruct (loads text) as [x|] eqn:Hl.
  - exact (loads_wf _ Ht Hl).
  - cbn [wf_json map fst nodup_keys existsb forallb negb andb].
    change (wf_str (py "raw")) with true. cbn [andb].
    now rewrite (text_ok_wf_str _ Ht).
Qed.

(** The body [api_request] sends is ASCII, whatever characters the value
    holds, and it is the value: parsed, it gives the value back. *)
Theorem api_request_body_is_ascii_json method path b E w :
  wf_json b = true -> truthy b = true ->
  exists r body,
    trace (snd (api_request method path (Some b) E w)) = trace w ++ exchange E w r
    /\ req_body r = Some body
    /\ forallb is_ascii body = true
    /\ loads body = Some b.
Proof.
  intros Hwf Hb. exists (request_of E method path (Some b)), (dumps b).
  rewrite api_request_run. split; [reflexivity|].
  split; [cbn [request_of req_body]; now rewrite Hb|].
  split; [now apply dumps_ascii|now apply loads_dumps].
Qed.

Lemma api_request_body_is_ascii_json_witness :
  exists r body,
    trace (snd (api_request (py "POST") (py "/model/delete")
                  (Some (JDict [(py "id", JStr [0xe9; 0x1f600]%N)]))
                  (gateway (SendFails OSError)) initial))
    = exchange (gateway (SendFails OSError)) initial r
    /\ req_body r = Some body
    /\ forallb is_ascii body = true
    /\ loads body = Some (JDict [(py "id", JStr [0xe9; 0x1f600]%N)]).
Proof.
  exact (@api_request_body_is_ascii_json (py "POST") (py "/model/delete")
           (JDict [(py "id", JStr [0xe9; 0x1f600]%N)])
           (gateway (SendFails OSError)) initial eq_refl eq_refl).
Defined.

(** A peer that answers with the bytes of the body it was sent gets them
    decoded to the value that was sent: decoding undoes encoding across the
    exchange. *)
Theorem api_request_echo method path b E w st :
  wf_json b = true -> truthy b = true ->
  server E (request_of E method path (Some b))
  = Responds st (ascii_bytes (dumps b)) ->
  fst (api_request method path (Some b) E w) = Return (st, b).
Proof.
  intros Hwf Hb Hs. rewrite api_request_run. cbn [fst]. rewrite Hs.
  cbn [api_result]. rewrite (decode_utf8_ascii_bytes _ (dumps_ascii _ Hwf)).
  now rewrite (loads_dumps _ Hwf).
Qed.

Lemma api_request_echo_witness :
  fst (api_request (py "POST") (py "/model/delete")
         (Some (JDict [(py "id", JStr [0xe9; 0x1f600]%N)]))
         (gateway (Responds 200
                     (ascii_bytes (dumps (JDict [(py "id", JStr [0xe9; 0x1f600]%N)])))))
         initial)
  = Return (200%Z, JDict [(py "id", JStr [0xe9; 0x1f600]%N)]).
Proof.
  exact (@api_request_echo (py "POST") (py "/model/delete")
           (JDict [(py "id", JStr [0xe9; 0x1f600]%N)])
           (gateway (Responds 200
                       (ascii_bytes (dumps (JDict [(py "id", JStr [0xe9; 0x1f600]%N)])))))
           initial 200%Z eq_refl eq_refl eq_refl).
Defined.

(** *** Creating a router *)

Lemma create_router_false_on_failure_witness :
  fst (create_router (py "MyCoder") (JList coding_routes) (py "mistral/codestral-2508")
         (gateway (Responds 500 (ascii_bytes (py "Internal Server Error")))) initial)
  = Return false.
Proof.
  exact (proj1 (@RouterSpec.create_router_false_on_failure
                  (py "MyCoder") (JList coding_routes) (py "mistral/codestral-2508") 3
                  (gateway (Responds 500 (ascii_bytes (py "Internal Server Error"))))
                  initial 500%Z
                  (JDict [(py "raw", JStr (py "Internal Server Error"))])
                  eq_refl eq_refl ltac:(discriminate))).
Defined.

(** [create_router] returns [True] exactly when the client returned status
    200 with a JSON object. *)
Theorem create_router_true_iff name routes default_model n E w :
  sized routes = Some n ->
  fst (create_router name routes default_model E w) = Return true
  <-> exists d,
        fst (api_request (py "POST") (py "/model/new")
               (Some (payload name routes default_model)) E w)
        = Return (200%Z, JDict d).
Proof.
  intro Hn. rewrite api_request_run. cbn [fst].
  rewrite (@create_router_run name routes default_model n E w Hn).
  destruct (api_result _) as [[st response]|e].
  - destruct (Z.eqb_spec st 200) as [->|Hne].
    + destruct response; cbn [fst];
        (split; [intro H; try discriminate H|intros [d' H]; try discriminate H]).
      * now exists d.
      * reflexivity.
    + cbn [fst]. split; [discriminate|]. intros [d H]. congruence.
  - cbn [fst]. split; [discriminate|]. intros [d H]. discriminate.
Qed.

Lemma create_router_true_iff_witness :
  fst (create_router (py "MyCoder") (JList coding_routes) (py "mistral/codestral-2508")
         (gateway (Responds 200 (ascii_bytes (py "{}")))) initial)
  = Return true.
Proof.
  exact (proj2 (@create_router_true_iff
                  (py "MyCoder") (JList coding_routes) (py "mistral/codestral-2508") 3
                  (gateway (Responds 200 (ascii_bytes (py "{}")))) initial eq_refl)
               (ex_intro _ [] eq_refl)).
Defined.

(** When [routes] has no length (a number, [None], a boolean), [len(routes)]
    raises [TypeError] after the first three lines are printed, and nothing
    is sent. *)
Theorem create_router_unsized_routes name routes default_model E w :
  sized routes = None ->
  fst (create_router name routes default_model E w) = Raise TypeError
  /\ trace (snd (create_router name routes default_model E w)) = trace w
  /\ stdout (snd (create_router name routes default_model E w))
     = stdout w ++ [ [Lit [NEWLINE]; rule];
                     [Lit (py "Creating router: "); Lit name];
                     [Lit (py "Default model: "); Lit default_model] ].
Proof.
  intro Hn. unfold create_router. run. rewrite py_len_run, Hn. repeat split.
Qed.

Lemma create_router_unsized_routes_witness :
  fst (create_router (py "R") (JInt 5) (py "m") (gateway (SendFails OSError)) initial)
  = Raise TypeError
  /\ trace (snd (create_router (py "R") (JInt 5) (py "m")
                   (gateway (SendFails OSError)) initial)) = [].
Proof.
  pose proof (@create_router_unsized_routes (py "R") (JInt 5) (py "m")
                (gateway (SendFails OSError)) initial eq_refl) as H.
  exact (conj (proj1 H) (proj1 (proj2 H))).
Defined.

(** On status 200 with a JSON object, the line that follows the success line
    shows the object's [model_id], and [N/A] when the object has none. *)
Theorem create_router_reports_model_id name routes default_model n E w d :
  sized routes = Some n ->
  fst (api_request (py "POST") (py "/model/new")
         (Some (payload name routes default_model)) E w) = Return (200%Z, JDict d) ->
  stdout (snd (create_router name routes default_model E w))
  = stdout w ++ created_lines name default_model n
    ++ [ [Lit (CHECK_MARK :: py " Router '"); Lit name;
          Lit (py "' created successfully!")];
         [Lit (py "   Model ID: "); Fmt (get_or d "model_id" (JStr (py "N/A")))] ].
Proof.
  intros Hn Hres. rewrite api_request_run in Hres. cbn [fst] in Hres.
  rewrite (@create_router_run name routes default_model n E w Hn), Hres.
  cbv beta iota. change (200 =? 200)%Z with true. cbv beta iota.
  cbn [snd printed stdout after_exchange]. now rewrite <- app_assoc.
Qed.

Lemma create_router_reports_model_id_witness :
  stdout (snd (create_router (py "R") (JList []) (py "m")
                 (gateway (Responds 200 (ascii_bytes (py "{}")))) initial))
  = created_lines (py "R") (py "m") 0
    ++ [ [Lit (CHECK_MARK :: py " Router '"); Lit (py "R");
          Lit (py "' created successfully!")];
         [Lit (py "   Model ID: "); Fmt (JStr (py "N/A"))] ].
Proof.
  exact (@create_router_reports_model_id (py "R") (JList []) (py "m") 0
           (gateway (Responds 200 (ascii_bytes (py "{}")))) initial [] eq_refl eq_refl).
Defined.

(** A fault of the client goes through [create_router] unchanged, after the
    five opening lines and without a line of verdict. *)
Theorem create_router_propagates_fault name routes default_model n E w e :
  sized routes = Some n ->
  fst (api_request (py "POST") (py "/model/new")
         (Some (payload name routes default_model)) E w) = Raise e ->
  fst (create_router name routes default_model E w) = Raise e
  /\ stdout (snd (create_router name routes default_model E w))
     = stdout w ++ created_lines name default_model n.
Proof.
  intros Hn Hres. rewrite api_request_run in Hres. cbn [fst] in Hres.
  rewrite (@create_router_run name routes default_model n E w Hn), Hres.
  split; reflexivity.
Qed.

Lemma create_router_propagates_fault_witness :
  fst (create_router (py "R") (JList []) (py "m") (gateway (SendFails OSError)) initial)
  = Raise OSError.
Proof.
  exact (proj1 (@create_router_propagates_fault (py "R") (JList []) (py "m") 0
                  (gateway (SendFails OSError)) initial OSError eq_refl eq_refl)).
Defined.

(** When the rendering of the error body has at most 500 characters, the
    text printed after [Error:] is the whole rendering, and it is JSON that
    parses back to the response. *)
Theorem create_router_error_rendering_parses name routes default_model n E w st response :
  sized routes = Some n ->
  fst (api_request (py "POST") (py "/model/new")
         (Some (payload name routes default_model)) E w) = Return (st, response) ->
  st <> 200%Z ->
  (length (dumps_indent 2 0 response) <= 500)%nat ->
  exists out text,
    stdout (snd (create_router name routes default_model E w))
    = out ++ [[Lit (py "   Error: "); Lit text]]
    /\ loads text = Some response.
Proof.
  intros Hn Hres Hst Hlen. rewrite api_request_run in Hres. cbn [fst] in Hres.
  rewrite (@create_router_run name routes default_model n E w Hn), Hres.
  apply Z.eqb_neq in Hst. rewrite Hst. cbn [snd printed stdout after_exchange].
  rewrite (firstn_all2 _ Hlen).
  exists (stdout w ++ created_lines name default_model n
          ++ [ [Lit (CROSS_MARK :: py " Failed to create router")];
               [Lit (py "   Status: "); Lit (int_repr st)] ]),
    (dumps_indent 2 0 response).
  split; [now rewrite <- !app_assoc|].
  apply loads_dumps_indent. exact (api_result_wf _ Hres).
Qed.

Lemma create_router_error_rendering_parses_witness :
  let E := gateway (Responds 404 (ascii_bytes
             (pyq "{'error': {'message': 'no such model', 'code': 404}, 'ids': [1, 2]}"))) in
  exists out text,
    stdout (snd (create_router (py "R") (JList []) (py "m") E initial))
    = out ++ [[Lit (py "   Error: "); Lit text]]
    /\ loads text
       = Some (JDict [(py "error", JDict [(py "message", JStr (py "no such model"));
                                          (py "code", JInt 404)]);
                      (py "ids", JList [JInt 1; JInt 2])]).
Proof.
  exact (@create_router_error_rendering_parses (py "R") (JList []) (py "m") 0
           (gateway (Responds 404 (ascii_bytes
              (pyq "{'error': {'message': 'no such model', 'code': 404}, 'ids': [1, 2]}"))))
           initial 404%Z
           (JDict [(py "error", JDict [(py "message", JStr (py "no such model"));
                                       (py "code", JInt 404)]);
                   (py "ids", JList [JInt 1; JInt 2])])
           eq_refl eq_refl ltac:(discriminate)
           ltac:(apply Nat.leb_le; reflexivity)).
Defined.

(** *** Deleting a model *)

(** On status 200 [delete_model] prints the success line, whatever the body
    of the reply, and returns. *)
Theorem delete_model_success m E w response :
  fst (api_request (py "POST") (py "/model/delete")
         (Some (JDict [(py "id", JStr m)])) E w) = Return (200%Z, response) ->
  fst (delete_model m E w) = Return tt
  /\ stdout (snd (delete_model m E w))
     = stdout w ++ [ [Lit (NEWLINE :: py "Deleting model: "); Lit m];
                     [Lit (CHECK_MARK :: py " Model deleted successfully!")] ].
Proof.
  intro Hres. rewrite api_request_run in Hres. cbn [fst] in Hres.
  rewrite delete_model_run. cbv zeta. rewrite Hres.
  cbv beta iota. change (200 =? 200)%Z with true. cbv beta iota.
  cbn [fst snd printed stdout after_exchange]. split; [reflexivity|].
  now rewrite <- app_assoc.
Qed.

Lemma delete_model_success_witness :
  fst (delete_model (py "xyz") (gateway (Responds 200 (ascii_bytes (py "null")))) initial)
  = Return tt
  /\ stdout (snd (delete_model (py "xyz")
                    (gateway (Responds 200 (ascii_bytes (py "null")))) initial))
     = [ [Lit (NEWLINE :: py "Deleting model: "); Lit (py "xyz")];
         [Lit (CHECK_MARK :: py " Model deleted successfully!")] ].
Proof.
  exact (@delete_model_success (py "xyz")
           (gateway (Responds 200 (ascii_bytes (py "null")))) initial JNull eq_refl).
Defined.

(** [delete_model] raises exactly when the client raises, and the same
    exception; otherwise it returns. *)
Theorem delete_model_raises_iff m E w e :
  fst (delete_model m E w) = Raise e
  <-> fst (api_request (py "POST") (py "/model/delete")
             (Some (JDict [(py "id", JStr m)])) E w) = Raise e.
Proof.
  rewrite api_request_run, delete_model_run. cbv zeta. cbn [fst].
  destruct (api_result _) as [[st response]|e'].
  - destruct (st =? 200)%Z; cbn [fst]; split; discriminate.
  - cbn [fst]. split; intro H; inversion H; reflexivity.
Qed.

(** *** Listing the models *)

Lemma printed_nil w : printed w [] = w.
Proof. destruct w. unfold printed. cbn. now rewrite app_nil_r. Qed.

Lemma quiet_ret A (a : A) : quiet (ret a).
Proof. intros E w. exists []. cbn. now rewrite printed_nil. Qed.

Lemma quiet_raise A e : quiet (@raise A e).
Proof. intros E w. exists []. cbn. now rewrite printed_nil. Qed.

Lemma quiet_print line : quiet (print line).
Proof. intros E w. now exists [line]. Qed.

Lemma quiet_bind A B (m : M A) (k : A -> M B) :
  quiet m -> (forall a, quiet (k a)) -> quiet (bind m k).
Proof.
  intros Hm Hk E w. rewrite bind_run.
  destruct (Hm E w) as [ls Hls]. destruct (m E w) as [[a|e] w1]; cbn [snd] in *.
  - destruct (Hk a E w1) as [ls' Hls']. exists (ls ++ ls').
    now rewrite Hls', Hls, printed_printed.
  - now exists ls.
Qed.

Lemma quiet_for_each A (xs : list A) (body : A -> M unit) :
  (forall x, quiet (body x)) -> quiet (for_each xs body).
Proof.
  intro Hb. induction xs as [|x xs IH]; cbn [for_each].
  - apply quiet_ret.
  - apply quiet_bind; auto.
Qed.

Lemma quiet_py_get v k default : quiet (py_get v k default).
Proof. destruct v; cbn [py_get]; (apply quiet_ret || apply quiet_raise). Qed.

Lemma quiet_py_len v : quiet (py_len v).
Proof. destruct v; cbn [py_len]; (apply quiet_ret || apply quiet_raise). Qed.

Lemma quiet_py_iter v : quiet (py_iter v).
Proof. destruct v; cbn [py_iter]; (apply quiet_ret || apply quiet_raise). Qed.

Ltac quiet_steps :=
  repeat first [ apply quiet_ret | apply quiet_raise | apply quiet_print
               | apply quiet_py_get | apply quiet_py_len | apply quiet_py_iter
               | apply quiet_for_each; intro
               | apply quiet_bind; [|intro] ].

(** [list_models] up to the reply of the client. *)
Lemma list_models_exchange E w :
  let r := request_of E (py "GET") (py "/model/info") None in
  let w1 := after_exchange E (printed w [fetching E]) r in
  match api_result (server E r) with
  | Raise e => list_models E w = (Raise e, w1)
  | Return (st, response) =>
      if (st =? 200)%Z then
        exists k : M unit, quiet k /\ list_models E w = k E w1
      else
        list_models E w
        = (Return tt,
           printed w1 [ [Lit (CROSS_MARK :: py " Failed to list models: ");
                         Lit (int_repr st)];
                        [Fmt response] ])
  end.
Proof.
  intros r w1. unfold list_models. rewrite bind_run.
  change (ask E w) with (Return E, w). cbv beta iota.
  rewrite bind_run, print_run. cbv beta iota.
  rewrite bind_run, api_request_run. fold r. fold (fetching E). fold w1.
  destruct (api_result (server E r)) as [[st response]|e]; [|reflexivity].
  cbv beta iota. destruct (st =? 200)%Z.
  - eexists. split; [|reflexivity]. quiet_steps.
  - run. reflexivity.
Qed.

(** [list_models] makes one exchange, whatever the reply and whatever
    happens while the models are printed: a GET of [/model/info] without a
    body. *)
Theorem list_models_one_get E w :
  exists r,
    trace (snd (list_models E w)) = trace w ++ exchange E w r
    /\ req_method r = py "GET" /\ req_path r = py "/model/info"
    /\ req_body r = None.
Proof.
  exists (request_of E (py "GET") (py "/model/info") None).
  split; [|repeat split].
  pose proof (list_models_exchange E w) as H. cbv zeta in H.
  destruct (api_result _) as [[st response]|e].
  - destruct (st =? 200)%Z.
    + destruct H as (k & Hk & ->). destruct (Hk E (after_exchange E (printed w [fetching E])
                 (request_of E (py "GET") (py "/model/info") None))) as [ls ->].
      reflexivity.
    + now rewrite H.
  - now rewrite H.
Qed.

Lemma ret_run A (a : A) E w : ret a E w = (Return a, w).
Proof. reflexivity. Qed.

Lemma raise_run A e E w : @raise A e E w = (Raise e, w).
Proof. reflexivity. Qed.

Lemma py_get_dict d k default E w :
  py_get (JDict d) k default E w
  = (Return (match dict_lookup d k with Some x => x | None => default end), w).
Proof. reflexivity. Qed.

Lemma py_get_other v k default E w :
  (forall d, v <> JDict d) -> py_get v k default E w = (Raise AttributeError, w).
Proof. intro H. destruct v; try reflexivity. now destruct (H d). Qed.

Lemma model_fields_dict m :
  model_fields (JDict m)
  = match get_or m "model_info" (JDict []), get_or m "litellm_params" (JDict []) with
    | JDict info, JDict params =>
        Some (get_or m "model_name" (JStr (py "Unknown")),
              get_or info "id" (JStr (py "N/A")),
              get_or params "model" (JStr (py "N/A")))
    | _, _ => None
    end.
Proof. reflexivity. Qed.

(** [list_models] when the client has returned status 200 and an object
    whose [data] is a list (or is missing). *)
Lemma list_models_listed E w d items :
  let r := request_of E (py "GET") (py "/model/info") None in
  let w1 := after_exchange E (printed w [fetching E]) r in
  api_result (server E r) = Return (200%Z, JDict d) ->
  get_or d "data" (JList []) = JList items ->
  list_models E w
  = (fst (models_listing items),
     printed w1 (found_lines (Z.of_nat (length items)) ++ snd (models_listing items))).
Proof.
  intros r w1 Hres Hdata. unfold list_models. rewrite bind_run.
  change (ask E w) with (Return E, w). cbv beta iota.
  rewrite bind_run, print_run. cbv beta iota.
  rewrite bind_run, api_request_run. fold r. fold (fetching E). fold w1.
  rewrite Hres. cbv beta iota. change (200 =? 200)%Z with true. cbv beta iota.
  rewrite bind_run, py_get_dict. fold (get_or d "data" (JList [])). rewrite Hdata.
  cbv beta iota. run. cbn [py_len py_iter]. rewrite !ret_run. run.
  rewrite ret_run. run.
  match goal with
  | |- for_each items ?body E ?w2 = _ =>
      assert (Hstep : forall model w',
                 body model E w'
                 = match model_fields model with
                   | Some f => (Return tt, printed w' (model_lines f))
                   | None => (Raise AttributeError, w')
                   end);
      [|assert (Hloop : forall its w',
                   for_each its body E w'
                   = (fst (models_listing its),
                      printed w' (snd (models_listing its))))]
  end.
  - intros model w'. cbv beta.
    destruct model as [| b | z | f | s | l | m];
      try (rewrite bind_run, py_get_other by discriminate; reflexivity).
    rewrite model_fields_dict. unfold get_or.
    rewrite bind_run, py_get_dict. cbv beta iota.
    rewrite bind_run, py_get_dict. cbv beta iota.
    destruct (match dict_lookup m (py "model_info") with
              | Some x => x | None => JDict [] end) as [| b | z | f | s | l | info];
      try (rewrite bind_run, py_get_other by discriminate; reflexivity).
    rewrite bind_run, py_get_dict. cbv beta iota.
    rewrite bind_run, py_get_dict. cbv beta iota.
    destruct (match dict_lookup m (py "litellm_params") with
              | Some x => x | None => JDict [] end) as [| b | z | f | s | l | params];
      try (rewrite bind_run, py_get_other by discriminate; reflexivity).
    rewrite bind_run, py_get_dict. run. reflexivity.
  - induction its as [|model its IH]; intro w'.
    + cbn. now rewrite printed_nil.
    + cbn [for_each models_listing]. rewrite bind_run, Hstep.
      destruct (model_fields model) as [f|]; [|cbn; now rewrite printed_nil].
      rewrite IH. destruct (models_listing its) as [res ls].
      cbn [fst snd]. now rewrite printed_printed.
  - rewrite Hloop. now rewrite printed_printed.
Qed.

Lemma models_listing_all items fs :
  map model_fields items = map Some fs ->
  models_listing items = (Return tt, flat_map model_lines fs).
Proof.
  revert fs. induction items as [|model items IH]; intros [|f fs] H;
    try discriminate; [reflexivity|].
  cbn [map] in H. inversion H as [[Hf Hrest]].
  cbn [models_listing flat_map]. rewrite Hf, (IH _ Hrest). reflexivity.
Qed.

Lemma models_listing_stop good fs bad rest :
  map model_fields good = map Some fs -> model_fields bad = None ->
  models_listing (good ++ bad :: rest)
  = (Raise AttributeError, flat_map model_lines fs).
Proof.
  revert fs. induction good as [|model good IH]; intros [|f fs] H Hbad;
    try discriminate.
  - cbn. now rewrite Hbad.
  - cbn [map] in H. inversion H as [[Hf Hrest]].
    cbn [app models_listing flat_map]. now rewrite Hf, (IH _ Hrest Hbad).
Qed.

(** On a status other than 200, [list_models] prints the failure line with
    the status, then the response, and returns. *)
Theorem list_models_reports_failure E w s response :
  fst (api_request (py "GET") (py "/model/info") None E w) = Return (s, response) ->
  s <> 200%Z ->
  fst (list_models E w) = Return tt
  /\ stdout (snd (list_models E w))
     = stdout w ++ [ fetching E;
                     [Lit (CROSS_MARK :: py " Failed to list models: ");
                      Lit (int_repr s)];
                     [Fmt response] ].
Proof.
  intros Hres Hs. rewrite api_request_run in Hres. cbn [fst] in Hres.
  pose proof (list_models_exchange E w) as H. cbv zeta in H. rewrite Hres in H.
  apply Z.eqb_neq in Hs. rewrite Hs in H. rewrite H.
  cbn [fst snd printed stdout after_exchange]. split; [reflexivity|].
  now rewrite <- app_assoc.
Qed.

Lemma list_models_reports_failure_witness :
  fst (list_models (gateway (Responds 401 (ascii_bytes (py "Unauthorized")))) initial)
  = Return tt
  /\ stdout (snd (list_models (gateway (Responds 401 (ascii_bytes (py "Unauthorized"))))
                    initial))
     = [ fetching (gateway (Responds 401 (ascii_bytes (py "Unauthorized"))));
         [Lit (CROSS_MARK :: py " Failed to list models: "); Lit (py "401")];
         [Fmt (JDict [(py "raw", JStr (py "Unauthorized"))])] ].
Proof.
  exact (@list_models_reports_failure
           (gateway (Responds 401 (ascii_bytes (py "Unauthorized")))) initial
           401%Z (JDict [(py "raw", JStr (py "Unauthorized"))])
           eq_refl ltac:(discriminate)).
Defined.

(** On status 200 with an object whose [data] is a list of models (no [data]
    counts as the empty list), [list_models] prints the header with the
    number of models and three lines for each model, in order, a missing
    field shown by its default, and returns. *)
Theorem list_models_prints_models E w d models fs :
  fst (api_request (py "GET") (py "/model/info") None E w) = Return (200%Z, JDict d) ->
  get_or d "data" (JList []) = JList models ->
  map model_fields models = map Some fs ->
  fst (list_models E w) = Return tt
  /\ stdout (snd (list_models E w))
     = stdout w ++ fetching E :: found_lines (Z.of_nat (length models))
       ++ flat_map model_lines fs.
Proof.
  intros Hres Hdata Hfs. rewrite api_request_run in Hres. cbn [fst] in Hres.
  rewrite (@list_models_listed E w d models Hres Hdata).
  rewrite (@models_listing_all _ _ Hfs).
  cbn [fst snd printed stdout after_exchange]. split; [reflexivity|].
  now rewrite <- app_assoc.
Qed.

Lemma list_models_prints_models_witness :
  let E := gateway (Responds 200 (ascii_bytes
             (pyq "{'data': [{'model_name': 'MyCoder', 'model_info': {'id': 'abc123'}}]}"))) in
  fst (list_models E initial) = Return tt
  /\ stdout (snd (list_models E initial))
     = fetching E :: found_lines 1
       ++ [ [Lit (NEWLINE :: py "  " ++ BULLET :: py " "); Fmt (JStr (py "MyCoder"))];
            [Lit (py "    ID: "); Fmt (JStr (py "abc123"))];
            [Lit (py "    Model: "); Fmt (JStr (py "N/A"))] ].
Proof.
  exact (@list_models_prints_models
           (gateway (Responds 200 (ascii_bytes
              (pyq "{'data': [{'model_name': 'MyCoder', 'model_info': {'id': 'abc123'}}]}"))))
           initial
           [(py "data",
             JList [JDict [(py "model_name", JStr (py "MyCoder"));
                           (py "model_info", JDict [(py "id", JStr (py "abc123"))])]])]
           [JDict [(py "model_name", JStr (py "MyCoder"));
                   (py "model_info", JDict [(py "id", JStr (py "abc123"))])]]
           [(JStr (py "MyCoder"), JStr (py "abc123"), JStr (py "N/A"))]
           eq_refl eq_refl eq_refl).
Defined.

(** The loop stops at the first model that is not a dictionary, or whose
    [model_info] or [litellm_params] is not one: [list_models] raises
    [AttributeError], having printed the header, which counts all the models,
    and the lines of the models before it. *)
Theorem list_models_stops_at_malformed E w d good fs bad rest :
  fst (api_request (py "GET") (py "/model/info") None E w) = Return (200%Z, JDict d) ->
  get_or d "data" (JList []) = JList (good ++ bad :: rest) ->
  map model_fields good = map Some fs ->
  model_fields bad = None ->
  fst (list_models E w) = Raise AttributeError
  /\ stdout (snd (list_models E w))
     = stdout w ++ fetching E :: found_lines (Z.of_nat (length (good ++ bad :: rest)))
       ++ flat_map model_lines fs.
Proof.
  intros Hres Hdata Hfs Hbad. rewrite api_request_run in Hres. cbn [fst] in Hres.
  rewrite (@list_models_listed E w d _ Hres Hdata).
  rewrite (@models_listing_stop _ _ _ _ Hfs Hbad).
  cbn [fst snd printed stdout after_exchange]. split; [reflexivity|].
  now rewrite <- app_assoc.
Qed.

Lemma list_models_stops_at_malformed_witness :
  let E := gateway (Responds 200 (ascii_bytes
             (pyq "{'data': [{'model_name': 'a'}, {'model_info': null}, {}]}"))) in
  fst (list_models E initial) = Raise AttributeError
  /\ stdout (snd (list_models E initial))
     = fetching E :: found_lines 3
       ++ [ [Lit (NEWLINE :: py "  " ++ BULLET :: py " "); Fmt (JStr (py "a"))];
            [Lit (py "    ID: "); Fmt (JStr (py "N/A"))];
            [Lit (py "    Model: "); Fmt (JStr (py "N/A"))] ].
Proof.
  exact (@list_models_stops_at_malformed
           (gateway (Responds 200 (ascii_bytes
              (pyq "{'data': [{'model_name': 'a'}, {'model_info': null}, {}]}"))))
           initial
           [(py "data", JList [JDict [(py "model_name", JStr (py "a"))];
                               JDict [(py "model_info", JNull)]; JDict []])]
           [JDict [(py "model_name", JStr (py "a"))]]
           [(JStr (py "a"), JStr (py "N/A"), JStr (py "N/A"))]
           (JDict [(py "model_info", JNull)]) [JDict []]
           eq_refl eq_refl eq_refl eq_refl).
Defined.

(** On status 200 with a JSON value that is not an object, [response.get]
    raises [AttributeError] and only the first line has been printed. *)
Theorem list_models_non_object_reply E w v :
  fst (api_request (py "GET") (py "/model/info") None E w) = Return (200%Z, v) ->
  (forall d, v <> JDict d) ->
  fst (list_models E w) = Raise AttributeError
  /\ stdout (snd (list_models E w)) = stdout w ++ [fetching E].
Proof.
  intros Hres Hv. rewrite api_request_run in Hres. cbn [fst] in Hres.
  unfold list_models. rewrite bind_run.
  change (ask E w) with (Return E, w). cbv beta iota.
  rewrite bind_run, print_run. cbv beta iota.
  rewrite bind_run, api_request_run, Hres. cbv beta iota.
  change (200 =? 200)%Z with true. cbv beta iota.
  rewrite bind_run, (@py_get_other _ _ _ _ _ Hv). split; reflexivity.
Qed.

Lemma list_models_non_object_reply_witness :
  fst (list_models (gateway (Responds 200 (ascii_bytes (py "[]")))) initial)
  = Raise AttributeError.
Proof.
  exact (proj1 (@list_models_non_object_reply
                  (gateway (Responds 200 (ascii_bytes (py "[]")))) initial (JList [])
                  eq_refl ltac:(discriminate))).
Defined.

(** On status 200 with an object whose [data] has no length ([null], a
    number, a boolean), [len(models)] raises [TypeError] after the first rule
    of the header is printed. *)
Theorem list_models_unsized_data E w d :
  fst (api_request (py "GET") (py "/model/info") None E w) = Return (200%Z, JDict d) ->
  sized (get_or d "data" (JList [])) = None ->
  fst (list_models E w) = Raise TypeError
  /\ stdout (snd (list_models E w))
     = stdout w ++ [fetching E; [Lit [NEWLINE]; rule]].
Proof.
  intros Hres Hn. rewrite api_request_run in Hres. cbn [fst] in Hres.
  unfold list_models. rewrite bind_run.
  change (ask E w) with (Return E, w). cbv beta iota.
  rewrite bind_run, print_run. cbv beta iota.
  rewrite bind_run, api_request_run, Hres. cbv beta iota.
  change (200 =? 200)%Z with true. cbv beta iota.
  rewrite bind_run, py_get_dict. fold (get_or d "data" (JList [])).
  cbv beta iota. run. rewrite py_len_run, Hn.
  cbn [fst snd printed stdout after_exchange]. split; [reflexivity|].
  now rewrite <- app_assoc.
Qed.

Lemma list_models_unsized_data_witness :
  fst (list_models (gateway (Responds 200 (ascii_bytes (pyq "{'data': null}")))) initial)
  = Raise TypeError.
Proof.
  exact (proj1 (@list_models_unsized_data
                  (gateway (Responds 200 (ascii_bytes (pyq "{'data': null}")))) initial
                  [(py "data", JNull)] eq_refl eq_refl)).
Defined.

(** *** The dispatcher *)

Lemma bind_ret_tt_snd A (m : M A) E w :
  snd (bind m (fun _ => ret tt) E w) = snd (m E w).
Proof. rewrite bind_run. now destruct (m E w) as [[a|e] w']. Qed.

Lemma create_router_frame name routes default_model E w :
  exists ls,
    snd (create_router name routes default_model E w) = printed w ls
    \/ snd (create_router name routes default_model E w)
       = printed (after_exchange E w
                    (request_of E (py "POST") (py "/model/new")
                       (Some (payload name routes default_model)))) ls.
Proof.
  destruct (sized routes) as [n|] eqn:Hn.
  - rewrite (@create_router_run name routes default_model n E w Hn).
    rewrite after_exchange_printed.
    destruct (api_result _) as [[st response]|e].
    + destruct (st =? 200)%Z; [destruct response|];
        cbn [snd]; rewrite printed_printed; eexists; right; reflexivity.
    + cbn [snd]. eexists; right; reflexivity.
  - unfold create_router. run. rewrite py_len_run, Hn. cbn [snd].
    eexists; left; reflexivity.
Qed.

(** The world [main] leaves: the one it found, with lines printed and at
    most one exchange, closed, with one of the three calls of the admin API. *)
Lemma main_frame a E w :
  exists ls,
    snd (main a E w) = printed w ls
    \/ exists r,
         admin_endpoint r = true
         /\ req_headers r = [ (py "Authorization", py "Bearer " ++ API_KEY E);
                              (py "Content-Type", py "application/json") ]
         /\ snd (main a E w) = printed (after_exchange E w r) ls.
Proof.
  destruct a as [name preset routes default| |model_id]; cbn [main].
  - destruct (given preset).
    + destruct (presets_lookup PRESETS _) as [p|].
      * rewrite bind_ret_tt_snd.
        destruct (create_router_frame name (Router.routes p) (default_model p) E w)
          as [ls [H|H]]; exists ls; [now left|right].
        eexists. refine (conj _ (conj _ H)); reflexivity.
      * exists []. left. cbn. now rewrite printed_nil.
    + destruct (given routes).
      * destruct (negb (given default)); [eexists; left; reflexivity|].
        rewrite bind_run. unfold load_json_file. rewrite bind_run.
        change (ask E w) with (Return E, w). cbv beta iota.
        destruct (files E _) as [text|];
          [|exists []; left; cbn; now rewrite printed_nil].
        unfold json_loads. destruct (loads text) as [rs|];
          [|exists []; left; cbn; now rewrite printed_nil].
        rewrite ret_run. cbv beta iota. rewrite bind_ret_tt_snd.
        destruct (create_router_frame name rs
                    (match default with Some d => d | None => [] end) E w)
          as [ls [H|H]]; exists ls; [now left|right].
        eexists. refine (conj _ (conj _ H)); reflexivity.
      * eexists; left; reflexivity.
  - pose proof (list_models_exchange E w) as H. cbv zeta in H.
    destruct (api_result _) as [[st response]|e].
    + destruct (st =? 200)%Z.
      * destruct H as (k & Hk & ->).
        destruct (Hk E (after_exchange E (printed w [fetching E])
                     (request_of E (py "GET") (py "/model/info") None)))
          as [ls ->].
        rewrite after_exchange_printed, printed_printed. eexists. right. eexists.
        refine (conj _ (conj _ eq_refl)); reflexivity.
      * rewrite H. cbn [snd]. rewrite after_exchange_printed, printed_printed.
        eexists. right. eexists. refine (conj _ (conj _ eq_refl)); reflexivity.
    + rewrite H. cbn [snd]. rewrite after_exchange_printed.
      eexists. right. eexists. refine (conj _ (conj _ eq_refl)); reflexivity.
  - rewrite delete_model_run. cbv zeta. rewrite after_exchange_printed.
    destruct (api_result _) as [[st response]|e].
    + destruct (st =? 200)%Z; cbn [snd]; rewrite printed_printed;
        eexists; right; eexists; refine (conj _ (conj _ eq_refl)); reflexivity.
    + cbn [snd]. eexists; right; eexists.
      refine (conj _ (conj _ eq_refl)); reflexivity.
Qed.

(** Whatever the invocation and the replies, [main] makes at most one
    exchange, leaves no connection open that was not open before, and only
    adds lines to the output. *)
Theorem main_one_exchange_no_leak a E w :
  (trace (snd (main a E w)) = trace w
   \/ exists r, trace (snd (main a E w)) = trace w ++ exchange E w r)
  /\ (forall c, In c (open_conns (snd (main a E w))) -> In c (open_conns w))
  /\ exists ls, stdout (snd (main a E w)) = stdout w ++ ls.
Proof.
  destruct (main_frame a E w) as [ls [->|(r & _ & _ & ->)]].
  - split; [now left|]. split; [auto|]. now exists ls.
  - split; [right; now exists r|]. split; [|now exists ls].
    intros c Hc. cbn [printed open_conns after_exchange filter] in Hc.
    rewrite Nat.eqb_refl in Hc. cbn [negb] in Hc.
    now apply filter_In in Hc as [Hc _].
Qed.

(** Every request [main] sends is one of the three calls of the admin API
    ([POST /model/new], [GET /model/info], [POST /model/delete]) and carries
    the bearer token. *)
Theorem main_requests_admin_api a E w c r :
  In (Request c r) (trace (snd (main a E w))) ->
  In (Request c r) (trace w)
  \/ (admin_endpoint r = true
      /\ In (py "Authorization", py "Bearer " ++ API_KEY E) (req_headers r)).
Proof.
  destruct (main_frame a E w) as [ls [->|(r' & Hr & Hh & ->)]]; [now left|].
  cbn [printed trace after_exchange]. intro H. apply in_app_or in H as [H|H].
  - now left.
  - right. destruct H as [H|[H|[H|[]]]]; inversion H; subst.
    split; [exact Hr|]. rewrite Hh. now left.
Qed.

Lemma main_requests_admin_api_witness :
  admin_endpoint (request_of (gateway (SendFails OSError)) (py "GET") (py "/model/info")
                    None) = true.
Proof.
  destruct (@main_requests_admin_api List (gateway (SendFails OSError)) initial 0%nat
              (request_of (gateway (SendFails OSError)) (py "GET") (py "/model/info") None)
              (or_intror (or_introl eq_refl))) as [[]|[H _]].
  exact H.
Defined.

(** When the routes file cannot be opened or read, [main] raises the
    exception of [open] or [read], whichever it is (an [OSError] for a file
    that is missing, a [UnicodeDecodeError] for bytes that do not decode);
    when its text is not JSON, [json.load] raises and [main] lets the
    exception through.  Nothing catches either, and nothing has been printed
    or sent. *)
Theorem main_routes_file_unreadable name path D E w :
  given (Some path) = true -> given (Some D) = true ->
  (files E path = None ->
   main (Create name None (Some path) (Some D)) E w = (Raise (read_error E path), w))
  /\ (forall text, files E path = Some text -> loads text = None ->
      exists e, main (Create name None (Some path) (Some D)) E w = (Raise e, w)).
Proof.
  intros Hpath HD. split; [intro Hf|intros text Hf Hl; exists JSONDecodeError];
    unfold main; change (given None) with false; cbv iota;
    rewrite Hpath, HD; cbn [negb];
    unfold load_json_file, json_loads; rewrite !bind_run;
    change (ask E w) with (Return E, w); cbv beta iota; rewrite Hf;
    [reflexivity|now rewrite Hl].
Qed.

Lemma main_routes_file_unreadable_witness :
  main (Create (py "R") None (Some (py "routes.json")) (Some (py "m")))
       (gateway_unreadable (SendFails OSError) UnicodeDecodeError) initial
  = (Raise UnicodeDecodeError, initial).
Proof.
  exact (proj1 (@main_routes_file_unreadable (py "R") (py "routes.json") (py "m")
                  (gateway_unreadable (SendFails OSError) UnicodeDecodeError) initial
                  eq_refl eq_refl) eq_refl).
Defined.

Lemma create_from_routes_file_round_trip_witness :
  let text := pyq "[{'name': 'm/a', 'utterances': ['hi'], 'score_threshold': 0.5}]" in
  let R := [JDict [(py "name", JStr (py "m/a"));
                   (py "utterances", JList [JStr (py "hi")]);
                   (py "score_threshold", JFloat (FDec false (py "5") 0))]] in
  exists cfg,
    getpath (payload (py "R1") (JList R) (py "m/a"))
            ["litellm_params"; "auto_router_config"]%string = Some (JStr cfg)
    /\ loads cfg = Some (JDict [(py "routes", JList R)]).
Proof.
  exact (proj2 (@RouterSpec.create_from_routes_file_round_trip
                  (py "R1") (py "routes.json") (py "m/a")
                  (pyq "[{'name': 'm/a', 'utterances': ['hi'], 'score_threshold': 0.5}]")
                  [JDict [(py "name", JStr (py "m/a"));
                          (py "utterances", JList [JStr (py "hi")]);
                          (py "score_threshold", JFloat (FDec false (py "5") 0))]]
                  (gateway_with_routes_file (SendFails OSError)
                     (pyq "[{'name': 'm/a', 'utterances': ['hi'], 'score_threshold': 0.5}]"))
                  initial eq_refl eq_refl eq_refl eq_refl eq_refl)).
Defined.

(** When the routes file holds JSON that has no length (a number, [null], a
    boolean), [main] raises [TypeError] from [create_router] and nothing is
    sent. *)
Theorem main_routes_file_unsized name path D text v E w :
  given (Some path) = true -> given (Some D) = true ->
  files E path = Some text -> loads text = Some v -> sized v = None ->
  fst (main (Create name None (Some path) (Some D)) E w) = Raise TypeError
  /\ trace (snd (main (Create name None (Some path) (Some D)) E w)) = trace w.
Proof.
  intros Hpath HD Hf Hl Hn.
  unfold main. change (given None) with false. cbv iota.
  rewrite Hpath, HD. cbn [negb].
  unfold load_json_file, json_loads. rewrite !bind_run.
  change (ask E w) with (Return E, w). cbv beta iota. rewrite Hf, Hl.
  rewrite ret_run. cbv beta iota. rewrite bind_run.
  unfold create_router. run. rewrite py_len_run, Hn. split; reflexivity.
Qed.

Lemma main_routes_file_unsized_witness :
  fst (main (Create (py "R") None (Some (py "routes.json")) (Some (py "m")))
         (gateway_with_routes_file (SendFails OSError) (py "42")) initial)
  = Raise TypeError.
Proof.
  exact (proj1 (@main_routes_file_unsized (py "R") (py "routes.json") (py "m")
                  (py "42") (JInt 42)
                  (gateway_with_routes_file (SendFails OSError) (py "42")) initial
                  eq_refl eq_refl eq_refl eq_refl eq_refl)).
Defined.

Lemma presets_lookup_In l k p : presets_lookup l k = Some p -> exists k', In (k', p) l.
Proof.
  induction l as [|[k' p'] l IH]; cbn [presets_lookup]; [discriminate|].
  destruct (str_eqb k' k).
  - intro H. inversion H; subst. exists k'. now left.
  - intro H. destruct (IH H) as [k0 Hin]. exists k0. now right.
Qed.

Lemma presets_routes_lists :
  forallb (fun kp : pystr * preset =>
             match routes (snd kp) with JList _ => true | _ => false end
             && wf_json (routes (snd kp))) PRESETS = true.
Proof. vm_compute. reflexivity. Qed.

(** The creation from any preset of the catalog, under any router name,
    with or without other options: one request is sent, whose configuration
    string parses to the routes of the preset and whose default model is the
    one of the preset. *)
Theorem create_from_any_preset name k p rf default E w :
  presets_lookup PRESETS k = Some p ->
  let pl := payload name (routes p) (default_model p) in
  trace (snd (main (Create name (Some k) rf default) E w))
  = trace w ++ exchange E w (request_of E (py "POST") (py "/model/new") (Some pl))
  /\ (exists cfg,
        getpath pl ["litellm_params"; "auto_router_config"]%string = Some (JStr cfg)
        /\ loads cfg = Some (JDict [(py "routes", routes p)]))
  /\ getpath pl ["litellm_params"; "auto_router_default_model"]%string
     = Some (JStr (default_model p)).
Proof.
  intros Hk pl.
  assert (Hg : given (Some k) = true).
  { destruct k; [discriminate Hk|reflexivity]. }
  destruct (presets_lookup_In _ _ Hk) as [k' Hin].
  pose proof presets_routes_lists as Hall. rewrite forallb_forall in Hall.
  specialize (Hall _ Hin). cbn [snd] in Hall. apply andb_true_iff in Hall as [Hl Hwf].
  destruct (routes p) as [| | | | |rs|] eqn:Hr; try discriminate Hl.
  split; [|split].
  - unfold main. rewrite Hg, Hk. rewrite bind_ret_tt_snd. subst pl. rewrite Hr.
    now apply RouterSpec.create_router_trace with (n := Z.of_nat (length rs)).
  - exists (dumps (JDict [(py "routes", JList rs)])). split; [reflexivity|].
    now apply loads_dumps, RouterSpec.routes_config_wf.
  - reflexivity.
Qed.

Lemma create_from_any_preset_witness :
  exists cfg,
    getpath (payload (py "Q") (JList (match presets_lookup PRESETS (py "quick") with
                                      | Some {| routes := JList rs |} => rs
                                      | _ => []
                                      end))
                     (py "groq/llama-3.1-8b-instant"))
            ["litellm_params"; "auto_router_config"]%string = Some (JStr cfg).
Proof.
  destruct (proj1 (proj2 (@create_from_any_preset (py "Q") (py "quick") _ None None
                            (gateway (SendFails OSError)) initial eq_refl)))
    as [cfg [H _]].
  exists cfg. exact H.
Defined.

(** *** What does not depend on the files *)

Lemma file_blind_ret A (a : A) : file_blind (ret a).
Proof. intros E f w. reflexivity. Qed.

Lemma file_blind_raise A e : file_blind (@raise A e).
Proof. intros E f w. reflexivity. Qed.

Lemma file_blind_print line : file_blind (print line).
Proof. intros E f w. reflexivity. Qed.

Lemma file_blind_bind A B (m : M A) (k : A -> M B) :
  file_blind m -> (forall a, file_blind (k a)) -> file_blind (bind m k).
Proof.
  intros Hm Hk E f w. rewrite !bind_run, Hm.
  destruct (m E w) as [[a|e] w']; [apply Hk|reflexivity].
Qed.

Lemma file_blind_for_each A (xs : list A) (body : A -> M unit) :
  (forall x, file_blind (body x)) -> file_blind (for_each xs body).
Proof.
  intro Hb. induction xs as [|x xs IH]; cbn [for_each].
  - apply file_blind_ret.
  - apply file_blind_bind; auto.
Qed.

Lemma file_blind_py_get v k default : file_blind (py_get v k default).
Proof. intros E f w. now destruct v. Qed.

Lemma file_blind_py_len v : file_blind (py_len v).
Proof. intros E f w. now destruct v. Qed.

Lemma file_blind_py_iter v : file_blind (py_iter v).
Proof. intros E f w. now destruct v. Qed.

Lemma file_blind_api_request method path body :
  file_blind (api_request method path body).
Proof. intros E f w. now rewrite !api_request_run. Qed.

Ltac file_blind_steps :=
  repeat first [ apply file_blind_ret | apply file_blind_raise | apply file_blind_print
               | apply file_blind_py_get | apply file_blind_py_len
               | apply file_blind_py_iter | apply file_blind_api_request
               | apply file_blind_for_each; intro
               | apply file_blind_bind; [|intro]
               | match goal with
                 | |- file_blind (let (_, _) := ?x in _) => destruct x
                 | |- file_blind (if ?b then _ else _) => destruct b
                 end ].

Lemma file_blind_create_router name routes default_model :
  file_blind (create_router name routes default_model).
Proof. unfold create_router. file_blind_steps. Qed.

Lemma file_blind_delete_model m : file_blind (delete_model m).
Proof. unfold delete_model. file_blind_steps. Qed.

Lemma file_blind_list_models : file_blind list_models.
Proof.
  intros E f w. unfold list_models. rewrite !(bind_run ask).
  change (ask (with_files E f) w) with (Return (with_files E f), w).
  change (ask E w) with (Return E, w). cbv beta iota.
  change (API_URL (with_files E f)) with (API_URL E).
  match goal with
  | |- ?m (with_files E f) w = _ => assert (H : file_blind m); [|apply H]
  end.
  file_blind_steps.
Qed.

(** Only [create] with a routes file, a default model and no preset opens a
    file: any other invocation runs the same whatever the files are. *)
Theorem main_reads_file_only_for_routes a E f w :
  reads_routes_file a = false ->
  main a (with_files E f) w = main a E w.
Proof.
  destruct a as [name preset rf default| |model_id]; cbn [reads_routes_file main].
  - intro H. destruct (given preset).
    + destruct (presets_lookup PRESETS _) as [p|]; [|reflexivity].
      apply file_blind_bind; [apply file_blind_create_router|intro; apply file_blind_ret].
    + destruct (given rf); [|reflexivity].
      destruct (given default); [discriminate H|reflexivity].
  - intros _. apply file_blind_list_models.
  - intros _. apply file_blind_delete_model.
Qed.

Lemma main_reads_file_only_for_routes_witness :
  main (Create (py "R") (Some (py "quick")) (Some (py "routes.json")) (Some (py "m")))
       (gateway_with_routes_file (Responds 200 (ascii_bytes (py "{}"))) (py "42")) initial
  = main (Create (py "R") (Some (py "quick")) (Some (py "routes.json")) (Some (py "m")))
         (gateway (Responds 200 (ascii_bytes (py "{}")))) initial.
Proof.
  exact (@main_reads_file_only_for_routes
           (Create (py "R") (Some (py "quick")) (Some (py "routes.json")) (Some (py "m")))
           (gateway (Responds 200 (ascii_bytes (py "{}")))) _ initial eq_refl).
Defined.

End RouterProps.
